(** * Neural-Data-Analysis-Notebooks: epoching and feature aggregation

    A shallow embedding of the two notebooks' glue code
    ([00_StarterNotebook_BCIC_IV_2b.ipynb], [01_EEGFeatureExtraction.ipynb]):
    Python dictionaries are insertion-ordered association lists, exceptions
    are an error monad, data frames are column dictionaries with a row count,
    and the float64 arithmetic of numpy is an interface the code is
    parametric in. *)

From Stdlib Require Import String Ascii ZArith List Bool Lia Arith QArith.
From Stdlib Require Import Sorted DecimalString DecimalZ.
Import ListNotations.

#[local] Open Scope string_scope.
#[local] Open Scope list_scope.
#[local] Open Scope Z_scope.

(** ** Python exceptions as an error monad *)

Inductive exn : Type :=
| KeyError (key : string)
| IndexError
| ValueError
| TypeError.

Inductive result (A : Type) : Type :=
| Ok (a : A)
| Raise (e : exn).

Arguments Ok {A} a.
Arguments Raise {A} e.

Definition bind {A B : Type} (c : result A) (k : A -> result B) : result B :=
  match c with
  | Ok a => k a
  | Raise e => Raise e
  end.

Notation "x <- c ;; k" := (bind c (fun x => k))
  (at level 61, c at next level, right associativity).
Notation "' p <- c ;; k" := (bind c (fun x => let p := x in k))
  (at level 61, p pattern, c at next level, right associativity).

(** [for x in l: s = body(s, x)], stopping at the first exception. *)
Fixpoint foldM {S X : Type} (body : S -> X -> result S) (l : list X) (s : S)
  : result S :=
  match l with
  | [] => Ok s
  | x :: l' => s' <- body s x ;; foldM body l' s'
  end.

(** [[f(x) for x in l]], stopping at the first exception. *)
Fixpoint mapM {X Y : Type} (f : X -> result Y) (l : list X) : result (list Y) :=
  match l with
  | [] => Ok []
  | x :: l' => y <- f x ;; ys <- mapM f l' ;; Ok (y :: ys)
  end.

(** [enumerate(l)] *)
Definition enumerate {X : Type} (l : list X) : list (nat * X) :=
  combine (seq 0 (length l)) l.

(** [l[i]] for a non-negative index. *)
Definition index {X : Type} (l : list X) (i : nat) : result X :=
  match nth_error l i with
  | Some x => Ok x
  | None => Raise IndexError
  end.

(** ** Python dictionaries with string keys (insertion ordered) *)

Definition dict (A : Type) : Type := list (string * A).

Fixpoint dict_get {A : Type} (k : string) (d : dict A) : option A :=
  match d with
  | [] => None
  | (k', v) :: d' => if String.eqb k k' then Some v else dict_get k d'
  end.

(** [k in d] *)
Definition dict_mem {A : Type} (k : string) (d : dict A) : bool :=
  match dict_get k d with
  | Some _ => true
  | None => false
  end.

(** [d[k] = v]: overwrite in place, or add the key at the end. *)
Fixpoint dict_set {A : Type} (k : string) (v : A) (d : dict A) : dict A :=
  match d with
  | [] => [(k, v)]
  | (k', v') :: d' =>
      if String.eqb k k' then (k', v) :: d' else (k', v') :: dict_set k v d'
  end.

(** [d[k]] *)
Definition dict_item {A : Type} (k : string) (d : dict A) : result A :=
  match dict_get k d with
  | Some v => Ok v
  | None => Raise (KeyError k)
  end.

(** [if k not in d: d[k] = list()] *)
Definition setdefault_list {A : Type} (k : string) (d : dict (list A))
  : dict (list A) :=
  if dict_mem k d then d else dict_set k [] d.

(** [d[k].append(x)] *)
Definition list_append_at {A : Type} (k : string) (x : A) (d : dict (list A))
  : result (dict (list A)) :=
  l <- dict_item k d ;;
  Ok (dict_set k (l ++ [x]) d).

(** The column stored under [k], empty when the key is absent. *)
Definition col {A : Type} (k : string) (d : dict (list A)) : list A :=
  match dict_get k d with
  | Some l => l
  | None => []
  end.

(** The guarded append of the notebooks, as one pure step. *)
Fixpoint push {A : Type} (k : string) (x : A) (d : dict (list A))
  : dict (list A) :=
  match d with
  | [] => [(k, [x])]
  | (k', l) :: d' =>
      if String.eqb k k' then (k', l ++ [x]) :: d' else (k', l) :: push k x d'
  end.

Definition push_all {A : Type} (ps : list (string * A)) (d : dict (list A))
  : dict (list A) :=
  fold_left (fun d p => push (fst p) (snd p) d) ps d.

Section Frames.

(** [V]: a float64 sample or feature value; [L]: a class label. *)
Context {V L : Type}.

(** ** Data frames *)

Inductive cell : Type :=
| CNum (z : Z)            (* a timestamp in milliseconds *)
| CLabel (l : L)          (* a class label *)
| CArr (a : list V)       (* a numpy array of samples *)
| CVal (v : V)            (* one float64 *)
| CNaN.                   (* a missing value *)

Record DataFrame : Type := {
  nrows : nat;
  cols : dict (list cell)
}.

(** [pd.DataFrame(d)] for a dictionary of lists: all lists must have one
    length, which is the number of rows. *)
Definition pd_DataFrame (d : dict (list cell)) : result DataFrame :=
  match d with
  | [] => Ok {| nrows := 0; cols := [] |}
  | (_, c) :: _ =>
      if forallb (fun kc => Nat.eqb (length (snd kc)) (length c)) d
      then Ok {| nrows := length c; cols := d |}
      else Raise ValueError
  end.

(** [df[key][i]], and [row[key]] for the [i]-th row of [df.iterrows()]. *)
Definition df_at (df : DataFrame) (key : string) (i : nat) : result cell :=
  c <- dict_item key (cols df) ;;
  index c i.

(** ** The raw recording: one row per sample time *)

Record raw_row : Type := {
  time : Z;                (* ms since the start of the recording *)
  EventStart : Z;          (* 1 where a trial starts *)
  chan : string -> V       (* the channel columns *)
}.

Record raw_df : Type := {
  raw_columns : list string;   (* names of the channel columns *)
  raw_rows : list raw_row
}.

Record events_df : Type := {
  EventType : list L
}.

(** [df[mask]] *)
Definition mask (p : raw_row -> bool) (df : raw_df) : raw_df :=
  {| raw_columns := raw_columns df; raw_rows := filter p (raw_rows df) |}.

(** [df[ch].values] *)
Definition raw_getitem (df : raw_df) (ch : string) : result (list V) :=
  if existsb (String.eqb ch) (raw_columns df)
  then Ok (map (fun r => chan r ch) (raw_rows df))
  else Raise (KeyError ch).

(** [df.iloc[i]] *)
Definition iloc (df : raw_df) (i : nat) : result raw_row :=
  index (raw_rows df) i.

(** ** [getDF] (notebook 00) *)

Definition getDF_chan (epochs : list (list (list V))) (i : nat)
    (chans : list string) (data_dict : dict (list cell)) (ch : nat)
  : result (dict (list cell)) :=
  name <- index chans ch ;;
  let data_dict := setdefault_list name data_dict in
  ep <- index epochs i ;;
  x <- index ep ch ;;
  list_append_at name (CArr x) data_dict.

Definition getDF_row (epochs : list (list (list V))) (times : list (Z * Z))
    (chans : list string) (data_dict : dict (list cell)) (il : nat * L)
  : result (dict (list cell)) :=
  let '(i, label) := il in
  t <- index times i ;;
  let start_time := fst t in
  let data_dict := setdefault_list "start_time" data_dict in
  data_dict <- list_append_at "start_time" (CNum start_time) data_dict ;;
  let data_dict := setdefault_list "event_type" data_dict in
  data_dict <- list_append_at "event_type" (CLabel label) data_dict ;;
  foldM (getDF_chan epochs i chans) (seq 0 (length chans)) data_dict.

Definition getDF (epochs : list (list (list V))) (labels : list L)
    (times : list (Z * Z)) (chans : list string) : result DataFrame :=
  data_dict <- foldM (getDF_row epochs times chans) (enumerate labels) [] ;;
  pd_DataFrame data_dict.

(** ** [getEpochedDF] (notebook 00)

    The [time] column holds integer milliseconds and the trial duration is
    an integer number of milliseconds, so [int(...)] is applied to an
    integral value and leaves it as it is.  [all_chans] is the notebook's
    global channel list. *)

Definition py_int (z : Z) : Z := z.

Definition in_window (start_time end_time : Z) (r : raw_row) : bool :=
  (start_time <? time r) && (time r <=? end_time).

Definition epoch_state : Type :=
  (list (list (list V)) * list (Z * Z) * list L)%type.

Definition getEpochedDF_step (all_chans : list string) (eeg_df start_df : raw_df)
    (trial_duration_ms : Z) (st : epoch_state) (ie : nat * L)
  : result epoch_state :=
  let '(epochs, epoch_times, labels) := st in
  let '(i, event_type) := ie in
  let labels := labels ++ [event_type] in
  row <- iloc start_df i ;;
  let start_time := time row in
  let end_time := py_int (start_time + trial_duration_ms) in
  let epoch_times := epoch_times ++ [(start_time, end_time)] in
  let sub_df := mask (in_window start_time end_time) eeg_df in
  eeg_dat <- mapM (raw_getitem sub_df) all_chans ;;
  Ok (epochs ++ [eeg_dat], epoch_times, labels).

Definition getEpochedDF (all_chans : list string) (eeg_df : raw_df)
    (event_df : events_df) (trial_duration_ms : Z) : result DataFrame :=
  let start_df := mask (fun r => EventStart r =? 1) eeg_df in
  st <- foldM (getEpochedDF_step all_chans eeg_df start_df trial_duration_ms)
          (enumerate (EventType event_df)) ([], [], []) ;;
  let '(epochs, epoch_times, labels) := st in
  getDF epochs labels epoch_times all_chans.

(** The appends of one iteration of the outer loop of [getDF], in order. *)
Definition getDF_pushes (epochs : list (list (list V))) (times : list (Z * Z))
    (chans : list string) (il : nat * L) : list (string * cell) :=
  ("start_time", CNum (fst (nth (fst il) times (0, 0)))) ::
  ("event_type", CLabel (snd il)) ::
  map (fun c => (nth c chans "", CArr (nth c (nth (fst il) epochs []) [])))
      (seq 0 (length chans)).

(** ** What the extractor is expected to select *)

(** The rows flagged as trial starts, in recording order. *)
Definition start_rows (eeg_df : raw_df) : list raw_row :=
  filter (fun r => EventStart r =? 1) (raw_rows eeg_df).

(** The rows inside the window that follows the start row [r0]. *)
Definition window_rows (eeg_df : raw_df) (trial_duration_ms : Z) (r0 : raw_row)
  : list raw_row :=
  filter (in_window (time r0) (time r0 + trial_duration_ms)) (raw_rows eeg_df).

(** The samples of channel [ch] in that window. *)
Definition window_samples (eeg_df : raw_df) (trial_duration_ms : Z)
    (r0 : raw_row) (ch : string) : list V :=
  map (fun r => chan r ch) (window_rows eeg_df trial_duration_ms r0).

(** Inputs on which the extractor does not raise: a start marker for every
    event, every configured channel present in the recording, and channel
    names that are distinct and differ from the two bookkeeping columns. *)
Record valid_inputs (all_chans : list string) (eeg_df : raw_df)
    (event_df : events_df) : Prop := {
  enough_starts :
    (length (EventType event_df) <= length (start_rows eeg_df))%nat;
  chans_present : forall ch, In ch all_chans -> In ch (raw_columns eeg_df);
  chans_distinct : NoDup all_chans;
  chans_not_start_time : ~ In "start_time" all_chans;
  chans_not_event_type : ~ In "event_type" all_chans
}.

(** A recording sampled every [period] ms from time [t0]. *)
Definition uniformly_sampled (eeg_df : raw_df) (t0 period : Z) : Prop :=
  map time (raw_rows eeg_df) =
  map (fun k => t0 + Z.of_nat k * period) (seq 0 (length (raw_rows eeg_df))).

End Frames.

Arguments cell : clear implicits.
Arguments DataFrame : clear implicits.
Arguments raw_row : clear implicits.
Arguments raw_df : clear implicits.
Arguments events_df : clear implicits.


(* ================================================================== *)
(** * Notebook 01: feature aggregation *)

(** ** Python numbers of a boundary list and their [str] *)

(** A boundary is an [int] or a [float]; a float is kept as the digits of
    its [repr] in positional notation (sign, whole part, fractional
    digits), which is all the notebook uses of it besides handing it to
    pyeeg. *)
Inductive pynum : Type :=
| PyInt (z : Z)
| PyFloat (negative : bool) (whole : N) (frac : Decimal.uint).

Definition repr (x : pynum) : string :=
  match x with
  | PyInt z => NilZero.string_of_int (Z.to_int z)
  | PyFloat s w f =>
      (if s then "-" else "") ++ NilEmpty.string_of_uint (N.to_uint w) ++ "." ++
      NilEmpty.string_of_uint f
  end.

(** The numeric value of a boundary. *)
Definition pyval (x : pynum) : Q :=
  match x with
  | PyInt z => inject_Z z
  | PyFloat s w f =>
      let m := (inject_Z (Z.of_N w) +
                Qmake (Z.of_N (N.of_uint f))
                      (Pos.pow 10 (Pos.of_nat (Decimal.nb_digits f))))%Q in
      if s then Qopp m else m
  end.

Definition interval : Type := (pynum * pynum)%type.

(** [str(interval)] for a 2-tuple of numbers. *)
Definition str_interval (iv : interval) : string :=
  "(" ++ repr (fst iv) ++ ", " ++ repr (snd iv) ++ ")".

(** [ch + "_" + str(interval)] *)
Definition feature_key (ch : string) (iv : interval) : string :=
  ch ++ "_" ++ str_interval iv.

(** An ordered boundary list: strictly increasing values. *)
Definition strictly_increasing (binning : list pynum) : Prop :=
  StronglySorted (fun a b => (pyval a < pyval b)%Q) binning.

(** ** [getIntervals] *)

Definition getIntervals_step (binning : list pynum) (intervals : list interval)
    (iv : nat * pynum) : result (list interval) :=
  let '(i, val) := iv in
  next <- index binning (i + 1) ;;
  Ok (intervals ++ [(val, next)]).

Definition getIntervals (binning : list pynum) : result (list interval) :=
  foldM (getIntervals_step binning) (enumerate (removelast binning)) [].

(** The consecutive pairs [(b0,b1), (b1,b2), ...] of a boundary list. *)
Fixpoint consecutive_pairs (binning : list pynum) : list interval :=
  match binning with
  | a :: (b :: _) as rest => (a, b) :: consecutive_pairs rest
  | _ => []
  end.

(** The notebook's constants. *)
Definition default_binning : list pynum :=
  [PyFloat false 0 (Decimal.D5 Decimal.Nil); PyInt 4; PyInt 7; PyInt 12; PyInt 30].

Definition default_eeg_chans : list string := ["C3"; "Cz"; "C4"].
Definition default_eog_chans : list string := ["EOG:ch01"; "EOG:ch02"; "EOG:ch03"].
Definition default_all_chans : list string := default_eeg_chans ++ default_eog_chans.

(** ** float64 arithmetic as an interface

    The notebooks only combine numpy's operations; which float64 each one
    returns (rounding, infinities, NaN) is numpy's business.  None of them
    raises: numpy floats divide by zero with a warning.  [fis_nan] is the
    test pandas uses to tell a missing value. *)
Class Float64 (V : Type) : Type := {
  of_Z : Z -> V;            (* float(n) *)
  fnan : V;
  fadd : V -> V -> V;
  fsub : V -> V -> V;
  fmul : V -> V -> V;
  fdiv : V -> V -> V;
  fsqrt : V -> V;
  fis_nan : V -> bool       (* numpy.isnan(x) *)
}.

Section Numpy.

Context {V : Type} `{Float64 V}.

Definition np_sum (xs : list V) : V := fold_left fadd xs (of_Z 0).

(** [len(xs)] as a float *)
Definition flen (xs : list V) : V := of_Z (Z.of_nat (length xs)).

(** The values of a Series that are not missing: pandas' reductions skip
    NaN ([skipna=True]). *)
Definition dropna (xs : list V) : list V :=
  filter (fun x => negb (fis_nan x)) xs.

(** [Series.mean()]: the sum of the values that are not NaN divided by
    their number, NaN when there is none. *)
Definition Series_mean (xs : list V) : V :=
  let values := dropna xs in
  match values with
  | [] => fnan
  | _ => fdiv (np_sum values) (flen values)
  end.

Definition sq_dev (m x : V) : V := fmul (fsub x m) (fsub x m).

(** [Series.var(ddof=ddof)]: over the [count] values that are not NaN, the
    squared deviations from their mean, summed and divided by
    [count - ddof]; NaN when [count <= ddof]. *)
Definition Series_var (ddof : nat) (xs : list V) : V :=
  let values := dropna xs in
  let count := length values in
  if (count <=? ddof)%nat then fnan
  else fdiv (np_sum (map (sq_dev (fdiv (np_sum values) (flen values))) values))
            (of_Z (Z.of_nat count - Z.of_nat ddof)).

Definition Series_std (ddof : nat) (xs : list V) : V :=
  fsqrt (Series_var ddof xs).

(** [np.std(this_data)] and [np.mean(this_data)] for a pandas Series: numpy
    hands the call to the method of the Series, [np.std] passing its own
    default [ddof=0]. *)
Definition np_std (xs : list V) : V := Series_std 0 xs.

Definition np_mean (xs : list V) : V := Series_mean xs.

(** [np.sqrt(n)] for an integer count. *)
Definition np_sqrt_count (n : nat) : V := fsqrt (of_Z (Z.of_nat n)).

(** *** The statistics of the literature

    Written out on their own, for comparison with what the calls above
    compute: the arithmetic mean, and the standard deviation as the square
    root of the summed squared deviations from the mean divided by [n]
    (population) or by [n - 1] (sample). *)
Fixpoint total_from (acc : V) (xs : list V) : V :=
  match xs with
  | [] => acc
  | x :: xs' => total_from (fadd acc x) xs'
  end.

Definition total (xs : list V) : V := total_from (of_Z 0) xs.

Definition arithmetic_mean (xs : list V) : V :=
  fdiv (total xs) (of_Z (Z.of_nat (length xs))).

Definition squared_deviations (xs : list V) : list V :=
  map (fun x => fmul (fsub x (arithmetic_mean xs)) (fsub x (arithmetic_mean xs)))
      xs.

Definition population_std (xs : list V) : V :=
  fsqrt (fdiv (total (squared_deviations xs)) (of_Z (Z.of_nat (length xs)))).

Definition sample_std (xs : list V) : V :=
  fsqrt (fdiv (total (squared_deviations xs))
              (of_Z (Z.of_nat (length xs) - 1))).

End Numpy.

Section Features.

Context {V L : Type} `{Float64 V}.

(** Label equality, and pyeeg's [bin_power(X, Band, Fs)], which returns
    [(Power, Power_Ratio)] or raises.  The labels of the notebook are the
    integer event codes, the keys of [event_types = {0: "left", 1: "right"}]. *)
Variable L_eqb : L -> L -> bool.
Variable bin_power : list V -> list pynum -> Z -> result (list V * list V).

#[local] Abbreviation cell := (cell V L).
#[local] Abbreviation DataFrame := (DataFrame V L).

(** [c[:]]: only an array can be sliced. *)
Definition as_array (c : cell) : result (list V) :=
  match c with
  | CArr a => Ok a
  | _ => Raise TypeError
  end.

(** A cell used as an operand of float arithmetic. *)
Definition as_float (c : cell) : result V :=
  match c with
  | CVal v => Ok v
  | CNaN => Ok fnan
  | _ => Raise TypeError
  end.

(** [getPowerRatio(eeg_data, binning)] with its default [eeg_fs=250]. *)
Definition getPowerRatio (eeg_data : list V) (binning : list pynum)
  : result (list V) :=
  pp <- bin_power eeg_data binning 250 ;;
  Ok (snd pp).

(** ** The power-bin table [power_ratios_df] *)

Definition power_ratios_bin (ch : string) (ratios : list V)
    (power_ratios : dict (list cell)) (ji : nat * interval)
  : result (dict (list cell)) :=
  let '(j, interval) := ji in
  let key := feature_key ch interval in
  let power_ratios := setdefault_list key power_ratios in
  r <- index ratios j ;;
  list_append_at key (CVal r) power_ratios.

Definition power_ratios_chan (eeg_epoch_full_df : DataFrame)
    (binning : list pynum) (intervals : list interval) (i : nat)
    (power_ratios : dict (list cell)) (ch : string)
  : result (dict (list cell)) :=
  c <- df_at eeg_epoch_full_df ch i ;;
  eeg_data <- as_array c ;;
  ratios <- getPowerRatio eeg_data binning ;;
  foldM (power_ratios_bin ch ratios) (enumerate intervals) power_ratios.

Definition power_ratios_row (eeg_chans : list string)
    (eeg_epoch_full_df : DataFrame) (binning : list pynum)
    (intervals : list interval) (power_ratios : dict (list cell)) (i : nat)
  : result (dict (list cell)) :=
  event_type <- df_at eeg_epoch_full_df "event_type" i ;;
  power_ratios <-
    foldM (power_ratios_chan eeg_epoch_full_df binning intervals i)
          eeg_chans power_ratios ;;
  y <- df_at eeg_epoch_full_df "event_type" i ;;
  list_append_at "y" y power_ratios.

Definition power_ratios_dict (eeg_chans : list string) (binning : list pynum)
    (eeg_epoch_full_df : DataFrame) : result (dict (list cell)) :=
  intervals <- getIntervals binning ;;
  foldM (power_ratios_row eeg_chans eeg_epoch_full_df binning intervals)
        (seq 0 (nrows eeg_epoch_full_df)) [("y", [])].

Definition power_ratios_df (eeg_chans : list string) (binning : list pynum)
    (eeg_epoch_full_df : DataFrame) : result DataFrame :=
  power_ratios <- power_ratios_dict eeg_chans binning eeg_epoch_full_df ;;
  pd_DataFrame power_ratios.

(** ** Per-class statistics: [chan_frequency_sems], [chan_frequency_avgs] *)

(** [df['y'] == event_type], row by row. *)
Definition label_mask (df : DataFrame) (event_type : L) : result (list bool) :=
  y <- dict_item "y" (cols df) ;;
  Ok (map (fun c => match c with CLabel l => L_eqb l event_type | _ => false end) y).

(** [df[mask][key]] *)
Definition masked_column (df : DataFrame) (m : list bool) (key : string)
  : result (list cell) :=
  c <- dict_item key (cols df) ;;
  Ok (map snd (filter fst (combine m c))).

Definition stats_state : Type := (dict (list cell) * dict (list cell))%type.

Definition stats_interval (df : DataFrame) (event_type : L) (ch : string)
    (st : stats_state) (interval : interval) : result stats_state :=
  let '(chan_frequency_sems, chan_frequency_avgs) := st in
  let key := feature_key ch interval in
  let '(chan_frequency_sems, chan_frequency_avgs) :=
    if dict_mem key chan_frequency_sems
    then (chan_frequency_sems, chan_frequency_avgs)
    else (dict_set key [] chan_frequency_sems,
          dict_set key [] chan_frequency_avgs) in
  m <- label_mask df event_type ;;
  cells <- masked_column df m key ;;
  this_data <- mapM as_float cells ;;
  let sem := fdiv (np_std this_data) (np_sqrt_count (length this_data)) in
  chan_frequency_sems <- list_append_at key (CVal sem) chan_frequency_sems ;;
  chan_frequency_avgs <-
    list_append_at key (CVal (np_mean this_data)) chan_frequency_avgs ;;
  Ok (chan_frequency_sems, chan_frequency_avgs).

Definition stats_dicts (event_types : list (L * string))
    (eeg_chans : list string) (intervals : list interval) (df : DataFrame)
  : result stats_state :=
  foldM (fun st event_type =>
    foldM (fun st ch =>
      foldM (stats_interval df event_type ch) intervals st)
      eeg_chans st)
    (map fst event_types) ([], []).

(** [std_err_df] and [avg_df] *)
Definition std_err_avg_df (event_types : list (L * string))
    (eeg_chans : list string) (intervals : list interval) (df : DataFrame)
  : result (DataFrame * DataFrame) :=
  st <- stats_dicts event_types eeg_chans intervals df ;;
  std_err_df <- pd_DataFrame (fst st) ;;
  avg_df <- pd_DataFrame (snd st) ;;
  Ok (std_err_df, avg_df).

(** ** Band ratios: [theta_beta_ratios]

    The rows of [iterrows()] are float64 when every column of the table is
    numeric, as in the table the power-bin cell makes of integer event codes;
    [/] on two of their cells is then numpy's division, [fdiv], which does not
    raise.  A table with a column of another kind (arrays, text) has rows of
    dtype object, on which [/] is Python's own division and raises on a zero
    divisor: such tables are not what this definition describes. *)

Definition theta_beta_chan (df : DataFrame) (i : nat)
    (theta_beta_ratios : dict (list cell)) (ch : string)
  : result (dict (list cell)) :=
  let curr_key := (ch ++ "_theta_beta")%string in
  let theta_beta_ratios := setdefault_list curr_key theta_beta_ratios in
  let power_bin_theta_key := (ch ++ "_(4, 7)")%string in
  let power_bin_beta_key := (ch ++ "_(12, 30)")%string in
  theta_val <- df_at df power_bin_theta_key i ;;
  beta_val <- df_at df power_bin_beta_key i ;;
  t <- as_float theta_val ;;
  b <- as_float beta_val ;;
  list_append_at curr_key (CVal (fdiv t b)) theta_beta_ratios.

Definition theta_beta_ratios (eeg_chans : list string) (df : DataFrame)
  : result (dict (list cell)) :=
  foldM (fun d i => foldM (theta_beta_chan df i) eeg_chans d)
        (seq 0 (nrows df)) [].

(** ** Channel differences: [C3_C4_differences] *)

Definition C3_C4_interval (df : DataFrame) (i : nat)
    (C3_C4_differences : dict (list cell)) (interval : interval)
  : result (dict (list cell)) :=
  let curr_key := ("C3_C4_diff_" ++ str_interval interval)%string in
  let C3_C4_differences := setdefault_list curr_key C3_C4_differences in
  let power_bin_C3_key := ("C3_" ++ str_interval interval)%string in
  let power_bin_C4_key := ("C4_" ++ str_interval interval)%string in
  C3_val <- df_at df power_bin_C3_key i ;;
  C4_val <- df_at df power_bin_C4_key i ;;
  a <- as_float C3_val ;;
  b <- as_float C4_val ;;
  list_append_at curr_key (CVal (fsub a b)) C3_C4_differences.

Definition C3_C4_differences (intervals : list interval) (df : DataFrame)
  : result (dict (list cell)) :=
  foldM (fun d i => foldM (C3_C4_interval df i) intervals d)
        (seq 0 (nrows df)) [].

(** ** [pd.concat(dfs, axis=1)] over default range indexes: the columns of
    all frames side by side, shorter ones padded with missing values. *)

Definition pad_column (n : nat) (c : list cell) : list cell :=
  c ++ repeat CNaN (n - length c).

Definition pd_concat (dfs : list DataFrame) : DataFrame :=
  let n := fold_right Nat.max 0%nat (map nrows dfs) in
  {| nrows := n;
     cols := flat_map (fun df => map (fun kc => (fst kc, pad_column n (snd kc)))
                                     (cols df)) dfs |}.

(** The feature table of the last cell, with its three parts. *)
Record feature_tables : Type := {
  ft_power_ratios_df : DataFrame;
  ft_band_ratios_df : DataFrame;
  ft_C3_C4_differences_df : DataFrame;
  ft_feature_df : DataFrame
}.

Definition feature_pipeline (eeg_chans : list string) (binning : list pynum)
    (eeg_epoch_full_df : DataFrame) : result feature_tables :=
  intervals <- getIntervals binning ;;
  prdf <- power_ratios_df eeg_chans binning eeg_epoch_full_df ;;
  tb <- theta_beta_ratios eeg_chans prdf ;;
  band_ratios_df <- pd_DataFrame tb ;;
  cd <- C3_C4_differences intervals prdf ;;
  C3_C4_differences_df <- pd_DataFrame cd ;;
  Ok {| ft_power_ratios_df := prdf;
        ft_band_ratios_df := band_ratios_df;
        ft_C3_C4_differences_df := C3_C4_differences_df;
        ft_feature_df := pd_concat [prdf; band_ratios_df; C3_C4_differences_df] |}.

End Features.

(* ================================================================== *)
(** * What the feature aggregator is expected to produce *)

Section FeatureSpecs.

Context {V L : Type} `{Float64 V}.
Variable bin_power : list V -> list pynum -> Z -> result (list V * list V).

#[local] Abbreviation cellVL := (cell V L).
#[local] Abbreviation frameVL := (DataFrame V L).

(** The power-ratio column keys, channel by channel. *)
Definition all_keys (eeg_chans : list string) (intervals : list interval)
  : list string :=
  flat_map (fun ch => map (feature_key ch) intervals) eeg_chans.

(** The cell [df[key][i]], a missing value when the lookup raises. *)
Definition cell_at (df : frameVL) (key : string) (i : nat) : cellVL :=
  match df_at df key i with
  | Ok c => c
  | Raise _ => CNaN
  end.

(** The float [df[key][i]]. *)
Definition float_at (df : frameVL) (key : string) (i : nat) : V :=
  match as_float (cell_at df key i) with
  | Ok v => v
  | Raise _ => fnan
  end.

(** [df[key][i]] is there and is a float. *)
Definition has_float (df : frameVL) (key : string) (i : nat) : Prop :=
  exists v, df_at df key i = Ok (CVal v).

(** pyeeg's power ratios of the signal of channel [ch] in epoch [i]. *)
Definition ratios_at (df : frameVL) (binning : list pynum) (ch : string)
    (i : nat) : list V :=
  match df_at df ch i with
  | Ok (CArr x) =>
      match bin_power x binning 250 with
      | Ok pp => snd pp
      | Raise _ => []
      end
  | _ => []
  end.

Definition ratio_at (df : frameVL) (binning : list pynum) (ch : string)
    (i j : nat) : V :=
  nth j (ratios_at df binning ch i) fnan.

(** An epoch table the power-bin cell runs on without raising: a label and,
    for every EEG channel, an array in every row, on which pyeeg returns
    one ratio per interval. *)
Record valid_epochs (eeg_chans : list string) (binning : list pynum)
    (df : frameVL) : Prop := {
  ve_label : forall i, (i < nrows df)%nat ->
    exists y, df_at df "event_type" i = Ok y;
  ve_signal : forall ch i, In ch eeg_chans -> (i < nrows df)%nat ->
    exists x pp, df_at df ch i = Ok (CArr x) /\
                 bin_power x binning 250 = Ok pp /\
                 length (snd pp) = (length binning - 1)%nat
}.

(** The appends of one iteration of the outer loop of the power-bin cell. *)
Definition power_ratios_pushes (eeg_chans : list string) (binning : list pynum)
    (intervals : list interval) (df : frameVL) (i : nat)
  : list (string * cellVL) :=
  flat_map (fun ch =>
    map (fun ji => (feature_key ch (snd ji),
                    CVal (ratio_at df binning ch i (fst ji))))
        (enumerate intervals)) eeg_chans
  ++ [("y", cell_at df "event_type" i)].

(** The dictionary the power-bin cell builds: the label column [y] first,
    then all appends of all rows. *)
Definition power_ratios_expected (eeg_chans : list string)
    (binning : list pynum) (df : frameVL) : dict (list cellVL) :=
  push_all
    (flat_map (power_ratios_pushes eeg_chans binning
                 (consecutive_pairs binning) df) (seq 0 (nrows df)))
    [("y", [])].

(** The frame [power_ratios_df] made from it. *)
Definition power_ratios_frame (eeg_chans : list string)
    (binning : list pynum) (df : frameVL) : frameVL :=
  {| nrows := nrows df; cols := power_ratios_expected eeg_chans binning df |}.

(** Every column has as many cells as the frame has rows. *)
Definition wf_frame (df : frameVL) : Prop :=
  forall k c, In (k, c) (cols df) -> length c = nrows df.

(** The values of column [vs] in the rows whose label in [ys] is [l]. *)
Definition class_values (L_eqb : L -> L -> bool) (l : L) (ys : list L)
    (vs : list V) : list V :=
  map snd (filter (fun yv => L_eqb (fst yv) l) (combine ys vs)).

(** The band ratio of channel [ch] in row [i]: theta power divided by beta
    power. *)
Definition theta_beta_value (df : frameVL) (i : nat) (ch : string) : cellVL :=
  CVal (fdiv (float_at df (ch ++ "_(4, 7)")%string i)
             (float_at df (ch ++ "_(12, 30)")%string i)).

(** The channel difference for interval [iv] in row [i]: C3 minus C4. *)
Definition C3_C4_value (df : frameVL) (i : nat) (iv : interval) : cellVL :=
  CVal (fsub (float_at df ("C3_" ++ str_interval iv)%string i)
             (float_at df ("C4_" ++ str_interval iv)%string i)).

(** A cell read as a float, NaN when it is not one. *)
Definition float_of_cell (c : cellVL) : V :=
  match as_float c with
  | Ok v => v
  | Raise _ => fnan
  end.

(** [this_data] of the statistics cell for label [l] and column [key]. *)
Definition this_data_of (L_eqb : L -> L -> bool) (df : frameVL) (l : L)
    (key : string) : list V :=
  map float_of_cell
    (map snd
       (filter fst
          (combine
             (map (fun c => match c with CLabel y => L_eqb y l | _ => false end)
                  (col "y" (cols df)))
             (col key (cols df))))).

Definition sem_value (L_eqb : L -> L -> bool) (df : frameVL) (l : L)
    (p : string * interval) : cellVL :=
  let this_data := this_data_of L_eqb df l (feature_key (fst p) (snd p)) in
  CVal (fdiv (np_std this_data) (np_sqrt_count (length this_data))).

Definition avg_value (L_eqb : L -> L -> bool) (df : frameVL) (l : L)
    (p : string * interval) : cellVL :=
  CVal (np_mean (this_data_of L_eqb df l (feature_key (fst p) (snd p)))).

(** A table the statistics cell runs on without raising: a label column
    and a float column for every configured key. *)
Definition stats_ready (eeg_chans : list string) (intervals : list interval)
    (df : frameVL) : Prop :=
  (exists ycol, dict_get "y" (cols df) = Some ycol) /\
  forall ch iv, In ch eeg_chans -> In iv intervals ->
    exists vs, dict_get (feature_key ch iv) (cols df) = Some (map (fun v => CVal v) vs).

End FeatureSpecs.

(** A table all of whose columns are numeric (integer codes, floats, missing
    values): no cell holds an array.  Its rows are float64. *)
Definition numeric_cell {V : Type} (c : cell V Z) : bool :=
  match c with
  | CArr _ => false
  | _ => true
  end.

Definition numeric_frame {V : Type} (df : DataFrame V Z) : bool :=
  forallb (fun kc => forallb numeric_cell (snd kc)) (cols df).

(** Two dictionaries with the same keys. *)
Definition same_keys {A B : Type} (s : dict A) (a : dict B) : Prop :=
  forall k, dict_mem k s = dict_mem k a.

(** All pairs of a channel and an interval, channel-major. *)
Definition pairs_of {X Y : Type} (xs : list X) (ys : list Y) : list (X * Y) :=
  flat_map (fun x => map (pair x) ys) xs.

(** The dictionary built by a loop over [rows] that appends, for every item
    [x] of a fixed list, the value [valf r x] under the key [keyf x]. *)
Definition row_table {A R X : Type} (keyf : X -> string) (valf : R -> X -> A)
    (items : list X) (rows : list R) : dict (list A) :=
  push_all (flat_map (fun r => map (fun x => (keyf x, valf r x)) items) rows) [].

(** ** Characters of the column keys *)

Definition lstr (s : string) : list ascii := list_ascii_of_string s.

Definition is_digit (c : ascii) : bool :=
  existsb (Ascii.eqb c) (lstr "0123456789").

(** The characters of a printed number: digits, sign and decimal point. *)
Definition is_num_char (c : ascii) : bool :=
  is_digit c || Ascii.eqb c "-" || Ascii.eqb c ".".

(* ================================================================== *)
(** * Concrete inputs *)

(** The scenario of the specification: a 10-second, 2-channel recording at
    250 Hz (2500 rows, 4 ms apart) with trial starts at 0 ms and 4000 ms,
    labelled "left" and "right". *)
Definition synth_row (k : nat) : raw_row Z :=
  {| time := 4 * Z.of_nat k;
     EventStart := if Nat.eqb k 0 || Nat.eqb k 1000 then 1 else 0;
     chan := fun ch => if String.eqb ch "C3" then Z.of_nat k else - Z.of_nat k |}.

Definition synth_chans : list string := ["C3"; "C4"].

Definition synth_eeg_df : raw_df Z :=
  {| raw_columns := synth_chans; raw_rows := map synth_row (seq 0 2500) |}.

Definition synth_event_df : events_df string :=
  {| EventType := ["left"; "right"] |}.

(** The same recording with a third trial starting at 8000 ms, whose
    4000 ms window runs past the last sample at 9996 ms. *)
Definition late_row (k : nat) : raw_row Z :=
  {| time := 4 * Z.of_nat k;
     EventStart := if Nat.eqb k 0 || Nat.eqb k 1000 || Nat.eqb k 2000 then 1 else 0;
     chan := fun ch => if String.eqb ch "C3" then Z.of_nat k else - Z.of_nat k |}.

Definition late_eeg_df : raw_df Z :=
  {| raw_columns := synth_chans; raw_rows := map late_row (seq 0 2500) |}.

Definition late_event_df : events_df string :=
  {| EventType := ["left"; "right"; "left"] |}.

(** A float64 that records the operations applied to it, so that concrete
    runs of the feature cells show which arithmetic was performed. *)
Inductive sym : Type :=
| SLit (z : Z)
| SNaN
| SAdd (a b : sym)
| SSub (a b : sym)
| SMul (a b : sym)
| SDiv (a b : sym)
| SSqrt (a : sym).

#[export] Instance sym_Float64 : Float64 sym :=
  {| of_Z := SLit; fnan := SNaN; fadd := SAdd; fsub := SSub; fmul := SMul;
     fdiv := SDiv; fsqrt := SSqrt;
     fis_nan := fun x => match x with SNaN => true | _ => false end |}.

(** Two stand-ins for [pyeeg.bin_power]: one that puts the same power in
    every bin, and one that moreover rejects an empty band list, as
    [numpy.zeros(len(Band) - 1)] does. *)
Definition flat_bin_power (x : list sym) (band : list pynum) (fs : Z)
  : result (list sym * list sym) :=
  let n := (length band - 1)%nat in
  Ok (repeat (SLit 1) n, repeat (SDiv (SLit 1) (SLit (Z.of_nat n))) n).

Definition strict_bin_power (x : list sym) (band : list pynum) (fs : Z)
  : result (list sym * list sym) :=
  match band with
  | [] => Raise ValueError
  | _ => flat_bin_power x band fs
  end.

(** An epoch table with two trials (labels 0 and 1) of two samples each. *)
Definition demo_epochs : DataFrame sym Z :=
  {| nrows := 2;
     cols := [("start_time", [CNum 0; CNum 4000]);
              ("event_type", [CLabel 0; CLabel 1]);
              ("C3", [CArr [SLit 1; SLit 2]; CArr [SLit 3; SLit 4]]);
              ("Cz", [CArr [SLit 5; SLit 6]; CArr [SLit 7; SLit 8]]);
              ("C4", [CArr [SLit 9; SLit 10]; CArr [SLit 11; SLit 12]])] |}.

(** The same columns without any trial. *)
Definition no_epochs : DataFrame sym Z :=
  {| nrows := 0;
     cols := [("start_time", []); ("event_type", []);
              ("C3", []); ("Cz", []); ("C4", [])] |}.

(** A power-bin table with one row whose beta power is zero. *)
Definition zero_beta_df : DataFrame sym Z :=
  {| nrows := 1;
     cols := [("y", [CLabel 0]);
              ("C3_(4, 7)", [CVal (SLit 3)]);
              ("C3_(12, 30)", [CVal (SLit 0)])] |}.

(** A power-bin table with three rows, two of label 0 and one of label 1. *)
Definition stats_df : DataFrame sym Z :=
  {| nrows := 3;
     cols := [("y", [CLabel 0; CLabel 1; CLabel 0]);
              ("C3_(4, 7)", [CVal (SLit 2); CVal (SLit 5); CVal (SLit 4)])] |}.

Definition demo_event_types : list (Z * string) := [(0, "left"); (1, "right")].

(** A power-bin table with four rows of label 0, two of them without a
    value. *)
Definition nan_stats_df : DataFrame sym Z :=
  {| nrows := 4;
     cols := [("y", [CLabel 0; CLabel 0; CLabel 0; CLabel 0]);
              ("C3_(4, 7)", [CVal (SLit 1); CVal (SLit 3); CVal SNaN; CVal SNaN])] |}.

(** The event table of the synthetic recording with one event more than the
    recording has start markers. *)
Definition synth_event_df_3 : events_df string :=
  {| EventType := ["left"; "right"; "left"] |}.

(** A six-sample recording with float samples, trial starts at 0 ms and
    12 ms, and the event codes 0 and 1. *)
Definition tiny_row (k : nat) : raw_row sym :=
  {| time := 4 * Z.of_nat k;
     EventStart := if Nat.eqb k 0 || Nat.eqb k 3 then 1 else 0;
     chan := fun ch => if String.eqb ch "C3" then SLit (Z.of_nat k)
                       else SLit (- Z.of_nat k) |}.

Definition tiny_eeg_df : raw_df sym :=
  {| raw_columns := synth_chans; raw_rows := map tiny_row (seq 0 6) |}.

Definition tiny_event_df : events_df Z := {| EventType := [0; 1] |}.

(** An event table without any event. *)
Definition no_event_df : events_df Z := {| EventType := [] |}.

(* ================================================================== *)
(** * Further cells of the notebooks *)

(** ** Python slices [l[a:b]] with integer bounds

    A negative bound counts from the end; bounds are clamped to the list. *)
Definition slice_bound (n : nat) (x : Z) : nat :=
  if x <? 0 then Z.to_nat (Z.max (x + Z.of_nat n) 0)
  else Nat.min (Z.to_nat x) n.

Definition py_slice {X : Type} (l : list X) (a b : Z) : list X :=
  let a' := slice_bound (length l) a in
  let b' := slice_bound (length l) b in
  firstn (b' - a') (skipn a' l).

(** ** Notebook 00, "View continuous EEG + EOG data by timepoint"

    [start_time_timepoints = start_time_ms // 4],
    [end_time_timepoints = start_time_timepoints + 1000],
    [eeg_df[ch].values[start_time_timepoints:end_time_timepoints]]. *)
Definition view_timepoints {V : Type} (eeg_df : raw_df V) (ch : string)
    (start_time_ms : Z) : result (list V) :=
  let start_time_timepoints := start_time_ms / 4 in
  let end_time_timepoints := start_time_timepoints + 1000 in
  values <- raw_getitem eeg_df ch ;;
  Ok (py_slice values start_time_timepoints end_time_timepoints).

(** ** Notebook 01, [plotMultipleBarGraphs]

    The function only talks to matplotlib and to the console, so it is
    modelled by the calls it makes, in order.  What matplotlib does with a
    call is a parameter: [plt c] is [None] when the call returns and the
    exception it raises otherwise.  [bars] is a sequence of sequences of
    floats ([N]: the type of bar names, [G]: of group names); the integers
    of [np.arange] and [range] appear as the floats they are converted to
    when the bar width is added. *)

Section Plotting.

Context {V : Type} `{Float64 V} {N G : Type}.

Inductive plt_call : Type :=
| py_print (s : string)
| plt_bar (x height : list V) (width : V) (label : N)
| plt_errorbar (x y yerr : list V) (fmt : string)
| plt_xlabel (s : string)
| plt_ylabel (s : string)
| plt_title (s : string)
| plt_ylim (bottom top : pynum)
| plt_xticks (ticks : list V) (labels : list G)
| plt_legend
| plt_show.

Variable plt : plt_call -> option exn.

Definition call (c : plt_call) (trace : list plt_call)
  : result (list plt_call) :=
  match plt c with
  | None => Ok (trace ++ [c])
  | Some e => Raise e
  end.

(** [if s:] for an optional string: [None] and the empty string are false. *)
Definition truthy (s : option string) : option string :=
  match s with
  | Some EmptyString => None
  | _ => s
  end.

Definition call_if (s : option string) (c : string -> plt_call)
    (trace : list plt_call) : result (list plt_call) :=
  match truthy s with
  | Some s' => call (c s') trace
  | None => Ok trace
  end.

(** [if i>0: positions.append([x + bar_width for x in positions[i-1]])] *)
Definition next_positions (bar_width : V) (positions : list (list V))
    (ib : nat * list V) : result (list (list V)) :=
  let '(i, _) := ib in
  if (0 <? i)%nat
  then prev <- index positions (i - 1) ;;
       Ok (positions ++ [map (fun x => fadd x bar_width) prev])
  else Ok positions.

Definition plotMultipleBarGraphs (bars : list (list V)) (bar_width : V)
    (bar_names : list N) (group_names : list G)
    (error_values : option (list (list V)))
    (title xlabel ylabel : option string) : result (list plt_call) :=
  if negb (length bar_names =? length bars)%nat
  then Ok [py_print "group names must be same length as bars"]
  else
    bars0 <- index bars 0 ;;
    let positions := [map (fun k => of_Z (Z.of_nat k)) (seq 0 (length bars0))] in
    positions <- foldM (next_positions bar_width) (enumerate bars) positions ;;
    trace <- foldM (fun trace ip =>
                      bar <- index bars (fst ip) ;;
                      name <- index bar_names (fst ip) ;;
                      call (plt_bar (snd ip) bar bar_width name) trace)
                   (enumerate positions) [] ;;
    trace <- match error_values with
             | None => Ok trace
             | Some error_values =>
                 foldM (fun trace ip =>
                          bar <- index bars (fst ip) ;;
                          yerr <- index error_values (fst ip) ;;
                          call (plt_errorbar (snd ip) bar yerr ".k") trace)
                       (enumerate positions) trace
             end ;;
    trace <- call_if xlabel plt_xlabel trace ;;
    trace <- call_if ylabel plt_ylabel trace ;;
    trace <- call_if title plt_title trace ;;
    bars0 <- index bars 0 ;;
    trace <- call (plt_xticks
                     (map (fun r => fadd (of_Z (Z.of_nat r)) bar_width)
                          (seq 0 (length bars0)))
                     group_names) trace ;;
    trace <- call plt_legend trace ;;
    call plt_show trace.

(** *** The calls expected of it *)

(** The horizontal positions of the bars of sequence [i], for [m] groups:
    group [k] sits at [k] with the bar width added [i] times. *)
Definition bar_positions (bar_width : V) (m i : nat) : list V :=
  map (fun k => Nat.iter i (fun x => fadd x bar_width) (of_Z (Z.of_nat k)))
      (seq 0 m).

Definition expected_bars (bars : list (list V)) (bar_width : V)
    (bar_names : list N) (m : nat) : list plt_call :=
  map (fun t => plt_bar (bar_positions bar_width m (fst t)) (fst (snd t))
                        bar_width (snd (snd t)))
      (combine (seq 0 (length bars)) (combine bars bar_names)).

Definition expected_errorbars (bars : list (list V)) (bar_width : V)
    (error_values : option (list (list V))) (m : nat) : list plt_call :=
  match error_values with
  | None => []
  | Some error_values =>
      map (fun t => plt_errorbar (bar_positions bar_width m (fst t))
                                 (fst (snd t)) (snd (snd t)) ".k")
          (combine (seq 0 (length bars)) (combine bars error_values))
  end.

Definition expected_label (s : option string) (c : string -> plt_call)
  : list plt_call :=
  match truthy s with
  | Some s' => [c s']
  | None => []
  end.

Definition expected_calls (bars : list (list V)) (bar_width : V)
    (bar_names : list N) (group_names : list G)
    (error_values : option (list (list V)))
    (title xlabel ylabel : option string) (m : nat) : list plt_call :=
  expected_bars bars bar_width bar_names m ++
  expected_errorbars bars bar_width error_values m ++
  expected_label xlabel plt_xlabel ++
  expected_label ylabel plt_ylabel ++
  expected_label title plt_title ++
  [plt_xticks (bar_positions bar_width m 1) group_names; plt_legend; plt_show].

End Plotting.

Arguments plt_call : clear implicits.

(** ** Notebook 01, "Plot average power ratios for each electrode"

    The body of the loop over the channels.  [event_power_ratios] and
    [event_sems] are dictionaries keyed by the event label; [avg_df] and
    [std_err_df] carry the default index [0 .. nrows-1], on which
    [df[key][l]] with an integer [l] looks the row up by label. *)

Definition ldict (A : Type) : Type := list (Z * A).

Fixpoint ldict_get {A : Type} (k : Z) (d : ldict A) : option A :=
  match d with
  | [] => None
  | (k', v) :: d' => if k =? k' then Some v else ldict_get k d'
  end.

Fixpoint ldict_set {A : Type} (k : Z) (v : A) (d : ldict A) : ldict A :=
  match d with
  | [] => [(k, v)]
  | (k', v') :: d' =>
      if k =? k' then (k', v) :: d' else (k', v') :: ldict_set k v d'
  end.

(** [d[k].append(x)] *)
Definition ldict_append {A : Type} (k : Z) (x : A) (d : ldict (list A))
  : result (ldict (list A)) :=
  match ldict_get k d with
  | Some l => Ok (ldict_set k (l ++ [x]) d)
  | None => Raise (KeyError (repr (PyInt k)))
  end.

Section PlotCell.

Context {V : Type} `{Float64 V}.

Variable plt : plt_call V Z interval -> option exn.

(** [df[key][l]]: the row whose index label is [l]. *)
Definition series_loc (df : DataFrame V Z) (key : string) (l : Z)
  : result (cell V Z) :=
  c <- dict_item key (cols df) ;;
  if (0 <=? l) && (l <? Z.of_nat (nrows df))
  then index c (Z.to_nat l)
  else Raise (KeyError (repr (PyInt l))).

Definition plot_state : Type :=
  (ldict (list (cell V Z)) * ldict (list (cell V Z)))%type.

Definition plot_values_interval (avg_df std_err_df : DataFrame V Z)
    (chan_of_interest : string) (event_type : Z) (st : plot_state)
    (interval : interval) : result plot_state :=
  let '(event_power_ratios, event_sems) := st in
  let key := feature_key chan_of_interest interval in
  a <- series_loc avg_df key event_type ;;
  event_power_ratios <- ldict_append event_type a event_power_ratios ;;
  s <- series_loc std_err_df key event_type ;;
  event_sems <- ldict_append event_type s event_sems ;;
  Ok (event_power_ratios, event_sems).

Definition plot_values_event (intervals : list interval)
    (avg_df std_err_df : DataFrame V Z) (chan_of_interest : string)
    (st : plot_state) (event_type : Z) : result plot_state :=
  let '(event_power_ratios, event_sems) := st in
  let '(event_power_ratios, event_sems) :=
    match ldict_get event_type event_power_ratios with
    | Some _ => (event_power_ratios, event_sems)
    | None => (ldict_set event_type [] event_power_ratios,
               ldict_set event_type [] event_sems)
    end in
  foldM (plot_values_interval avg_df std_err_df chan_of_interest event_type)
        intervals (event_power_ratios, event_sems).

(** [pd.DataFrame(d)] for a dictionary of lists: the lists have to be of
    one length. *)
Definition ldict_frame (d : ldict (list (cell V Z)))
  : result (ldict (list (cell V Z))) :=
  match d with
  | [] => Ok d
  | (_, c) :: _ =>
      if forallb (fun kc => Nat.eqb (length (snd kc)) (length c)) d
      then Ok d
      else Raise ValueError
  end.

(** [np.transpose(np.array(df))]: one row per column of the frame. *)
Definition np_transpose_array (d : ldict (list (cell V Z)))
  : result (list (list V)) :=
  mapM (fun kc => mapM as_float (snd kc)) d.

Definition ylim_top : pynum := PyFloat false 0 (Decimal.D5 Decimal.Nil).

(** One iteration of the loop over [eeg_chans]; [bar_width] is the float
    [0.15]. *)
Definition plot_channel (bar_width : V) (event_types : list (Z * string))
    (intervals : list interval) (avg_df std_err_df : DataFrame V Z)
    (chan : string) : result (list (plt_call V Z interval)) :=
  let chan_of_interest := chan in
  st <- foldM (plot_values_event intervals avg_df std_err_df chan_of_interest)
              (map fst event_types) ([], []) ;;
  let '(event_power_ratios, event_sems) := st in
  event_sems_df <- ldict_frame event_sems ;;
  event_power_ratios_df <- ldict_frame event_power_ratios ;;
  trace <- call plt (plt_title chan_of_interest) [] ;;
  trace <- call plt (plt_ylim (PyInt 0) ylim_top) trace ;;
  trace <- call plt (plt_ylabel "Power Ratio") trace ;;
  bars <- np_transpose_array event_power_ratios_df ;;
  error_values <- np_transpose_array event_sems_df ;;
  drawn <- plotMultipleBarGraphs plt bars bar_width [0; 1] intervals
             (Some error_values) None None None ;;
  Ok (trace ++ drawn).

(** The float read by [df[key][l]], NaN when the lookup raises or the cell
    is not a float. *)
Definition loc_float (df : DataFrame V Z) (key : string) (l : Z) : V :=
  match series_loc df key l with
  | Ok (CVal v) => v
  | _ => fnan
  end.

(** Both tables hold a float in the row labelled [l] for the key of [iv]. *)
Definition has_rows (avg_df std_err_df : DataFrame V Z) (chan : string)
    (l : Z) (iv : interval) : Prop :=
  exists a s,
    series_loc avg_df (feature_key chan iv) l = Ok (CVal a) /\
    series_loc std_err_df (feature_key chan iv) l = Ok (CVal s).

(** What the loop stores under the label [l]. *)
Definition label_entry (df : DataFrame V Z) (chan : string)
    (intervals : list interval) (l : Z) : Z * list (cell V Z) :=
  (l, map (fun iv => CVal (loc_float df (feature_key chan iv) l)) intervals).

(** The rows handed to [plotMultipleBarGraphs] for a channel: one per event
    type, holding for every interval the cell in the row labelled by the event
    label. *)
Definition rows_by_label (df : DataFrame V Z) (chan : string)
    (labels : list Z) (intervals : list interval) : list (list V) :=
  map (fun l => map (fun iv => loc_float df (feature_key chan iv) l) intervals)
      labels.

End PlotCell.

(** Two bar sequences over two groups, with their error values. *)
Definition demo_bars : list (list sym) := [[SLit 1; SLit 2]; [SLit 3; SLit 4]].
Definition demo_errors : list (list sym) := [[SLit 5; SLit 6]; [SLit 7; SLit 8]].
Definition demo_groups : list interval := [(PyInt 4, PyInt 7); (PyInt 7, PyInt 12)].

(** A plotting library that accepts every call. *)
Definition plt_accepts_all (c : plt_call sym Z interval) : option exn := None.

(** Statistics tables with two rows and one key, and event types whose
    labels are listed in the order 1, 0. *)
Definition demo_avg_df : DataFrame sym Z :=
  {| nrows := 2; cols := [("C3_(4, 7)", [CVal (SLit 10); CVal (SLit 20)])] |}.

Definition demo_sem_df : DataFrame sym Z :=
  {| nrows := 2; cols := [("C3_(4, 7)", [CVal (SLit 1); CVal (SLit 2)])] |}.

Definition swapped_event_types : list (Z * string) := [(1, "left"); (0, "right")].

Definition shifted_event_types : list (Z * string) := [(2, "right"); (1, "left")].
(* ================================================================== *)
(** * Facts about the embedding *)

(** ** The error monad and loops *)

Lemma foldM_app {S X : Type} (body : S -> X -> result S) (l1 l2 : list X) (s : S) :
  foldM body (l1 ++ l2) s = (s' <- foldM body l1 s ;; foldM body l2 s').
Proof.
  revert s; induction l1 as [|x l1 IH]; intros s; simpl; [reflexivity|].
  destruct (body s x) as [s'|e]; simpl; [apply IH | reflexivity].
Qed.

Lemma index_nth_error {X : Type} (l : list X) (i : nat) (x : X) :
  nth_error l i = Some x -> index l i = Ok x.
Proof. unfold index; intros ->; reflexivity. Qed.

Lemma enumerate_length {X : Type} (l : list X) :
  length (enumerate l) = length l.
Proof.
  unfold enumerate. rewrite length_combine, length_seq. apply Nat.min_id.
Qed.

Lemma in_combine_seq {X : Type} (l : list X) (k i : nat) (x : X) :
  In (i, x) (combine (seq k (length l)) l) ->
  (k <= i)%nat /\ nth_error l (i - k) = Some x.
Proof.
  revert k; induction l as [|y l IH]; intros k; simpl; [tauto|].
  intros [E|H].
  - inversion E; subst. rewrite Nat.sub_diag. split; [lia | reflexivity].
  - apply IH in H. destruct H as [Hk Hn]. split; [lia|].
    replace (i - k)%nat with (S (i - S k)) by lia. exact Hn.
Qed.

Lemma in_enumerate {X : Type} (l : list X) (i : nat) (x : X) :
  In (i, x) (enumerate l) -> nth_error l i = Some x.
Proof.
  intros H. apply in_combine_seq in H. rewrite Nat.sub_0_r in H. tauto.
Qed.

Lemma map_snd_enumerate {X : Type} (l : list X) :
  map snd (enumerate l) = l.
Proof.
  unfold enumerate. generalize 0%nat.
  induction l as [|x l IH]; intros k; simpl; [reflexivity|].
  f_equal. apply IH.
Qed.

Lemma nth_error_enumerate {X : Type} (l : list X) (i : nat) (x : X) :
  nth_error l i = Some x -> nth_error (enumerate l) i = Some (i, x).
Proof.
  unfold enumerate. 
  assert (G : forall k, nth_error l i = Some x ->
            nth_error (combine (seq k (length l)) l) i = Some ((k + i)%nat, x)).
  { revert i; induction l as [|y l IH]; intros [|i] k; simpl; try discriminate.
    - intros [= ->]. rewrite Nat.add_0_r. reflexivity.
    - intros H. rewrite (IH i (S k) H). do 2 f_equal. lia. }
  apply G.
Qed.

(** ** Dictionaries of lists *)

Section DictFacts.

Context {A : Type}.
Implicit Types (d : dict (list A)) (k : string) (x : A).

Lemma dict_set_push_some k x d l :
  dict_get k d = Some l -> dict_set k (l ++ [x]) d = push k x d.
Proof.
  induction d as [|[k' l'] d IH]; simpl; [discriminate|].
  destruct (String.eqb k k'); [intros [= ->]; reflexivity|].
  intros H. rewrite (IH H). reflexivity.
Qed.

Lemma dict_set_push_none k x d :
  dict_get k d = None ->
  dict_get k (dict_set k [] d) = Some [] /\
  dict_set k ([] ++ [x]) (dict_set k [] d) = push k x d.
Proof.
  induction d as [|[k' l'] d IH]; simpl.
  - rewrite String.eqb_refl. simpl. auto.
  - destruct (String.eqb k k') eqn:E; [discriminate|].
    intros H. simpl. rewrite E. destruct (IH H) as [H1 H2].
    split; [exact H1|]. simpl in H2. rewrite H2. reflexivity.
Qed.

(** The guarded append never raises and is [push]. *)
Lemma setdefault_append k x d :
  list_append_at k x (setdefault_list k d) = Ok (push k x d).
Proof.
  unfold list_append_at, setdefault_list, dict_mem, dict_item.
  destruct (dict_get k d) as [l|] eqn:E.
  - rewrite E. simpl. rewrite (dict_set_push_some k x d l E). reflexivity.
  - destruct (dict_set_push_none k x d E) as [H1 H2].
    rewrite H1. simpl. simpl in H2. rewrite H2. reflexivity.
Qed.

(** An append to a key that is known to be present. *)
Lemma append_present k x d :
  dict_mem k d = true -> list_append_at k x d = Ok (push k x d).
Proof.
  intros H. rewrite <- setdefault_append.
  unfold setdefault_list. rewrite H. reflexivity.
Qed.

Lemma dict_get_push k k' x d :
  dict_get k' (push k x d) =
  if String.eqb k k' then Some (col k' d ++ [x]) else dict_get k' d.
Proof.
  unfold col.
  induction d as [|[k0 l0] d IH]; simpl.
  - rewrite (String.eqb_sym k' k). destruct (String.eqb k k'); reflexivity.
  - destruct (String.eqb k k0) eqn:E0; simpl.
    + apply String.eqb_eq in E0; subst k0.
      rewrite (String.eqb_sym k' k).
      destruct (String.eqb k k'); reflexivity.
    + destruct (String.eqb k' k0) eqn:E1.
      * apply String.eqb_eq in E1; subst k0. rewrite E0. reflexivity.
      * exact IH.
Qed.

Lemma col_push k k' x d :
  col k' (push k x d) = if String.eqb k k' then col k' d ++ [x] else col k' d.
Proof.
  unfold col at 1. rewrite dict_get_push.
  destruct (String.eqb k k'); reflexivity.
Qed.

Lemma mem_push k k' x d :
  dict_mem k' (push k x d) = String.eqb k k' || dict_mem k' d.
Proof.
  unfold dict_mem. rewrite dict_get_push.
  destruct (String.eqb k k'); reflexivity.
Qed.

Lemma keys_push k x d :
  map fst (push k x d) =
  if dict_mem k d then map fst d else map fst d ++ [k].
Proof.
  unfold dict_mem.
  induction d as [|[k0 l0] d IH]; simpl; [reflexivity|].
  destruct (String.eqb k k0) eqn:E; simpl; [reflexivity|].
  rewrite IH. destruct (dict_get k d); reflexivity.
Qed.

Lemma dict_get_none_keys {B : Type} k (d : dict B) :
  dict_get k d = None <-> ~ In k (map fst d).
Proof.
  induction d as [|[k0 l0] d IH]; simpl; [tauto|].
  destruct (String.eqb k k0) eqn:E.
  - apply String.eqb_eq in E. subst. split; [discriminate | tauto].
  - apply String.eqb_neq in E. rewrite IH. split; [intros H [H1|H1]; auto | tauto].
Qed.

Lemma nodup_push k x d :
  NoDup (map fst d) -> NoDup (map fst (push k x d)).
Proof.
  intros H. rewrite keys_push. unfold dict_mem.
  destruct (dict_get k d) eqn:E; [exact H|].
  apply dict_get_none_keys in E.
  apply NoDup_app; [exact H | repeat constructor; simpl; tauto |].
  intros y Hy [<-|[]]. exact (E Hy).
Qed.

Lemma col_push_all k ps d :
  col k (push_all ps d) =
  col k d ++ map snd (filter (fun p => String.eqb (fst p) k) ps).
Proof.
  unfold push_all. revert d.
  induction ps as [|[k0 x0] ps IH]; intros d; simpl.
  - rewrite app_nil_r. reflexivity.
  - rewrite IH, col_push.
    destruct (String.eqb k0 k); simpl; [rewrite <- app_assoc|]; reflexivity.
Qed.

Lemma mem_push_all k ps d :
  dict_mem k (push_all ps d) =
  dict_mem k d || existsb (fun p => String.eqb (fst p) k) ps.
Proof.
  unfold push_all. revert d.
  induction ps as [|[k0 x0] ps IH]; intros d; simpl.
  - rewrite orb_false_r. reflexivity.
  - rewrite IH, mem_push.
    destruct (String.eqb k0 k), (dict_mem k d); reflexivity.
Qed.

Lemma nodup_push_all ps d :
  NoDup (map fst d) -> NoDup (map fst (push_all ps d)).
Proof.
  unfold push_all. revert d.
  induction ps as [|[k0 x0] ps IH]; intros d H; simpl; [exact H|].
  apply IH, nodup_push, H.
Qed.

Lemma push_all_app ps qs d :
  push_all (ps ++ qs) d = push_all qs (push_all ps d).
Proof. unfold push_all. apply fold_left_app. Qed.

(** With distinct keys, every stored entry is the one [dict_get] finds. *)
Lemma in_dict_get {B : Type} k (c : B) (d : dict B) :
  NoDup (map fst d) -> In (k, c) d -> dict_get k d = Some c.
Proof.
  induction d as [|[k0 c0] d IH]; simpl; [tauto|].
  intros Hnd [E|H].
  - inversion E; subst. rewrite String.eqb_refl. reflexivity.
  - inversion Hnd; subst.
    destruct (String.eqb k k0) eqn:E.
    + apply String.eqb_eq in E; subst k0. exfalso. apply H2.
      change k with (fst (k, c)). apply in_map, H.
    + apply IH; assumption.
Qed.

Lemma dict_get_in {B : Type} k (c : B) (d : dict B) :
  dict_get k d = Some c -> In (k, c) d.
Proof.
  induction d as [|[k0 c0] d IH]; simpl; [discriminate|].
  destruct (String.eqb k k0) eqn:E.
  - apply String.eqb_eq in E; subst. intros [= ->]. auto.
  - auto.
Qed.

(** A loop whose body is a sequence of guarded appends. *)
Lemma foldM_pushes {X : Type} (body : dict (list A) -> X -> result (dict (list A)))
    (pp : X -> list (string * A)) (items : list X) :
  (forall it d, In it items -> body d it = Ok (push_all (pp it) d)) ->
  forall d, foldM body items d = Ok (push_all (flat_map pp items) d).
Proof.
  induction items as [|it items IH]; intros H d; simpl; [reflexivity|].
  rewrite (H it d (or_introl eq_refl)). simpl.
  rewrite push_all_app. apply IH.
  intros y d' Hy. apply H. right; exact Hy.
Qed.

End DictFacts.

(** ** Lists of appends, column by column *)

Lemma flat_map_singleton {X Y : Type} (f : X -> Y) (l : list X) :
  flat_map (fun x => [f x]) l = map f l.
Proof. induction l; simpl; congruence. Qed.

Lemma filter_none {X : Type} (p : X -> bool) (l : list X) :
  (forall x, In x l -> p x = false) -> filter p l = [].
Proof.
  induction l as [|x l IH]; intros H; simpl; [reflexivity|].
  rewrite (H x (or_introl eq_refl)). apply IH. intros y Hy; apply H; right; exact Hy.
Qed.

Lemma pushes_col_rows {X A : Type} (pp : X -> list (string * A)) (k : string)
    (g : X -> A) (items : list X) :
  (forall it, In it items ->
     map snd (filter (fun p => String.eqb (fst p) k) (pp it)) = [g it]) ->
  map snd (filter (fun p => String.eqb (fst p) k) (flat_map pp items)) =
  map g items.
Proof.
  induction items as [|it items IH]; intros H; simpl; [reflexivity|].
  rewrite filter_app, map_app, (H it (or_introl eq_refl)). simpl. f_equal.
  apply IH. intros y Hy; apply H; right; exact Hy.
Qed.

Lemma pushes_col_none {X A : Type} (pp : X -> list (string * A)) (k : string)
    (items : list X) :
  (forall it p, In it items -> In p (pp it) -> fst p <> k) ->
  filter (fun p => String.eqb (fst p) k) (flat_map pp items) = [].
Proof.
  intros H. apply filter_none. intros p Hp.
  apply in_flat_map in Hp. destruct Hp as [it [Hit Hp]].
  apply String.eqb_neq. exact (H it p Hit Hp).
Qed.

(** The appends of a loop over [range(len(ks))] that writes [F c] under the
    [c]-th key: with distinct keys, key [ks[c]] receives exactly [F c]. *)
Lemma filter_key_absent {A : Type} (ks : list string) (F : nat -> A) (k : string) :
  ~ In k ks ->
  filter (fun p => String.eqb (fst p) k)
    (map (fun c => (nth c ks "", F c)) (seq 0 (length ks))) = [].
Proof.
  intros H. apply filter_none. intros p Hp.
  apply in_map_iff in Hp. destruct Hp as [c [<- Hc]]. simpl.
  apply in_seq in Hc. apply String.eqb_neq. intros E. apply H.
  rewrite <- E. apply nth_In. lia.
Qed.

Lemma filter_key_seq {A : Type} (ks : list string) (F : nat -> A) (k : string)
    (c : nat) :
  NoDup ks -> nth_error ks c = Some k ->
  map snd (filter (fun p => String.eqb (fst p) k)
             (map (fun c' => (nth c' ks "", F c')) (seq 0 (length ks)))) = [F c].
Proof.
  revert F c. induction ks as [|k0 ks IH]; intros F c Hnd Hc.
  - destruct c; discriminate.
  - inversion Hnd as [|? ? Hnot Hnd']; subst.
    cbn [length seq map]. rewrite <- seq_shift, map_map.
    cbn [nth filter fst].
    destruct c as [|c]; simpl in Hc.
    + injection Hc as ->. rewrite String.eqb_refl. cbn [map snd]. f_equal.
      rewrite (filter_key_absent ks (fun c => F (S c)) k Hnot). reflexivity.
    + assert (Hk : String.eqb k0 k = false).
      { apply String.eqb_neq. intros ->. apply Hnot.
        eapply nth_error_In; eassumption. }
      rewrite Hk. exact (IH (fun c => F (S c)) c Hnd' Hc).
Qed.

Lemma map_enumerate_nth {X Y B : Type} (h : X -> B) (xs : list X) (dflt : X)
    (labels : list Y) :
  length xs = length labels ->
  map (fun il => h (nth (fst il) xs dflt)) (enumerate labels) = map h xs.
Proof.
  intros Hlen. apply nth_error_ext. intros i.
  rewrite !nth_error_map.
  destruct (nth_error labels i) as [l|] eqn:El.
  - rewrite (nth_error_enumerate labels i l El). simpl.
    assert (Hi : (i < length xs)%nat).
    { rewrite Hlen. apply nth_error_Some. congruence. }
    rewrite (nth_error_nth' xs dflt Hi). reflexivity.
  - assert (Hi : (length labels <= i)%nat) by (apply nth_error_None; exact El).
    assert (E1 : nth_error (enumerate labels) i = None).
    { apply nth_error_None. rewrite enumerate_length. exact Hi. }
    assert (E2 : nth_error xs i = None).
    { apply nth_error_None. lia. }
    rewrite E1, E2. reflexivity.
Qed.

(** ** Data frames *)

Section FrameFacts.

Context {V L : Type}.
#[local] Abbreviation cell := (cell V L).
#[local] Abbreviation DataFrame := (DataFrame V L).

Lemma pd_DataFrame_ok (d : dict (list cell)) (n : nat) :
  NoDup (map fst d) ->
  (forall k, dict_mem k d = true -> length (col k d) = n) ->
  (d = [] -> n = 0%nat) ->
  pd_DataFrame d = Ok {| nrows := n; cols := d |}.
Proof.
  intros Hnd Hlen Hemp.
  destruct d as [|[k0 c0] d'] eqn:Ed.
  - rewrite (Hemp eq_refl). reflexivity.
  - rewrite <- Ed in *. unfold pd_DataFrame. rewrite Ed at 1.
    assert (Hall : forall k c, In (k, c) d -> length c = n).
    { intros k c Hin. pose proof (in_dict_get k c d Hnd Hin) as Hg.
      specialize (Hlen k). unfold dict_mem, col in Hlen. rewrite Hg in Hlen.
      apply Hlen. reflexivity. }
    assert (H0 : length c0 = n).
    { apply (Hall k0). rewrite Ed. left; reflexivity. }
    assert (Hf : forallb (fun kc => Nat.eqb (length (snd kc)) (length c0)) d = true).
    { apply forallb_forall. intros [k c] Hin. simpl.
      apply Nat.eqb_eq. rewrite (Hall k c Hin). congruence. }
    rewrite Hf, H0. reflexivity.
Qed.

Lemma df_at_col (df : DataFrame) (key : string) (i : nat) (x : cell) :
  nth_error (col key (cols df)) i = Some x -> df_at df key i = Ok x.
Proof.
  unfold df_at, dict_item, col.
  destruct (dict_get key (cols df)) as [c|]; simpl.
  - apply index_nth_error.
  - destruct i; discriminate.
Qed.

End FrameFacts.

(** ** The epoch extractor *)

Section ExtractorFacts.

Context {V L : Type}.
#[local] Abbreviation cellVL := (cell V L).

Lemma mapM_raw_getitem (p : raw_row V -> bool) (df : raw_df V) (chans : list string) :
  (forall ch, In ch chans -> In ch (raw_columns df)) ->
  mapM (raw_getitem (mask p df)) chans =
  Ok (map (fun ch => map (fun r => chan r ch) (filter p (raw_rows df))) chans).
Proof.
  induction chans as [|ch chans IH]; intros H; simpl; [reflexivity|].
  unfold raw_getitem at 1. simpl.
  assert (E : existsb (String.eqb ch) (raw_columns df) = true).
  { apply existsb_exists. exists ch. split; [apply H; left; reflexivity|].
    apply String.eqb_refl. }
  rewrite E. simpl. rewrite IH; [reflexivity|].
  intros c Hc; apply H; right; exact Hc.
Qed.

(** The main loop of [getEpochedDF], run from event number [k] on. *)
Lemma getEpochedDF_loop (all_chans : list string) (eeg_df : raw_df V) (d : Z)
    (evs : list L) :
  (forall ch, In ch all_chans -> In ch (raw_columns eeg_df)) ->
  forall (rs : list (raw_row V)) (k : nat) E T Lb,
  length rs = length evs ->
  (forall j r, nth_error rs j = Some r ->
               nth_error (start_rows eeg_df) (k + j) = Some r) ->
  foldM (getEpochedDF_step all_chans eeg_df
           (mask (fun r => EventStart r =? 1) eeg_df) d)
        (combine (seq k (length evs)) evs) (E, T, Lb) =
  Ok (E ++ map (fun r0 => map (window_samples eeg_df d r0) all_chans) rs,
      T ++ map (fun r0 => (time r0, time r0 + d)) rs,
      Lb ++ evs).
Proof.
  intros Hch. induction evs as [|ev evs IH]; intros rs k E T Lb Hlen Hrs.
  - destruct rs; [|discriminate]. simpl. rewrite !app_nil_r. reflexivity.
  - destruct rs as [|r rs]; [discriminate|].
    cbn [length seq combine foldM].
    unfold getEpochedDF_step at 1. unfold iloc, py_int. cbn [mask raw_rows].
    pose proof (Hrs 0%nat r eq_refl) as H0. rewrite Nat.add_0_r in H0.
    fold (start_rows eeg_df). rewrite (index_nth_error _ _ _ H0).
    cbn [bind]. rewrite (mapM_raw_getitem _ _ _ Hch). cbn [bind].
    rewrite (IH rs (S k)).
    + cbn [map]. rewrite <- !app_assoc. reflexivity.
    + simpl in Hlen. lia.
    + intros j r' Hj. replace (S k + j)%nat with (k + S j)%nat by lia.
      apply Hrs. exact Hj.
Qed.

Lemma getDF_row_pushes epochs times chans (d : dict (list cellVL)) (i : nat) (label : L) :
  (i < length times)%nat -> (i < length epochs)%nat ->
  length (nth i epochs []) = length chans ->
  getDF_row epochs times chans d (i, label) =
  Ok (push_all (getDF_pushes epochs times chans (i, label)) d).
Proof.
  intros Ht He Hc. unfold getDF_row, getDF_pushes. cbn [fst snd].
  unfold index at 1. rewrite (nth_error_nth' times (0, 0) Ht). cbn [bind].
  rewrite setdefault_append. cbn [bind].
  rewrite setdefault_append. cbn [bind].
  rewrite <- flat_map_singleton.
  change (push_all (?a :: ?b :: ?rest) d)
    with (push_all rest (push (fst b) (snd b) (push (fst a) (snd a) d))).
  cbn [fst snd].
  apply foldM_pushes. intros c d' Hin. apply in_seq in Hin.
  unfold getDF_chan. unfold index at 1.
  rewrite (nth_error_nth' chans "" (proj2 Hin)). cbn [bind].
  unfold index at 1. rewrite (nth_error_nth' epochs [] He). cbn [bind].
  unfold index at 1.
  rewrite (nth_error_nth' (nth i epochs []) []) by (rewrite Hc; apply Hin).
  cbn [bind]. rewrite setdefault_append. reflexivity.
Qed.

Lemma getDF_pushes_filter_chan (epochs : list (list (list V))) (times : list (Z * Z))
    (chans : list string) (il : nat * L) (c : nat) (ch : string) :
  NoDup chans -> ~ In "start_time" chans -> ~ In "event_type" chans ->
  nth_error chans c = Some ch ->
  map snd (filter (fun p => String.eqb (fst p) ch)
             (getDF_pushes epochs times chans il)) =
  [CArr (nth c (nth (fst il) epochs []) [])].
Proof.
  intros Hnd Hs He Hc. unfold getDF_pushes. cbn [filter fst].
  assert (Hin : In ch chans) by (eapply nth_error_In; eassumption).
  assert (E1 : String.eqb "start_time" ch = false).
  { apply String.eqb_neq. intros <-. exact (Hs Hin). }
  assert (E2 : String.eqb "event_type" ch = false).
  { apply String.eqb_neq. intros <-. exact (He Hin). }
  rewrite E1, E2.
  exact (filter_key_seq chans _ ch c Hnd Hc).
Qed.

Lemma getDF_pushes_filter_label (epochs : list (list (list V))) (times : list (Z * Z))
    (chans : list string) (il : nat * L) :
  ~ In "event_type" chans ->
  map snd (filter (fun p => String.eqb (fst p) "event_type")
             (getDF_pushes epochs times chans il)) = [CLabel (snd il)].
Proof.
  intros He. unfold getDF_pushes. cbn [filter fst].
  change (String.eqb "start_time" "event_type") with false.
  change (String.eqb "event_type" "event_type") with true.
  cbn [map snd]. rewrite (filter_key_absent chans _ "event_type" He). reflexivity.
Qed.

Lemma getDF_pushes_filter_time (epochs : list (list (list V))) (times : list (Z * Z))
    (chans : list string) (il : nat * L) :
  ~ In "start_time" chans ->
  map snd (filter (fun p => String.eqb (fst p) "start_time")
             (getDF_pushes epochs times chans il)) =
  [CNum (fst (nth (fst il) times (0, 0)))].
Proof.
  intros He. unfold getDF_pushes. cbn [filter fst].
  change (String.eqb "start_time" "start_time") with true.
  change (String.eqb "event_type" "start_time") with false.
  cbn [map snd]. rewrite (filter_key_absent chans _ "start_time" He). reflexivity.
Qed.

(** [getDF] on well-shaped arguments: one row per label, and each column
    holds, in order, what the loop recorded for each row. *)
Lemma getDF_spec (epochs : list (list (list V))) (labels : list L)
    (times : list (Z * Z)) (chans : list string) :
  length times = length labels ->
  length epochs = length labels ->
  Forall (fun e => length e = length chans) epochs ->
  NoDup chans -> ~ In "start_time" chans -> ~ In "event_type" chans ->
  exists df,
    getDF epochs labels times chans = Ok df /\
    nrows df = length labels /\
    col "event_type" (cols df) = map (fun l => CLabel l) labels /\
    col "start_time" (cols df) = map (fun t => CNum (fst t)) times /\
    (forall c ch, nth_error chans c = Some ch ->
       col ch (cols df) = map (fun e => CArr (nth c e [])) epochs).
Proof.
  intros Ht He Hep Hnd Hst Het.
  set (pp := getDF_pushes (L:=L) epochs times chans).
  set (D := push_all (flat_map pp (enumerate labels)) ([] : dict (list cellVL))).
  assert (Hfold : foldM (getDF_row epochs times chans) (enumerate labels) [] = Ok D).
  { apply foldM_pushes. intros [i label] d Hin.
    apply in_enumerate in Hin.
    assert (Hi : (i < length labels)%nat) by (apply nth_error_Some; congruence).
    apply getDF_row_pushes; try lia.
    rewrite Forall_forall in Hep. apply Hep. apply nth_In. lia. }
  assert (Clabel : col "event_type" D = map (fun l => CLabel l) labels).
  { unfold D. rewrite col_push_all. cbn [col dict_get app].
    rewrite (pushes_col_rows pp "event_type" (fun il => CLabel (snd il))).
    - rewrite <- (map_snd_enumerate labels) at 2. rewrite map_map. reflexivity.
    - intros il _. apply getDF_pushes_filter_label, Het. }
  assert (Ctime : col "start_time" D = map (fun t => CNum (fst t)) times).
  { unfold D. rewrite col_push_all. cbn [col dict_get app].
    rewrite (pushes_col_rows pp "start_time"
               (fun il => CNum (fst (nth (fst il) times (0, 0))))).
    - apply (map_enumerate_nth (fun t => CNum (V:=V) (L:=L) (fst t))). exact Ht.
    - intros il _. apply getDF_pushes_filter_time, Hst. }
  assert (Cchan : forall c ch, nth_error chans c = Some ch ->
            col ch D = map (fun e => CArr (nth c e [])) epochs).
  { intros c ch Hc. unfold D. rewrite col_push_all. cbn [col dict_get app].
    rewrite (pushes_col_rows pp ch
               (fun il => CArr (nth c (nth (fst il) epochs []) []))).
    - apply (map_enumerate_nth (fun e => CArr (V:=V) (L:=L) (nth c e []))). exact He.
    - intros il _. apply getDF_pushes_filter_chan; assumption. }
  exists {| nrows := length labels; cols := D |}.
  split; [|cbn [nrows cols]; auto].
  unfold getDF. rewrite Hfold. cbn [bind].
  apply pd_DataFrame_ok.
  - unfold D. apply nodup_push_all. constructor.
  - intros k Hk. unfold D in Hk. rewrite mem_push_all in Hk. cbn in Hk.
    apply existsb_exists in Hk. destruct Hk as [p [Hp Hkey]].
    apply String.eqb_eq in Hkey.
    apply in_flat_map in Hp. destruct Hp as [il [_ Hp]].
    unfold pp, getDF_pushes in Hp.
    destruct Hp as [<-|[<-|Hp]]; cbn [fst] in Hkey; subst k.
    + rewrite Ctime, length_map. exact Ht.
    + rewrite Clabel, length_map. reflexivity.
    + apply in_map_iff in Hp. destruct Hp as [c [<- Hc]]. cbn [fst].
      apply in_seq in Hc.
      rewrite (Cchan c (nth c chans "")), length_map; [exact He|].
      apply nth_error_nth'. lia.
  - intros HD. destruct labels as [|l labels]; [reflexivity|].
    exfalso. assert (E : length (col "event_type" D) = 0%nat) by (rewrite HD; reflexivity).
    rewrite Clabel in E. discriminate.
Qed.

(** The extractor on valid inputs, in full. *)
Lemma getEpochedDF_spec (all_chans : list string) (eeg_df : raw_df V)
    (event_df : events_df L) (d : Z) :
  valid_inputs all_chans eeg_df event_df ->
  exists df,
    getEpochedDF all_chans eeg_df event_df d = Ok df /\
    nrows df = length (EventType event_df) /\
    col "event_type" (cols df) = map (fun l => CLabel l) (EventType event_df) /\
    col "start_time" (cols df) =
      map (fun r0 => CNum (time r0))
          (firstn (length (EventType event_df)) (start_rows eeg_df)) /\
    (forall ch, In ch all_chans ->
       col ch (cols df) =
       map (fun r0 => CArr (window_samples eeg_df d r0 ch))
           (firstn (length (EventType event_df)) (start_rows eeg_df))).
Proof.
  intros [Hn Hpres Hnd Hst Het].
  set (evs := EventType event_df) in *.
  set (rs := firstn (length evs) (start_rows eeg_df)).
  assert (Hlen : length rs = length evs).
  { unfold rs. rewrite length_firstn. lia. }
  assert (Hloop := getEpochedDF_loop all_chans eeg_df d evs Hpres rs 0%nat [] [] [] Hlen).
  cbn [app] in Hloop.
  assert (Hrs : forall j r, nth_error rs j = Some r ->
                 nth_error (start_rows eeg_df) (0 + j) = Some r).
  { intros j r Hj. unfold rs in Hj. cbn [Nat.add].
    assert (Hjl : (j < length evs)%nat).
    { rewrite <- Hlen. apply nth_error_Some. unfold rs. congruence. }
    rewrite nth_error_firstn in Hj.
    destruct (Nat.ltb_spec j (length evs)); [exact Hj | lia]. }
  specialize (Hloop Hrs).
  destruct (getDF_spec
              (map (fun r0 => map (window_samples eeg_df d r0) all_chans) rs)
              evs (map (fun r0 => (time r0, time r0 + d)) rs) all_chans)
    as [df [Hdf [Hrows [Hlab [Htime Hchan]]]]]; try assumption.
  - rewrite length_map. exact Hlen.
  - rewrite length_map. exact Hlen.
  - apply Forall_forall. intros e He. apply in_map_iff in He.
    destruct He as [r0 [<- _]]. apply length_map.
  - exists df. split; [|split; [exact Hrows|split; [exact Hlab|split]]].
    + unfold getEpochedDF. fold evs. unfold enumerate. rewrite Hloop.
      cbn [bind]. exact Hdf.
    + rewrite Htime, map_map. reflexivity.
    + intros ch Hin. apply In_nth_error in Hin. destruct Hin as [c Hc].
      rewrite (Hchan c ch Hc), map_map. apply map_ext. intros r0.
      f_equal. rewrite (nth_error_nth _ _ [] (map_nth_error _ _ _ Hc)).
      reflexivity.
Qed.

(** The cell of channel [ch] in the row of event [i]. *)
Lemma getEpochedDF_cell (all_chans : list string) (eeg_df : raw_df V)
    (event_df : events_df L) (d : Z) (i : nat) (r0 : raw_row V) (ch : string) :
  valid_inputs all_chans eeg_df event_df ->
  nth_error (start_rows eeg_df) i = Some r0 ->
  (i < length (EventType event_df))%nat ->
  In ch all_chans ->
  exists df,
    getEpochedDF all_chans eeg_df event_df d = Ok df /\
    nrows df = length (EventType event_df) /\
    df_at df ch i = Ok (CArr (window_samples eeg_df d r0 ch)).
Proof.
  intros Hv Hi Hlt Hch.
  destruct (getEpochedDF_spec all_chans eeg_df event_df d Hv)
    as [df [Hdf [Hrows [_ [_ Hchan]]]]].
  exists df. split; [exact Hdf|split; [exact Hrows|]].
  apply df_at_col. rewrite (Hchan ch Hch), nth_error_map, nth_error_firstn.
  destruct (Nat.ltb_spec i (length (EventType event_df))); [|lia].
  rewrite Hi. reflexivity.
Qed.

End ExtractorFacts.

(** ** Counting the samples of a window in a uniformly sampled recording *)

Lemma count_range (N a b : nat) :
  length (filter (fun k => (a <? k)%nat && (k <=? b)%nat) (seq 0 N)) =
  (Nat.min (N - 1) b - a)%nat.
Proof.
  induction N as [|N IH]; [reflexivity|].
  rewrite seq_S, filter_app, length_app, IH. cbn [Nat.add filter].
  destruct (Nat.ltb_spec a N), (Nat.leb_spec N b); cbn [andb length]; lia.
Qed.

Lemma length_filter_map {X Y : Type} (f : X -> Y) (q : Y -> bool) (l : list X) :
  length (filter (fun x => q (f x)) l) = length (filter q (map f l)).
Proof.
  induction l as [|x l IH]; simpl; [reflexivity|].
  destruct (q (f x)); simpl; congruence.
Qed.

Section SamplingFacts.

Context {V : Type}.

Lemma uniform_time_in (eeg_df : raw_df V) (t0 period : Z) (r : raw_row V) :
  uniformly_sampled eeg_df t0 period -> In r (raw_rows eeg_df) ->
  exists j, (j < length (raw_rows eeg_df))%nat /\ time r = t0 + Z.of_nat j * period.
Proof.
  intros Hu Hin. apply (in_map time) in Hin. rewrite Hu in Hin.
  apply in_map_iff in Hin. destruct Hin as [j [Hj Hin]].
  apply in_seq in Hin. exists j. split; [lia | congruence].
Qed.

Lemma window_count (eeg_df : raw_df V) (t0 period : Z) (r0 : raw_row V)
    (j n : nat) :
  uniformly_sampled eeg_df t0 period -> 0 < period ->
  time r0 = t0 + Z.of_nat j * period ->
  length (window_rows eeg_df (Z.of_nat n * period) r0) =
  (Nat.min (length (raw_rows eeg_df) - 1) (j + n) - j)%nat.
Proof.
  intros Hu Hp Hj. unfold window_rows.
  rewrite <- (count_range (length (raw_rows eeg_df)) j (j + n)).
  unfold in_window.
  rewrite (length_filter_map time
             (fun t => (time r0 <? t) && (t <=? time r0 + Z.of_nat n * period))).
  rewrite Hu, <- length_filter_map. f_equal.
  apply filter_ext. intros k. rewrite Hj.
  destruct (Nat.ltb_spec j k), (Nat.leb_spec k (j + n));
    destruct (Z.ltb_spec (t0 + Z.of_nat j * period) (t0 + Z.of_nat k * period));
    destruct (Z.leb_spec (t0 + Z.of_nat k * period)
                (t0 + Z.of_nat j * period + Z.of_nat n * period));
    try reflexivity; exfalso; nia.
Qed.

End SamplingFacts.

(** ** Epoch lengths in a uniformly sampled recording *)

Section EpochLengthFacts.

Context {V L : Type}.

Lemma start_row_in (eeg_df : raw_df V) (i : nat) (r0 : raw_row V) :
  nth_error (start_rows eeg_df) i = Some r0 -> In r0 (raw_rows eeg_df).
Proof.
  intros H. apply nth_error_In in H. unfold start_rows in H.
  apply filter_In in H. tauto.
Qed.

(** Samples available to the window of a start row at position [j]. *)
Lemma window_samples_length (eeg_df : raw_df V) (t0 period : Z)
    (r0 : raw_row V) (ch : string) (j n : nat) :
  uniformly_sampled eeg_df t0 period -> 0 < period ->
  time r0 = t0 + Z.of_nat j * period ->
  length (window_samples eeg_df (Z.of_nat n * period) r0 ch) =
  (Nat.min (length (raw_rows eeg_df) - 1) (j + n) - j)%nat.
Proof.
  intros Hu Hp Hj. unfold window_samples. rewrite length_map.
  apply (window_count eeg_df t0 period r0 j n Hu Hp Hj).
Qed.

Lemma nominal_duration (d period eeg_fs : Z) (n : nat) :
  period * eeg_fs = 1000 -> 1000 * Z.of_nat n = d * eeg_fs ->
  d = Z.of_nat n * period.
Proof.
  intros Hp HL. assert (Hfs : eeg_fs <> 0) by (intros ->; lia).
  apply (Z.mul_cancel_r _ _ eeg_fs Hfs). nia.
Qed.

(** Window inside the recording: every channel has the nominal length. *)
Lemma epoch_length_in_range (all_chans : list string) (eeg_df : raw_df V)
    (event_df : events_df L) (d t0 period eeg_fs : Z) (n i : nat)
    (r0 : raw_row V) (ch : string) :
  valid_inputs all_chans eeg_df event_df ->
  uniformly_sampled eeg_df t0 period -> 0 < period ->
  period * eeg_fs = 1000 -> 1000 * Z.of_nat n = d * eeg_fs ->
  nth_error (start_rows eeg_df) i = Some r0 ->
  (i < length (EventType event_df))%nat ->
  time r0 + d <= t0 + (Z.of_nat (length (raw_rows eeg_df)) - 1) * period ->
  In ch all_chans ->
  exists df a,
    getEpochedDF all_chans eeg_df event_df d = Ok df /\
    nrows df = length (EventType event_df) /\
    df_at df ch i = Ok (CArr a) /\
    length a = n.
Proof.
  intros Hv Hu Hp Hfs HL Hi Hlt Hin Hch.
  destruct (getEpochedDF_cell all_chans eeg_df event_df d i r0 ch Hv Hi Hlt Hch)
    as [df [Hdf [Hrows Hcell]]].
  exists df, (window_samples eeg_df d r0 ch).
  split; [exact Hdf|split; [exact Hrows|split; [exact Hcell|]]].
  destruct (uniform_time_in eeg_df t0 period r0 Hu (start_row_in eeg_df i r0 Hi))
    as [j [Hj Ht]].
  rewrite (nominal_duration d period eeg_fs n Hfs HL) in *.
  rewrite (window_samples_length eeg_df t0 period r0 ch j n Hu Hp Ht).
  assert (Z.of_nat j + Z.of_nat n <= Z.of_nat (length (raw_rows eeg_df)) - 1) by nia.
  lia.
Qed.

(** Window running past the last sample: the slice is what is left of the
    recording after the start row, and that is less than the nominal length. *)
Lemma epoch_length_truncated (all_chans : list string) (eeg_df : raw_df V)
    (event_df : events_df L) (d t0 period eeg_fs : Z) (n i : nat)
    (r0 : raw_row V) (ch : string) :
  valid_inputs all_chans eeg_df event_df ->
  uniformly_sampled eeg_df t0 period -> 0 < period ->
  period * eeg_fs = 1000 -> 1000 * Z.of_nat n = d * eeg_fs ->
  nth_error (start_rows eeg_df) i = Some r0 ->
  (i < length (EventType event_df))%nat ->
  t0 + (Z.of_nat (length (raw_rows eeg_df)) - 1) * period < time r0 + d ->
  In ch all_chans ->
  exists df a,
    getEpochedDF all_chans eeg_df event_df d = Ok df /\
    nrows df = length (EventType event_df) /\
    df_at df ch i = Ok (CArr a) /\
    a = map (fun r => chan r ch)
            (filter (fun r => time r0 <? time r) (raw_rows eeg_df)) /\
    (length a < n)%nat.
Proof.
  intros Hv Hu Hp Hfs HL Hi Hlt Hout Hch.
  destruct (getEpochedDF_cell all_chans eeg_df event_df d i r0 ch Hv Hi Hlt Hch)
    as [df [Hdf [Hrows Hcell]]].
  exists df, (window_samples eeg_df d r0 ch).
  split; [exact Hdf|split; [exact Hrows|split; [exact Hcell|]]].
  destruct (uniform_time_in eeg_df t0 period r0 Hu (start_row_in eeg_df i r0 Hi))
    as [j [Hj Ht]].
  split.
  - unfold window_samples, window_rows. f_equal. apply filter_ext_in.
    intros r Hr. unfold in_window.
    destruct (uniform_time_in eeg_df t0 period r Hu Hr) as [k [Hk Htk]].
    assert (time r <= time r0 + d) by nia.
    destruct (Z.leb_spec (time r) (time r0 + d)); [|lia].
    apply andb_true_r.
  - rewrite (nominal_duration d period eeg_fs n Hfs HL) in *.
    rewrite (window_samples_length eeg_df t0 period r0 ch j n Hu Hp Ht).
    assert (Z.of_nat (length (raw_rows eeg_df)) - 1 < Z.of_nat j + Z.of_nat n) by nia.
    lia.
Qed.

End EpochLengthFacts.

(** ** Strings: the column keys do not collide *)

Lemma lstr_app (a b : string) : lstr (a ++ b) = lstr a ++ lstr b.
Proof. induction a as [|c a IH]; simpl; [reflexivity | unfold lstr in *; simpl; congruence]. Qed.

Lemma lstr_inj (a b : string) : lstr a = lstr b -> a = b.
Proof.
  intros E. rewrite <- (string_of_list_ascii_of_string a),
    <- (string_of_list_ascii_of_string b). unfold lstr in E. congruence.
Qed.

(** Splitting at a delimiter that the delimited side does not contain. *)
Lemma split_at_first (c : ascii) (s1 s2 t1 t2 : list ascii) :
  ~ In c s1 -> ~ In c s2 -> s1 ++ c :: t1 = s2 ++ c :: t2 ->
  s1 = s2 /\ t1 = t2.
Proof.
  revert s2; induction s1 as [|a s1 IH]; intros [|b s2] H1 H2 E; simpl in *.
  - injection E as ->. auto.
  - injection E as <- _. tauto.
  - injection E as -> _. tauto.
  - injection E as -> E. destruct (IH s2) as [-> ->]; tauto.
Qed.

Lemma split_at_last (c : ascii) (s1 s2 t1 t2 : list ascii) :
  ~ In c s1 -> ~ In c s2 -> t1 ++ c :: s1 = t2 ++ c :: s2 ->
  t1 = t2 /\ s1 = s2.
Proof.
  intros H1 H2 E. apply (f_equal (@rev ascii)) in E.
  rewrite !rev_app_distr in E. simpl in E. rewrite <- !app_assoc in E. simpl in E.
  apply split_at_first in E; try (rewrite <- in_rev; assumption).
  destruct E as [E1 E2].
  apply (f_equal (@rev ascii)) in E1, E2. rewrite !rev_involutive in E1, E2. auto.
Qed.

Lemma uint_digits (d : Decimal.uint) :
  Forall (fun c => is_digit c = true) (lstr (NilEmpty.string_of_uint d)).
Proof. induction d; simpl; constructor; auto. Qed.

Lemma nz_uint_digits (d : Decimal.uint) :
  Forall (fun c => is_digit c = true) (lstr (NilZero.string_of_uint d)).
Proof.
  destruct d; try apply (uint_digits (_ _)).
  simpl. constructor; auto.
Qed.

Lemma int_chars (z : Z) :
  Forall (fun c => is_digit c = true \/ c = "-"%char)
         (lstr (NilZero.string_of_int (Z.to_int z))).
Proof.
  assert (G : forall d, Forall (fun c => is_digit c = true \/ c = "-"%char)
                          (lstr (NilZero.string_of_uint d))).
  { intros d. eapply Forall_impl; [|apply nz_uint_digits]. simpl; auto. }
  destruct z; simpl; [repeat constructor; auto | apply G |].
  constructor; [right; reflexivity | apply G].
Qed.

Lemma repr_chars (x : pynum) :
  Forall (fun c => is_num_char c = true) (lstr (repr x)).
Proof.
  destruct x as [z|s w f]; simpl.
  - eapply Forall_impl; [|apply int_chars]. simpl.
    intros c [Hc| ->]; unfold is_num_char; [rewrite Hc|]; reflexivity.
  - rewrite !lstr_app.
    apply Forall_app; split; [|apply Forall_app; split].
    + destruct s; repeat constructor.
    + eapply Forall_impl; [|apply uint_digits]. simpl.
      intros c Hc; unfold is_num_char; rewrite Hc; reflexivity.
    + change (lstr (String "." (NilEmpty.string_of_uint f)))
        with ("."%char :: lstr (NilEmpty.string_of_uint f)).
      constructor; [reflexivity|].
      eapply Forall_impl; [|apply uint_digits]. simpl.
      intros c Hc; unfold is_num_char; rewrite Hc; reflexivity.
Qed.

Lemma repr_no_char (x : pynum) (c : ascii) :
  is_num_char c = false -> ~ In c (lstr (repr x)).
Proof.
  intros Hc Hin. pose proof (repr_chars x) as F.
  rewrite Forall_forall in F. rewrite (F c Hin) in Hc. discriminate.
Qed.

Lemma to_int_nonnil (z : Z) :
  Z.to_int z <> Decimal.Pos Decimal.Nil /\ Z.to_int z <> Decimal.Neg Decimal.Nil.
Proof.
  destruct z; simpl; split; try discriminate; intros E; injection E;
    apply DecimalPos.Unsigned.to_uint_nonnil.
Qed.

Lemma string_of_uint_inj (d d' : Decimal.uint) :
  NilEmpty.string_of_uint d = NilEmpty.string_of_uint d' -> d = d'.
Proof.
  intros E. pose proof (NilEmpty.usu d) as H1. rewrite E, NilEmpty.usu in H1.
  congruence.
Qed.

Lemma float_has_dot (s : bool) (w : N) (f : Decimal.uint) :
  In "."%char (lstr (repr (PyFloat s w f))).
Proof.
  simpl. rewrite !lstr_app, !in_app_iff. right. right.
  change (lstr (String "." (NilEmpty.string_of_uint f)))
    with ("."%char :: lstr (NilEmpty.string_of_uint f)).
  left; reflexivity.
Qed.

(** Distinct numbers print differently. *)
Lemma repr_inj (a b : pynum) : repr a = repr b -> a = b.
Proof.
  destruct a as [z|s w f], b as [z'|s' w' f']; simpl; intros E.
  - f_equal. apply DecimalZ.to_int_inj.
    destruct (to_int_nonnil z) as [A1 A2], (to_int_nonnil z') as [B1 B2].
    pose proof (NilZero.isi _ A1 A2) as H1. rewrite E, (NilZero.isi _ B1 B2) in H1.
    congruence.
  - exfalso. pose proof (int_chars z) as F. rewrite E, Forall_forall in F.
    destruct (F "."%char (float_has_dot s' w' f')) as [H|H]; discriminate.
  - exfalso. pose proof (int_chars z') as F. rewrite <- E, Forall_forall in F.
    destruct (F "."%char (float_has_dot s w f)) as [H|H]; discriminate.
  - apply (f_equal lstr) in E. rewrite !lstr_app in E.
    assert (D : forall d, ~ In "."%char (lstr (NilEmpty.string_of_uint d))).
    { intros d Hin. pose proof (uint_digits d) as F. rewrite Forall_forall in F.
      specialize (F _ Hin). discriminate. }
    assert (Hd : forall d rest, hd_error (lstr (NilEmpty.string_of_uint d) ++ lstr "." ++ rest)
                                <> Some "-"%char).
    { intros d rest. destruct d; simpl; discriminate. }
    destruct s, s'; simpl in E.
    + injection E as E. apply split_at_first in E; try apply D.
      destruct E as [E1 E2]. apply lstr_inj, string_of_uint_inj in E1, E2.
      apply DecimalN.Unsigned.to_uint_inj in E1. congruence.
    + exfalso. apply (Hd (N.to_uint w') (lstr (NilEmpty.string_of_uint f'))).
      simpl. rewrite <- E. reflexivity.
    + exfalso. apply (Hd (N.to_uint w) (lstr (NilEmpty.string_of_uint f))).
      simpl. rewrite E. reflexivity.
    + apply split_at_first in E; try apply D.
      destruct E as [E1 E2]. apply lstr_inj, string_of_uint_inj in E1, E2.
      apply DecimalN.Unsigned.to_uint_inj in E1. congruence.
Qed.

Lemma lstr_feature_key (ch : string) (iv : interval) :
  lstr (feature_key ch iv) =
  ((((lstr ch ++ ["_"%char]) ++ "("%char :: lstr (repr (fst iv))) ++ [","%char])
     ++ " "%char :: lstr (repr (snd iv))) ++ [")"%char].
Proof.
  unfold feature_key, str_interval. rewrite !lstr_app.
  change (lstr "_") with ["_"%char]. change (lstr "(") with ["("%char].
  change (lstr ", ") with [","%char; " "%char]. change (lstr ")") with [")"%char].
  rewrite <- !app_assoc. reflexivity.
Qed.

(** A key determines its channel and its interval. *)
Lemma feature_key_inj (ch ch' : string) (iv iv' : interval) :
  feature_key ch iv = feature_key ch' iv' -> ch = ch' /\ iv = iv'.
Proof.
  intros E. apply (f_equal lstr) in E. rewrite !lstr_feature_key in E.
  assert (N2 : forall x, ~ In " "%char (lstr (repr x)))
    by (intros; apply repr_no_char; reflexivity).
  assert (N3 : forall x, ~ In "("%char (lstr (repr x)))
    by (intros; apply repr_no_char; reflexivity).
  apply app_inj_tail in E. destruct E as [E _].
  apply split_at_last in E; try apply N2. destruct E as [E Eb].
  apply app_inj_tail in E. destruct E as [E _].
  apply split_at_last in E; try apply N3. destruct E as [E Ea].
  apply app_inj_tail in E. destruct E as [E _].
  apply lstr_inj in E, Ea, Eb. apply repr_inj in Ea, Eb.
  split; [exact E|]. destruct iv, iv'; simpl in *; congruence.
Qed.

Lemma feature_key_not_y (ch : string) (iv : interval) : feature_key ch iv <> "y".
Proof.
  intros E. apply (f_equal lstr) in E. rewrite lstr_feature_key in E.
  apply (f_equal (@length ascii)) in E. rewrite !length_app in E. simpl in E.
  lia.
Qed.

Lemma str_interval_inj (iv iv' : interval) :
  str_interval iv = str_interval iv' -> iv = iv'.
Proof.
  intros E. assert (E' : feature_key "" iv = feature_key "" iv').
  { unfold feature_key. rewrite E. reflexivity. }
  apply feature_key_inj in E'. tauto.
Qed.

Lemma append_inj_l (s a b : string) : (s ++ a)%string = (s ++ b)%string -> a = b.
Proof. induction s as [|c s IH]; simpl; [auto | intros [= E]; auto]. Qed.

Lemma append_inj_r (a b s : string) : (a ++ s)%string = (b ++ s)%string -> a = b.
Proof.
  intros E. apply (f_equal lstr) in E. rewrite !lstr_app in E.
  apply app_inv_tail in E. apply lstr_inj, E.
Qed.

(** ** Boundary lists and intervals *)

Lemma pynum_eq_dec (a b : pynum) : {a = b} + {a <> b}.
Proof.
  decide equality; try apply Z.eq_dec; try apply N.eq_dec;
    try apply Bool.bool_dec; try apply Decimal.uint_eq_dec.
Defined.

Lemma interval_eq_dec (a b : interval) : {a = b} + {a <> b}.
Proof. decide equality; apply pynum_eq_dec. Defined.

Lemma getIntervals_loop (binning rest : list pynum) (k : nat) (acc : list interval) :
  (forall j, nth_error binning (k + j) = nth_error rest j) ->
  foldM (getIntervals_step binning)
        (combine (seq k (length (removelast rest))) (removelast rest)) acc =
  Ok (acc ++ consecutive_pairs rest).
Proof.
  revert k acc. induction rest as [|a rest IH]; intros k acc Hn.
  - simpl. rewrite app_nil_r. reflexivity.
  - destruct rest as [|b rest].
    + simpl. rewrite app_nil_r. reflexivity.
    + change (removelast (a :: b :: rest)) with (a :: removelast (b :: rest)).
      cbn [length seq combine foldM consecutive_pairs].
      unfold getIntervals_step at 1.
      rewrite (index_nth_error binning (k + 1) b) by (rewrite Hn; reflexivity).
      cbn [bind]. rewrite (IH (S k)).
      * rewrite <- app_assoc. reflexivity.
      * intros j. replace (S k + j)%nat with (k + S j)%nat by lia.
        rewrite Hn. reflexivity.
Qed.

(** [getIntervals] never raises and returns the consecutive pairs. *)
Lemma getIntervals_ok (binning : list pynum) :
  getIntervals binning = Ok (consecutive_pairs binning).
Proof.
  unfold getIntervals, enumerate.
  rewrite (getIntervals_loop binning binning 0 []); [reflexivity|].
  intros j. reflexivity.
Qed.

Lemma consecutive_pairs_length (binning : list pynum) :
  length (consecutive_pairs binning) = (length binning - 1)%nat.
Proof.
  induction binning as [|a [|b rest] IH]; try reflexivity.
  change (consecutive_pairs (a :: b :: rest))
    with ((a, b) :: consecutive_pairs (b :: rest)).
  cbn [length] in *. lia.
Qed.

Lemma consecutive_pairs_nth (binning : list pynum) (i : nat) (a b : pynum) :
  nth_error binning i = Some a -> nth_error binning (S i) = Some b ->
  nth_error (consecutive_pairs binning) i = Some (a, b).
Proof.
  revert i. induction binning as [|x [|y rest] IH]; intros i Ha Hb.
  - destruct i; discriminate.
  - destruct i as [|[|i]]; discriminate.
  - change (consecutive_pairs (x :: y :: rest))
      with ((x, y) :: consecutive_pairs (y :: rest)).
    destruct i as [|i].
    + cbn [nth_error] in *. injection Ha as ->. injection Hb as ->. reflexivity.
    + cbn [nth_error] in *. apply IH; assumption.
Qed.

Lemma consecutive_pairs_in (binning : list pynum) (a b : pynum) :
  In (a, b) (consecutive_pairs binning) -> In a binning /\ In b binning.
Proof.
  induction binning as [|x [|y rest] IH]; try (simpl; tauto).
  change (consecutive_pairs (x :: y :: rest))
    with ((x, y) :: consecutive_pairs (y :: rest)).
  intros [E|Hin].
  - inversion E; subst. simpl; auto.
  - destruct (IH Hin). split; right; assumption.
Qed.

Lemma consecutive_pairs_nodup (binning : list pynum) :
  NoDup binning -> NoDup (consecutive_pairs binning).
Proof.
  induction binning as [|x [|y rest] IH]; intros Hnd.
  - constructor.
  - constructor.
  - change (consecutive_pairs (x :: y :: rest))
      with ((x, y) :: consecutive_pairs (y :: rest)).
    inversion Hnd; subst. constructor.
    + intros Hin.
      change (In (x, y) (consecutive_pairs (y :: rest))) in Hin.
      apply consecutive_pairs_in in Hin. tauto.
    + apply IH. assumption.
Qed.

Lemma strictly_increasing_nodup (binning : list pynum) :
  strictly_increasing binning -> NoDup binning.
Proof.
  unfold strictly_increasing. induction 1 as [|a l Hs IH Hall]; constructor.
  - intros Hin. rewrite Forall_forall in Hall.
    exact (Qlt_irrefl _ (Hall a Hin)).
  - exact IH.
Qed.

Lemma NoDup_map_inj {X Y : Type} (f : X -> Y) (l : list X) :
  (forall x y, In x l -> In y l -> f x = f y -> x = y) ->
  NoDup l -> NoDup (map f l).
Proof.
  induction l as [|a l IH]; intros Hinj Hnd; simpl; constructor.
  - inversion Hnd; subst. intros Hin. apply in_map_iff in Hin.
    destruct Hin as [b [Hb Hin]].
    assert (b = a) by (apply Hinj; simpl; auto). subst. contradiction.
  - inversion Hnd; subst. apply IH; [|assumption].
    intros; apply Hinj; simpl; auto.
Qed.

Lemma in_all_keys (eeg_chans : list string) (intervals : list interval) (k : string) :
  In k (all_keys eeg_chans intervals) <->
  exists ch iv, In ch eeg_chans /\ In iv intervals /\ k = feature_key ch iv.
Proof.
  unfold all_keys. rewrite in_flat_map. split.
  - intros [ch [Hch Hin]]. apply in_map_iff in Hin. destruct Hin as [iv [<- Hiv]].
    eauto.
  - intros [ch [iv [Hch [Hiv ->]]]]. exists ch. split; [assumption|].
    apply in_map. assumption.
Qed.

(** Distinct channels and distinct intervals give distinct column keys. *)
Lemma all_keys_nodup (eeg_chans : list string) (intervals : list interval) :
  NoDup eeg_chans -> NoDup intervals -> NoDup (all_keys eeg_chans intervals).
Proof.
  intros Hc Hi. induction Hc as [|ch chans Hnot Hc IH]; [constructor|].
  change (all_keys (ch :: chans) intervals)
    with (map (feature_key ch) intervals ++ all_keys chans intervals).
  apply NoDup_app.
  - apply NoDup_map_inj; [|exact Hi].
    intros x y _ _ E. apply feature_key_inj in E. tauto.
  - exact IH.
  - intros k Hk1 Hk2. apply in_map_iff in Hk1. destruct Hk1 as [iv [<- _]].
    apply in_all_keys in Hk2. destruct Hk2 as [ch' [iv' [Hch' [_ E]]]].
    apply feature_key_inj in E. destruct E as [-> _]. contradiction.
Qed.

Lemma all_keys_length (eeg_chans : list string) (intervals : list interval) :
  length (all_keys eeg_chans intervals) =
  (length eeg_chans * length intervals)%nat.
Proof.
  unfold all_keys. induction eeg_chans as [|ch chans IH]; [reflexivity|].
  cbn [flat_map length]. rewrite length_app, length_map, IH. lia.
Qed.

Lemma y_not_in_all_keys (eeg_chans : list string) (intervals : list interval) :
  ~ In "y" (all_keys eeg_chans intervals).
Proof.
  intros Hin. apply in_all_keys in Hin. destruct Hin as [ch [iv [_ [_ E]]]].
  symmetry in E. exact (feature_key_not_y ch iv E).
Qed.

(** ** More on loops of appends *)

Section PushFacts.

Context {A : Type}.

Lemma dict_mem_keys {B : Type} (k : string) (d : dict B) :
  dict_mem k d = true <-> In k (map fst d).
Proof.
  unfold dict_mem. pose proof (dict_get_none_keys k d) as Hn.
  destruct (dict_get k d) as [b|]; split; intros Hx; try reflexivity.
  - destruct (in_dec string_dec k (map fst d)) as [Hin|Hnin]; [exact Hin|].
    apply (proj2 Hn) in Hnin. discriminate.
  - discriminate.
  - exfalso. exact (proj1 Hn eq_refl Hx).
Qed.

(** A loop of guarded appends whose body relies on an invariant of the
    dictionary that appends preserve. *)
Lemma foldM_pushes_inv {X : Type} (P : dict (list A) -> Prop)
    (body : dict (list A) -> X -> result (dict (list A)))
    (pp : X -> list (string * A)) (items : list X) :
  (forall it d, In it items -> P d -> body d it = Ok (push_all (pp it) d)) ->
  (forall ps d, P d -> P (push_all ps d)) ->
  forall d, P d -> foldM body items d = Ok (push_all (flat_map pp items) d).
Proof.
  intros Hbody Hpres.
  induction items as [|it items IH]; intros d Hd; simpl; [reflexivity|].
  rewrite (Hbody it d (or_introl eq_refl) Hd). simpl.
  rewrite push_all_app. apply IH.
  - intros y d' Hy. apply Hbody. right; exact Hy.
  - apply Hpres, Hd.
Qed.

Lemma filter_key_unique (ps : list (string * A)) (k : string) (v : A) :
  NoDup (map fst ps) -> In (k, v) ps ->
  map snd (filter (fun p => String.eqb (fst p) k) ps) = [v].
Proof.
  induction ps as [|[k0 v0] ps IH]; intros Hnd Hin; [destruct Hin|].
  inversion Hnd as [|? ? Hnot Hnd']; subst. cbn [filter fst].
  destruct Hin as [E|Hin].
  - inversion E; subst. rewrite String.eqb_refl. cbn [map snd]. f_equal.
    rewrite filter_none; [reflexivity|].
    intros [k1 v1] H1. cbn [fst]. apply String.eqb_neq. intros ->.
    apply Hnot. change k with (fst (k, v1)). apply in_map, H1.
  - assert (Hk : String.eqb k0 k = false).
    { apply String.eqb_neq. intros ->. apply Hnot.
      change k with (fst (k, v)). apply in_map, Hin. }
    rewrite Hk. apply IH; assumption.
Qed.

Lemma keys_push_all_fresh (ps : list (string * A)) (d : dict (list A)) :
  NoDup (map fst ps) ->
  (forall k, In k (map fst ps) -> ~ In k (map fst d)) ->
  map fst (push_all ps d) = map fst d ++ map fst ps.
Proof.
  revert d. induction ps as [|[k v] ps IH]; intros d Hnd Hfresh.
  - simpl. rewrite app_nil_r. reflexivity.
  - inversion Hnd as [|? ? Hnot Hnd']; subst.
    change (push_all ((k, v) :: ps) d) with (push_all ps (push k v d)).
    assert (Hk : dict_mem k d = false).
    { destruct (dict_mem k d) eqn:E; [|reflexivity].
      apply dict_mem_keys in E. exfalso. apply (Hfresh k); simpl; auto. }
    rewrite IH; [|exact Hnd'|].
    + rewrite keys_push, Hk, <- app_assoc. reflexivity.
    + intros k' Hk' Hin. rewrite keys_push, Hk in Hin.
      apply in_app_or in Hin. destruct Hin as [Hin|[<-|[]]].
      * apply (Hfresh k'); simpl; auto.
      * exact (Hnot Hk').
Qed.

Lemma keys_push_all_present (ps : list (string * A)) (d : dict (list A)) :
  (forall k, In k (map fst ps) -> In k (map fst d)) ->
  map fst (push_all ps d) = map fst d.
Proof.
  revert d. induction ps as [|[k v] ps IH]; intros d Hin; [reflexivity|].
  change (push_all ((k, v) :: ps) d) with (push_all ps (push k v d)).
  assert (Hk : dict_mem k d = true).
  { apply dict_mem_keys. apply Hin. simpl; auto. }
  assert (Hkeys : map fst (push k v d) = map fst d).
  { rewrite keys_push, Hk. reflexivity. }
  rewrite IH; [exact Hkeys|].
  intros k' Hk'. rewrite Hkeys. apply Hin. simpl; auto.
Qed.

End PushFacts.

Lemma pd_DataFrame_inv {V L : Type} (d : dict (list (cell V L)))
    (df : DataFrame V L) :
  pd_DataFrame d = Ok df ->
  cols df = d /\ (forall k c, In (k, c) d -> length c = nrows df) /\
  (d = [] -> nrows df = 0%nat).
Proof.
  unfold pd_DataFrame. destruct d as [|[k0 c0] d'].
  - intros [= <-]. simpl. repeat split; auto. intros k c [].
  - destruct (forallb _ _) eqn:Hf; [|discriminate].
    intros [= <-]. cbn [cols nrows]. repeat split; [|discriminate].
    intros k c Hin. rewrite forallb_forall in Hf.
    specialize (Hf (k, c) Hin). apply Nat.eqb_eq in Hf. exact Hf.
Qed.

(** ** The power-bin table *)

Section PowerRatioFacts.

Context {V L : Type} `{Float64 V}.
Variable bin_power : list V -> list pynum -> Z -> result (list V * list V).

#[local] Abbreviation cellVL := (cell V L).
#[local] Abbreviation frameVL := (DataFrame V L).

Lemma power_ratios_chan_pushes (eeg_chans : list string) (binning : list pynum)
    (df : frameVL) (ch : string) (i : nat) (d : dict (list cellVL)) :
  valid_epochs bin_power eeg_chans binning df ->
  In ch eeg_chans -> (i < nrows df)%nat ->
  power_ratios_chan bin_power df binning (consecutive_pairs binning) i d ch =
  Ok (push_all
        (map (fun ji => (feature_key ch (snd ji),
                         CVal (ratio_at bin_power df binning ch i (fst ji))))
             (enumerate (consecutive_pairs binning))) d).
Proof.
  intros Hv Hch Hi.
  destruct (ve_signal _ _ _ _ Hv ch i Hch Hi) as [x [pp [Hx [Hbp Hlen]]]].
  unfold power_ratios_chan. rewrite Hx. cbn [bind as_array].
  unfold getPowerRatio. rewrite Hbp. cbn [bind].
  rewrite <- flat_map_singleton. apply foldM_pushes.
  intros [j iv] d' Hin. apply in_enumerate in Hin.
  assert (Hj : (j < length (snd pp))%nat).
  { rewrite Hlen, <- consecutive_pairs_length. apply nth_error_Some. congruence. }
  unfold power_ratios_bin. unfold index.
  rewrite (nth_error_nth' (snd pp) fnan Hj). cbn [bind fst snd].
  rewrite setdefault_append. unfold ratio_at, ratios_at. rewrite Hx, Hbp.
  reflexivity.
Qed.

Lemma power_ratios_row_pushes (eeg_chans : list string) (binning : list pynum)
    (df : frameVL) (i : nat) (d : dict (list cellVL)) :
  valid_epochs bin_power eeg_chans binning df ->
  (i < nrows df)%nat -> dict_mem "y" d = true ->
  power_ratios_row bin_power eeg_chans df binning (consecutive_pairs binning) d i =
  Ok (push_all (power_ratios_pushes bin_power eeg_chans binning
                  (consecutive_pairs binning) df i) d).
Proof.
  intros Hv Hi Hy.
  destruct (ve_label _ _ _ _ Hv i Hi) as [y Hlab].
  unfold power_ratios_row. rewrite Hlab. cbn [bind].
  rewrite (foldM_pushes _
             (fun ch => map (fun ji => (feature_key ch (snd ji),
                              CVal (ratio_at bin_power df binning ch i (fst ji))))
                            (enumerate (consecutive_pairs binning)))).
  2:{ intros ch d' Hch. apply (power_ratios_chan_pushes eeg_chans); assumption. }
  cbn [bind]. rewrite append_present.
  - unfold power_ratios_pushes. rewrite push_all_app.
    unfold cell_at. rewrite Hlab. reflexivity.
  - rewrite mem_push_all, Hy. reflexivity.
Qed.

Lemma power_ratios_dict_ok (eeg_chans : list string) (binning : list pynum)
    (df : frameVL) :
  valid_epochs bin_power eeg_chans binning df ->
  power_ratios_dict bin_power eeg_chans binning df =
  Ok (power_ratios_expected bin_power eeg_chans binning df).
Proof.
  intros Hv. unfold power_ratios_dict, power_ratios_expected.
  rewrite getIntervals_ok. cbn [bind].
  apply (foldM_pushes_inv (fun d => dict_mem "y" d = true)).
  - intros i d Hin Hd. apply in_seq in Hin.
    apply power_ratios_row_pushes; [assumption | lia | assumption].
  - intros ps d Hd. rewrite mem_push_all, Hd. reflexivity.
  - reflexivity.
Qed.

Lemma power_ratios_pushes_keys (eeg_chans : list string) (binning : list pynum)
    (intervals : list interval) (df : frameVL) (i : nat) :
  map fst (power_ratios_pushes bin_power eeg_chans binning intervals df i) =
  all_keys eeg_chans intervals ++ ["y"].
Proof.
  unfold power_ratios_pushes, all_keys. rewrite map_app. f_equal.
  induction eeg_chans as [|ch chans IH]; [reflexivity|].
  cbn [flat_map]. rewrite map_app, IH. f_equal.
  rewrite map_map. cbn [fst].
  rewrite <- (map_snd_enumerate intervals) at 2. rewrite map_map. reflexivity.
Qed.

Lemma power_ratios_pushes_nodup (eeg_chans : list string) (binning : list pynum)
    (intervals : list interval) (df : frameVL) (i : nat) :
  NoDup (all_keys eeg_chans intervals) ->
  NoDup (map fst (power_ratios_pushes bin_power eeg_chans binning intervals df i)).
Proof.
  intros Hnd. rewrite power_ratios_pushes_keys.
  apply NoDup_app; [exact Hnd | repeat constructor; simpl; tauto|].
  intros k Hk [<-|[]]. exact (y_not_in_all_keys _ _ Hk).
Qed.

Section Columns.

Variables (eeg_chans : list string) (binning : list pynum) (df : frameVL).
Hypothesis keys_distinct : NoDup (all_keys eeg_chans (consecutive_pairs binning)).

Let D : dict (list cellVL) :=
  power_ratios_expected bin_power eeg_chans binning df.

Lemma power_ratios_col_feature (ch : string) (j : nat) (iv : interval) :
  In ch eeg_chans -> nth_error (consecutive_pairs binning) j = Some iv ->
  col (feature_key ch iv) D =
  map (fun i => CVal (ratio_at bin_power df binning ch i j)) (seq 0 (nrows df)).
Proof.
  intros Hch Hj. unfold D, power_ratios_expected. rewrite col_push_all.
  assert (E : col (feature_key ch iv) [("y", ([] : list cellVL))] = []).
  { unfold col. cbn [dict_get].
    destruct (String.eqb (feature_key ch iv) "y") eqn:Ey; reflexivity. }
  rewrite E. cbn [app]. apply pushes_col_rows. intros i _.
  apply filter_key_unique.
  - apply power_ratios_pushes_nodup, keys_distinct.
  - unfold power_ratios_pushes. apply in_or_app. left.
    apply in_flat_map. exists ch. split; [exact Hch|].
    apply in_map_iff. exists (j, iv). split; [reflexivity|].
    eapply nth_error_In. apply nth_error_enumerate. exact Hj.
Qed.

Lemma power_ratios_col_y :
  col "y" D = map (fun i => cell_at df "event_type" i) (seq 0 (nrows df)).
Proof.
  unfold D, power_ratios_expected. rewrite col_push_all. cbn [col dict_get String.eqb app].
  change (col "y" [("y", ([] : list cellVL))]) with ([] : list cellVL).
  cbn [app]. apply pushes_col_rows. intros i _.
  apply filter_key_unique.
  - apply power_ratios_pushes_nodup, keys_distinct.
  - unfold power_ratios_pushes. apply in_or_app. right. left. reflexivity.
Qed.

Lemma power_ratios_keys :
  (0 < nrows df)%nat ->
  map fst D = "y" :: all_keys eeg_chans (consecutive_pairs binning).
Proof.
  intros Hn. unfold D, power_ratios_expected. destruct (nrows df) as [|n]; [lia|].
  cbn [seq flat_map]. rewrite push_all_app.
  set (row0 := power_ratios_pushes bin_power eeg_chans binning
                 (consecutive_pairs binning) df 0).
  assert (K0 : map fst (push_all row0 [("y", ([] : list cellVL))]) =
               "y" :: all_keys eeg_chans (consecutive_pairs binning)).
  { unfold row0, power_ratios_pushes. rewrite push_all_app.
    rewrite keys_push_all_present.
    - rewrite keys_push_all_fresh.
      + cbn [map fst app]. f_equal.
        pose proof (power_ratios_pushes_keys eeg_chans binning
                      (consecutive_pairs binning) df 0) as K.
        unfold power_ratios_pushes in K. rewrite map_app in K.
        apply app_inv_tail in K. exact K.
      + pose proof (power_ratios_pushes_nodup eeg_chans binning
                      (consecutive_pairs binning) df 0 keys_distinct) as K.
        unfold power_ratios_pushes in K. rewrite map_app in K.
        apply NoDup_app_remove_r in K. exact K.
      + intros k Hk [<-|[]].
        pose proof (power_ratios_pushes_keys eeg_chans binning
                      (consecutive_pairs binning) df 0) as K.
        unfold power_ratios_pushes in K. rewrite map_app in K.
        apply app_inv_tail in K. rewrite K in Hk.
        exact (y_not_in_all_keys _ _ Hk).
    - intros k [<-|[]]. apply dict_mem_keys. rewrite mem_push_all. reflexivity. }
  rewrite keys_push_all_present; [exact K0|].
  intros k Hk. rewrite K0.
  apply in_map_iff in Hk. destruct Hk as [[k' v] [<- Hin]].
  apply in_flat_map in Hin. destruct Hin as [i [_ Hin]].
  apply (in_map fst) in Hin. rewrite power_ratios_pushes_keys in Hin.
  cbn [fst] in *. apply in_app_or in Hin. destruct Hin as [Hin|[<-|[]]].
  - right; exact Hin.
  - left; reflexivity.
Qed.

Lemma power_ratios_D_nodup : NoDup (map fst D).
Proof. unfold D, power_ratios_expected. apply nodup_push_all. repeat constructor. simpl; tauto. Qed.

Lemma power_ratios_D_lengths (k : string) :
  dict_mem k D = true -> length (col k D) = nrows df.
Proof.
  intros Hk. unfold D, power_ratios_expected in Hk. rewrite mem_push_all in Hk.
  apply orb_true_iff in Hk. destruct Hk as [Hk|Hk].
  - unfold dict_mem in Hk. cbn [dict_get] in Hk.
    destruct (String.eqb k "y") eqn:E; [|discriminate].
    apply String.eqb_eq in E. subst k.
    rewrite power_ratios_col_y, length_map, length_seq. reflexivity.
  - apply existsb_exists in Hk. destruct Hk as [[k' v] [Hin Hkey]].
    apply String.eqb_eq in Hkey. cbn [fst] in Hkey. subst k'.
    apply in_flat_map in Hin. destruct Hin as [i [_ Hin]].
    unfold power_ratios_pushes in Hin. apply in_app_or in Hin.
    destruct Hin as [Hin|[E|[]]].
    + apply in_flat_map in Hin. destruct Hin as [ch [Hch Hin]].
      apply in_map_iff in Hin. destruct Hin as [[j iv] [E Hin]].
      inversion E; subst. apply in_enumerate in Hin.
      cbn [snd]. rewrite (power_ratios_col_feature ch j iv Hch Hin).
      rewrite length_map, length_seq. reflexivity.
    + inversion E; subst.
      rewrite power_ratios_col_y, length_map, length_seq. reflexivity.
Qed.

(** The power-bin cell on a valid epoch table. *)
Lemma power_ratios_df_ok :
  valid_epochs bin_power eeg_chans binning df ->
  power_ratios_df bin_power eeg_chans binning df =
  Ok {| nrows := nrows df; cols := D |}.
Proof.
  intros Hv. unfold power_ratios_df.
  rewrite (power_ratios_dict_ok eeg_chans binning df Hv). cbn [bind].
  fold D. apply pd_DataFrame_ok.
  - apply power_ratios_D_nodup.
  - apply power_ratios_D_lengths.
  - intros E. exfalso.
    assert (Hm : dict_mem "y" D = true).
    { unfold D, power_ratios_expected. rewrite mem_push_all. reflexivity. }
    rewrite E in Hm. discriminate.
Qed.

End Columns.

End PowerRatioFacts.

(** ** Tables built row by row from a fixed list of keys *)

Lemma flat_map_pairs {X Y Z : Type} (F : X -> Y -> Z) (xs : list X) (ys : list Y) :
  flat_map (fun x => map (F x) ys) xs =
  map (fun p => F (fst p) (snd p)) (pairs_of xs ys).
Proof.
  unfold pairs_of. induction xs as [|x xs IH]; [reflexivity|].
  cbn [flat_map]. rewrite map_app, IH, map_map. reflexivity.
Qed.

Lemma flat_map_pairs_keyed {X Y Z : Type} (k : X -> Y -> string)
    (G : X * Y -> Z) (xs : list X) (ys : list Y) :
  flat_map (fun x => map (fun y => (k x y, G (x, y))) ys) xs =
  map (fun p => (k (fst p) (snd p), G p)) (pairs_of xs ys).
Proof.
  unfold pairs_of. induction xs as [|x xs IH]; [reflexivity|].
  cbn [flat_map]. rewrite map_app, IH, map_map. reflexivity.
Qed.

Lemma all_keys_pairs (eeg_chans : list string) (intervals : list interval) :
  all_keys eeg_chans intervals =
  map (fun p => feature_key (fst p) (snd p)) (pairs_of eeg_chans intervals).
Proof. unfold all_keys. apply flat_map_pairs. Qed.

Lemma in_pairs_of {X Y : Type} (xs : list X) (ys : list Y) (x : X) (y : Y) :
  In x xs -> In y ys -> In (x, y) (pairs_of xs ys).
Proof.
  intros Hx Hy. unfold pairs_of. apply in_flat_map. exists x.
  split; [exact Hx | apply in_map, Hy].
Qed.

Section RowTables.

Context {A R X : Type}.
Variables (keyf : X -> string) (valf : R -> X -> A) (items : list X).
Hypothesis keys_distinct : NoDup (map keyf items).

#[local] Abbreviation row_table := (row_table keyf valf items).

Lemma row_table_col (rows : list R) (x : X) :
  In x items ->
  col (keyf x) (row_table rows) = map (fun r => valf r x) rows.
Proof.
  intros Hx. unfold row_table. rewrite col_push_all. cbn [col dict_get app].
  apply pushes_col_rows. intros r _. apply filter_key_unique.
  - rewrite map_map. cbn [fst]. exact keys_distinct.
  - apply in_map_iff. exists x. auto.
Qed.

Lemma row_table_mem (rows : list R) (k : string) :
  dict_mem k (row_table rows) = true ->
  rows <> [] /\ exists x, In x items /\ k = keyf x.
Proof.
  unfold row_table. rewrite mem_push_all. cbn [dict_mem dict_get orb].
  intros Hk. apply existsb_exists in Hk. destruct Hk as [[k' v] [Hin Hkey]].
  apply String.eqb_eq in Hkey. cbn [fst] in Hkey. subst k'.
  apply in_flat_map in Hin. destruct Hin as [r [Hr Hin]].
  apply in_map_iff in Hin. destruct Hin as [x [E Hx]]. inversion E; subst.
  split; [intros ->; destruct Hr | eauto].
Qed.

Lemma row_table_nodup (rows : list R) : NoDup (map fst (row_table rows)).
Proof. unfold row_table. apply nodup_push_all. constructor. Qed.

Lemma row_table_lengths (rows : list R) (k : string) (c : list A) :
  In (k, c) (row_table rows) -> length c = length rows.
Proof.
  intros Hin. pose proof (in_dict_get k c _ (row_table_nodup rows) Hin) as Hg.
  assert (Hm : dict_mem k (row_table rows) = true).
  { unfold dict_mem. rewrite Hg. reflexivity. }
  destruct (row_table_mem rows k Hm) as [_ [x [Hx ->]]].
  pose proof (row_table_col rows x Hx) as Hc. unfold col in Hc.
  rewrite Hg in Hc. subst c. apply length_map.
Qed.

Lemma row_table_empty (rows : list R) :
  row_table rows = [] -> rows = [] \/ items = [].
Proof.
  intros E. destruct rows as [|r rows]; [auto|].
  destruct (nth_error items 0) as [x|] eqn:E0.
  - exfalso.
    assert (Hc : col (keyf x) (row_table (r :: rows)) =
                 map (fun r => valf r x) (r :: rows)).
    { apply row_table_col. eapply nth_error_In; eassumption. }
    rewrite E in Hc. discriminate.
  - right. apply nth_error_None in E0. apply length_zero_iff_nil. lia.
Qed.

End RowTables.

Lemma row_table_frame {V L R X : Type} (keyf : X -> string)
    (valf : R -> X -> cell V L) (items : list X) (rows : list R) :
  NoDup (map keyf items) ->
  pd_DataFrame (row_table keyf valf items rows) =
  Ok {| nrows := match items with [] => 0%nat | _ => length rows end;
        cols := row_table keyf valf items rows |}.
Proof.
  intros Hnd. apply pd_DataFrame_ok.
  - apply row_table_nodup.
  - intros k Hk. destruct (row_table_mem keyf valf items rows k Hk)
      as [_ [x [Hx ->]]].
    rewrite (row_table_col keyf valf items Hnd rows x Hx), length_map.
    destruct items; [destruct Hx | reflexivity].
  - intros E. destruct (row_table_empty keyf valf items Hnd rows E) as [-> | ->];
      [destruct items|]; reflexivity.
Qed.

Lemma nth_error_seq0 (n i : nat) : (i < n)%nat -> nth_error (seq 0 n) i = Some i.
Proof.
  intros Hi. rewrite (nth_error_nth' _ 0%nat) by (rewrite length_seq; exact Hi).
  rewrite seq_nth by exact Hi. reflexivity.
Qed.

(** ** Band ratios, channel differences and the concatenated table *)

Section DerivedFacts.

Context {V L : Type} `{Float64 V}.

#[local] Abbreviation cellVL := (cell V L).
#[local] Abbreviation frameVL := (DataFrame V L).

Lemma float_at_val (df : frameVL) (key : string) (i : nat) (v : V) :
  df_at df key i = Ok (CVal v) -> float_at df key i = v.
Proof. intros E. unfold float_at, cell_at. rewrite E. reflexivity. Qed.

Lemma theta_beta_ratios_ok (eeg_chans : list string) (df : frameVL) :
  (forall ch i, In ch eeg_chans -> (i < nrows df)%nat ->
     has_float df (ch ++ "_(4, 7)")%string i /\
     has_float df (ch ++ "_(12, 30)")%string i) ->
  theta_beta_ratios eeg_chans df =
  Ok (row_table (fun ch => (ch ++ "_theta_beta")%string) (theta_beta_value df)
        eeg_chans (seq 0 (nrows df))).
Proof.
  intros Hf. unfold theta_beta_ratios, row_table.
  apply foldM_pushes. intros i d Hi. apply in_seq in Hi.
  rewrite <- flat_map_singleton. apply foldM_pushes. intros ch d' Hch.
  destruct (Hf ch i Hch) as [[t Ht] [b Hb]]; [lia|].
  unfold theta_beta_chan. rewrite Ht. cbn [bind]. rewrite Hb. cbn [bind as_float].
  rewrite setdefault_append. unfold theta_beta_value.
  rewrite (float_at_val _ _ _ _ Ht), (float_at_val _ _ _ _ Hb). reflexivity.
Qed.

Lemma C3_C4_differences_ok (intervals : list interval) (df : frameVL) :
  (forall iv i, In iv intervals -> (i < nrows df)%nat ->
     has_float df ("C3_" ++ str_interval iv)%string i /\
     has_float df ("C4_" ++ str_interval iv)%string i) ->
  C3_C4_differences intervals df =
  Ok (row_table (fun iv => ("C3_C4_diff_" ++ str_interval iv)%string)
        (C3_C4_value df) intervals (seq 0 (nrows df))).
Proof.
  intros Hf. unfold C3_C4_differences, row_table.
  apply foldM_pushes. intros i d Hi. apply in_seq in Hi.
  rewrite <- flat_map_singleton. apply foldM_pushes. intros iv d' Hiv.
  destruct (Hf iv i Hiv) as [[a Ha] [b Hb]]; [lia|].
  unfold C3_C4_interval. rewrite Ha. cbn [bind]. rewrite Hb. cbn [bind as_float].
  rewrite setdefault_append. unfold C3_C4_value.
  rewrite (float_at_val _ _ _ _ Ha), (float_at_val _ _ _ _ Hb). reflexivity.
Qed.

Lemma theta_beta_keys_nodup (eeg_chans : list string) :
  NoDup eeg_chans -> NoDup (map (fun ch => (ch ++ "_theta_beta")%string) eeg_chans).
Proof.
  apply NoDup_map_inj. intros x y _ _ E. exact (append_inj_r _ _ _ E).
Qed.

Lemma C3_C4_keys_nodup (intervals : list interval) :
  NoDup intervals ->
  NoDup (map (fun iv => ("C3_C4_diff_" ++ str_interval iv)%string) intervals).
Proof.
  apply NoDup_map_inj. intros x y _ _ E.
  apply append_inj_l in E. exact (str_interval_inj _ _ E).
Qed.

Lemma pad_column_full (n : nat) (c : list cellVL) :
  length c = n -> pad_column n c = c.
Proof.
  intros <-. unfold pad_column. rewrite Nat.sub_diag. apply app_nil_r.
Qed.

(** Frames whose columns all have the common row count are put side by
    side unchanged. *)
Lemma pd_concat_cols (dfs : list frameVL) :
  (forall df k c, In df dfs -> In (k, c) (cols df) ->
     length c = fold_right Nat.max 0%nat (map nrows dfs)) ->
  cols (pd_concat dfs) = flat_map cols dfs.
Proof.
  intros Hlen. unfold pd_concat. cbn [cols].
  rewrite !flat_map_concat_map. f_equal. apply map_ext_in. intros df Hdf.
  rewrite <- (map_id (cols df)) at 2. apply map_ext_in.
  intros [k c] Hin. cbn [fst snd]. f_equal.
  apply pad_column_full. exact (Hlen df k c Hdf Hin).
Qed.

End DerivedFacts.

(** ** The stages on the power-bin table *)

Lemma foldM_pushes_or_raise {A X : Type}
    (body : dict (list A) -> X -> result (dict (list A)))
    (pp : X -> list (string * A)) (items : list X) :
  (forall it d, In it items ->
     body d it = Ok (push_all (pp it) d) \/ exists e, body d it = Raise e) ->
  forall d, foldM body items d = Ok (push_all (flat_map pp items) d) \/
            exists e, foldM body items d = Raise e.
Proof.
  induction items as [|it items IH]; intros Hb d; cbn [foldM flat_map].
  - left; reflexivity.
  - destruct (Hb it d (or_introl eq_refl)) as [E|[e E]]; rewrite E; cbn [bind].
    + rewrite push_all_app. apply IH. intros y d' Hy. apply Hb. right; exact Hy.
    + right. exists e. reflexivity.
Qed.

Section PipelineFacts.

Context {V L : Type} `{Float64 V}.
Variable bin_power : list V -> list pynum -> Z -> result (list V * list V).

#[local] Abbreviation cellVL := (cell V L).
#[local] Abbreviation frameVL := (DataFrame V L).

(** Whenever the band-ratio cell returns, it returns the table of all
    quotients, whatever the denominators are. *)
Lemma theta_beta_ratios_inv (eeg_chans : list string) (df : frameVL)
    (tb : dict (list cellVL)) :
  theta_beta_ratios eeg_chans df = Ok tb ->
  tb = row_table (fun ch => (ch ++ "_theta_beta")%string) (theta_beta_value df)
         eeg_chans (seq 0 (nrows df)).
Proof.
  intros E.
  assert (G : theta_beta_ratios eeg_chans df =
              Ok (row_table (fun ch => (ch ++ "_theta_beta")%string)
                    (theta_beta_value df) eeg_chans (seq 0 (nrows df))) \/
              exists e, theta_beta_ratios eeg_chans df = Raise e).
  { unfold theta_beta_ratios, row_table.
    apply foldM_pushes_or_raise. intros i d _.
    rewrite <- flat_map_singleton. apply foldM_pushes_or_raise. intros ch d' _.
    unfold theta_beta_chan, theta_beta_value, float_at, cell_at.
    destruct (df_at df (ch ++ "_(4, 7)")%string i) as [c1|e1]; cbn [bind];
      [|right; eauto].
    destruct (df_at df (ch ++ "_(12, 30)")%string i) as [c2|e2]; cbn [bind];
      [|right; eauto].
    destruct (as_float c1) as [t|e1]; cbn [bind]; [|right; eauto].
    destruct (as_float c2) as [b|e2]; cbn [bind]; [|right; eauto].
    left. rewrite setdefault_append. reflexivity. }
  destruct G as [G|[e G]]; rewrite G in E; [injection E as <-; reflexivity|discriminate].
Qed.

Section OnValidEpochs.

Variables (eeg_chans : list string) (binning : list pynum) (df : frameVL).
Hypothesis epochs_valid : valid_epochs bin_power eeg_chans binning df.
Hypothesis chans_distinct : NoDup eeg_chans.
Hypothesis binning_ordered : strictly_increasing binning.

Lemma intervals_nodup : NoDup (consecutive_pairs binning).
Proof. apply consecutive_pairs_nodup, strictly_increasing_nodup, binning_ordered. Qed.

Lemma keys_nodup : NoDup (all_keys eeg_chans (consecutive_pairs binning)).
Proof. apply all_keys_nodup; [exact chans_distinct | exact intervals_nodup]. Qed.

Lemma power_ratios_df_frame :
  power_ratios_df bin_power eeg_chans binning df =
  Ok (power_ratios_frame bin_power eeg_chans binning df).
Proof. apply power_ratios_df_ok; [exact keys_nodup | exact epochs_valid]. Qed.

Lemma power_ratios_frame_cell (ch : string) (j : nat) (iv : interval) (i : nat) :
  In ch eeg_chans -> nth_error (consecutive_pairs binning) j = Some iv ->
  (i < nrows df)%nat ->
  df_at (power_ratios_frame bin_power eeg_chans binning df) (feature_key ch iv) i =
  Ok (CVal (ratio_at bin_power df binning ch i j)).
Proof.
  intros Hch Hj Hi. apply df_at_col. unfold power_ratios_frame. cbn [cols].
  rewrite (power_ratios_col_feature bin_power eeg_chans binning df keys_nodup
             ch j iv Hch Hj).
  rewrite nth_error_map, (nth_error_seq0 _ _ Hi). reflexivity.
Qed.

Lemma power_ratios_frame_has_float (ch : string) (iv : interval) (i : nat) :
  In ch eeg_chans -> In iv (consecutive_pairs binning) -> (i < nrows df)%nat ->
  has_float (power_ratios_frame bin_power eeg_chans binning df)
            (feature_key ch iv) i.
Proof.
  intros Hch Hiv Hi. apply In_nth_error in Hiv. destruct Hiv as [j Hj].
  eexists. apply (power_ratios_frame_cell ch j iv i Hch Hj Hi).
Qed.

Lemma power_ratios_frame_keys :
  (0 < nrows df)%nat ->
  map fst (cols (power_ratios_frame bin_power eeg_chans binning df)) =
  "y" :: all_keys eeg_chans (consecutive_pairs binning).
Proof. apply power_ratios_keys. exact keys_nodup. Qed.

Lemma power_ratios_frame_wf :
  wf_frame (power_ratios_frame bin_power eeg_chans binning df).
Proof.
  intros k c Hin. unfold power_ratios_frame in *. cbn [cols nrows] in *.
  pose proof (power_ratios_D_nodup bin_power eeg_chans binning df) as Hnd.
  pose proof (in_dict_get k c _ Hnd Hin) as Hg.
  pose proof (power_ratios_D_lengths bin_power eeg_chans binning df keys_nodup k) as Hl.
  unfold dict_mem, col in Hl. rewrite Hg in Hl. apply Hl. reflexivity.
Qed.

(** A key that no channel and interval produce is not a column. *)
Lemma power_ratios_frame_missing (ch : string) (iv : interval) (i : nat) :
  ~ In iv (consecutive_pairs binning) ->
  df_at (power_ratios_frame bin_power eeg_chans binning df) (feature_key ch iv) i =
  Raise (KeyError (feature_key ch iv)).
Proof.
  intros Hiv. unfold df_at, dict_item.
  assert (Hn : dict_get (feature_key ch iv)
                 (cols (power_ratios_frame bin_power eeg_chans binning df)) = None).
  { apply dict_get_none_keys. intros Hin.
    unfold power_ratios_frame, power_ratios_expected in Hin. cbn [cols] in Hin.
    apply dict_mem_keys in Hin. rewrite mem_push_all in Hin.
    apply orb_true_iff in Hin. destruct Hin as [Hin|Hin].
    - unfold dict_mem in Hin. cbn [dict_get] in Hin.
      destruct (String.eqb (feature_key ch iv) "y") eqn:E; [|discriminate].
      apply String.eqb_eq in E. exact (feature_key_not_y ch iv E).
    - apply existsb_exists in Hin. destruct Hin as [[k v] [Hin Hk]].
      apply String.eqb_eq in Hk. cbn [fst] in Hk. subst k.
      apply in_flat_map in Hin. destruct Hin as [r [_ Hin]].
      apply (in_map fst) in Hin. rewrite power_ratios_pushes_keys in Hin.
      cbn [fst] in Hin. apply in_app_or in Hin. destruct Hin as [Hin|[E|[]]].
      + apply in_all_keys in Hin. destruct Hin as [ch' [iv' [_ [Hiv' E]]]].
        apply feature_key_inj in E. destruct E as [_ ->]. exact (Hiv Hiv').
      + symmetry in E. exact (feature_key_not_y ch iv E). }
  rewrite Hn. reflexivity.
Qed.

End OnValidEpochs.

End PipelineFacts.

(** ** Per-class statistics *)

Lemma same_keys_push_all {A : Type} (ps qs : list (string * A))
    (s a : dict (list A)) :
  map fst ps = map fst qs -> same_keys s a ->
  same_keys (push_all ps s) (push_all qs a).
Proof.
  intros Hk Hs k. rewrite !mem_push_all, (Hs k). f_equal.
  assert (G : forall l : list (string * A),
            existsb (fun p => String.eqb (fst p) k) l =
            existsb (fun x => String.eqb x k) (map fst l)).
  { induction l as [|p l IH]; simpl; congruence. }
  rewrite !G, Hk. reflexivity.
Qed.

(** A loop that appends to two dictionaries in step. *)
Lemma foldM_pushes2 {A X : Type}
    (body : dict (list A) * dict (list A) -> X ->
            result (dict (list A) * dict (list A)))
    (pp qq : X -> list (string * A)) (items : list X) :
  (forall it s a, In it items -> same_keys s a ->
     body (s, a) it = Ok (push_all (pp it) s, push_all (qq it) a)) ->
  (forall it, map fst (pp it) = map fst (qq it)) ->
  forall s a, same_keys s a ->
    foldM body items (s, a) =
    Ok (push_all (flat_map pp items) s, push_all (flat_map qq items) a).
Proof.
  intros Hbody Hkeys.
  induction items as [|it items IH]; intros s a Hs; cbn [foldM flat_map];
    [reflexivity|].
  rewrite (Hbody it s a (or_introl eq_refl) Hs). cbn [bind].
  rewrite !push_all_app. apply IH.
  - intros y s' a' Hy. apply Hbody. right; exact Hy.
  - apply same_keys_push_all; [apply Hkeys | exact Hs].
Qed.

Section StatsFacts.

Context {V L : Type} `{Float64 V}.
Variable L_eqb : L -> L -> bool.

#[local] Abbreviation cellVL := (cell V L).
#[local] Abbreviation frameVL := (DataFrame V L).

Lemma fold_left_total_from (xs : list V) (acc : V) :
  fold_left fadd xs acc = total_from acc xs.
Proof.
  revert acc. induction xs as [|x xs IH]; intros acc; [reflexivity|].
  cbn [fold_left total_from]. apply IH.
Qed.

Lemma np_sum_total (xs : list V) : np_sum xs = total xs.
Proof. apply fold_left_total_from. Qed.

(** Without a missing value nothing is skipped. *)
Lemma dropna_all (xs : list V) :
  Forall (fun x => fis_nan x = false) xs -> dropna xs = xs.
Proof.
  unfold dropna. induction 1 as [|x xs Hx _ IH]; [reflexivity|].
  cbn [filter]. rewrite Hx. cbn [negb]. rewrite IH. reflexivity.
Qed.

(** What [np.std] returns on a Series with at least one value that is not
    missing is the population standard deviation of those values. *)
Lemma np_std_present (xs : list V) :
  dropna xs <> [] -> np_std xs = population_std (dropna xs).
Proof.
  intros Hne. unfold np_std, Series_std, Series_var.
  destruct (dropna xs) as [|v vs] eqn:E; [congruence|].
  cbn [length Nat.leb].
  unfold population_std, squared_deviations, arithmetic_mean, flen, sq_dev.
  rewrite !np_sum_total. change (Z.of_nat 0) with 0. rewrite Z.sub_0_r.
  reflexivity.
Qed.

Lemma np_std_missing (xs : list V) :
  dropna xs = [] -> np_std xs = fsqrt fnan.
Proof.
  intros E. unfold np_std, Series_std, Series_var. rewrite E. reflexivity.
Qed.

Lemma np_mean_present (xs : list V) :
  dropna xs <> [] -> np_mean xs = arithmetic_mean (dropna xs).
Proof.
  intros Hne. unfold np_mean, Series_mean.
  destruct (dropna xs) as [|v vs] eqn:E; [congruence|].
  unfold arithmetic_mean, flen. rewrite np_sum_total. reflexivity.
Qed.

Lemma np_mean_missing (xs : list V) :
  dropna xs = [] -> np_mean xs = fnan.
Proof. intros E. unfold np_mean, Series_mean. rewrite E. reflexivity. Qed.

Lemma mapM_as_float_ok (cells : list cellVL) :
  Forall (fun c => exists v, c = CVal v) cells ->
  mapM as_float cells = Ok (map float_of_cell cells).
Proof.
  induction 1 as [|c cells [v ->] _ IH]; [reflexivity|].
  cbn [mapM as_float bind]. rewrite IH. reflexivity.
Qed.

Lemma masked_floats (m : list bool) (vs : list V) :
  Forall (fun c : cellVL => exists v, c = CVal v)
         (map snd (filter fst (combine m (map (fun v => CVal v) vs)))).
Proof.
  apply Forall_forall. intros c Hc. apply in_map_iff in Hc.
  destruct Hc as [[b c'] [<- Hin]]. apply filter_In in Hin.
  destruct Hin as [Hin _]. apply in_combine_r in Hin.
  apply in_map_iff in Hin. destruct Hin as [v [<- _]]. cbn [snd]. eauto.
Qed.

Lemma stats_interval_ok (eeg_chans : list string) (intervals : list interval)
    (df : frameVL) (l : L) (ch : string) (iv : interval)
    (s a : dict (list cellVL)) :
  stats_ready eeg_chans intervals df ->
  In ch eeg_chans -> In iv intervals -> same_keys s a ->
  stats_interval L_eqb df l ch (s, a) iv =
  Ok (push (feature_key ch iv) (sem_value L_eqb df l (ch, iv)) s,
      push (feature_key ch iv) (avg_value L_eqb df l (ch, iv)) a).
Proof.
  intros [[ycol Hy] Hcols] Hch Hiv Hs.
  destruct (Hcols ch iv Hch Hiv) as [vs Hvs].
  unfold stats_interval.
  assert (E : (if dict_mem (feature_key ch iv) s
               then (s, a)
               else (dict_set (feature_key ch iv) [] s,
                     dict_set (feature_key ch iv) [] a)) =
              (setdefault_list (feature_key ch iv) s,
               setdefault_list (feature_key ch iv) a)).
  { unfold setdefault_list. rewrite <- (Hs (feature_key ch iv)).
    destruct (dict_mem (feature_key ch iv) s); reflexivity. }
  rewrite E. clear E.
  unfold label_mask, masked_column, dict_item. rewrite Hy. cbn [bind].
  rewrite Hvs. cbn [bind].
  rewrite (mapM_as_float_ok _ (masked_floats _ vs)). cbn [bind].
  rewrite !setdefault_append. cbn [bind].
  unfold sem_value, avg_value, this_data_of, col. cbn [fst snd].
  rewrite Hy, Hvs. reflexivity.
Qed.

Lemma stats_dicts_ok (event_types : list (L * string)) (eeg_chans : list string)
    (intervals : list interval) (df : frameVL) :
  stats_ready eeg_chans intervals df ->
  stats_dicts L_eqb event_types eeg_chans intervals df =
  Ok (row_table (fun p => feature_key (fst p) (snd p)) (sem_value L_eqb df)
        (pairs_of eeg_chans intervals) (map fst event_types),
      row_table (fun p => feature_key (fst p) (snd p)) (avg_value L_eqb df)
        (pairs_of eeg_chans intervals) (map fst event_types)).
Proof.
  intros Hr. unfold stats_dicts, row_table.
  apply (foldM_pushes2 _
           (fun l => map (fun p => (feature_key (fst p) (snd p), sem_value L_eqb df l p))
                         (pairs_of eeg_chans intervals))
           (fun l => map (fun p => (feature_key (fst p) (snd p), avg_value L_eqb df l p))
                         (pairs_of eeg_chans intervals))).
  - intros l s a _ Hs.
    rewrite <- !(flat_map_pairs_keyed feature_key).
    apply (foldM_pushes2 _
             (fun ch => map (fun iv => (feature_key ch iv, sem_value L_eqb df l (ch, iv)))
                            intervals)
             (fun ch => map (fun iv => (feature_key ch iv, avg_value L_eqb df l (ch, iv)))
                            intervals)).
    + intros ch s' a' Hch Hs'. rewrite <- !flat_map_singleton.
      apply (foldM_pushes2 _
               (fun iv => [(feature_key ch iv, sem_value L_eqb df l (ch, iv))])
               (fun iv => [(feature_key ch iv, avg_value L_eqb df l (ch, iv))])).
      * intros iv s'' a'' Hiv Hs''.
        apply (stats_interval_ok eeg_chans intervals); assumption.
      * reflexivity.
      * exact Hs'.
    + intros ch. rewrite !map_map. reflexivity.
    + exact Hs.
  - intros l. rewrite !map_map. reflexivity.
  - intros k. reflexivity.
Qed.

Lemma this_data_class (df : frameVL) (l : L) (key : string) (ys : list L)
    (vs : list V) :
  dict_get "y" (cols df) = Some (map (fun y => CLabel y) ys) ->
  dict_get key (cols df) = Some (map (fun v => CVal v) vs) ->
  this_data_of L_eqb df l key = class_values L_eqb l ys vs.
Proof.
  intros Hy Hk. unfold this_data_of, class_values, col. rewrite Hy, Hk.
  clear Hy Hk. revert vs.
  induction ys as [|y ys IH]; intros [|v vs]; try reflexivity.
  cbn [map combine filter fst snd].
  destruct (L_eqb y l); cbn [map snd]; rewrite IH; reflexivity.
Qed.

Lemma class_values_length (l : L) (ys : list L) (vs : list V) :
  length vs = length ys ->
  length (class_values L_eqb l ys vs) =
  length (filter (fun y => L_eqb y l) ys).
Proof.
  unfold class_values. rewrite length_map. revert vs.
  induction ys as [|y ys IH]; intros [|v vs] Hlen; try discriminate;
    [reflexivity|].
  cbn [combine filter fst]. injection Hlen as Hlen.
  destruct (L_eqb y l); cbn [length]; rewrite (IH vs Hlen); reflexivity.
Qed.

End StatsFacts.

(* ================================================================== *)
(** * Further facts *)

Lemma combine_seq_app {X : Type} (l1 l2 : list X) (k : nat) :
  combine (seq k (length (l1 ++ l2))) (l1 ++ l2) =
  combine (seq k (length l1)) l1 ++
  combine (seq (k + length l1) (length l2)) l2.
Proof.
  revert k. induction l1 as [|x l1 IH]; intros k; cbn [length app].
  - rewrite Nat.add_0_r. reflexivity.
  - cbn [seq combine app]. f_equal. rewrite IH. do 2 f_equal. f_equal. lia.
Qed.

Lemma mapM_app_fail {X Y : Type} (f : X -> result Y) (pre post : list X)
    (x : X) (ys : list Y) (e : exn) :
  mapM f pre = Ok ys -> f x = Raise e ->
  mapM f (pre ++ x :: post) = Raise e.
Proof.
  revert ys. induction pre as [|p pre IH]; intros ys Hpre Hx; cbn [app mapM].
  - rewrite Hx. reflexivity.
  - cbn [mapM] in Hpre. destruct (f p) as [y|e']; cbn [bind] in *; [|discriminate].
    destruct (mapM f pre) as [ys'|e'] eqn:E; cbn [bind] in *; [|discriminate].
    rewrite (IH ys' eq_refl Hx). reflexivity.
Qed.

Section ExtractorMore.

Context {V L : Type}.

(** The rows of a time window in a uniformly sampled recording, by position.
    [k0] is the position of the first row of [rows] in the recording. *)
Lemma filter_window_positions (t0 period : Z) (a b : nat) (rows : list (raw_row V))
    (k0 : nat) :
  0 < period ->
  map time rows =
    map (fun k => t0 + Z.of_nat k * period) (seq k0 (length rows)) ->
  filter (in_window (t0 + Z.of_nat a * period) (t0 + Z.of_nat b * period)) rows =
  firstn (S b - Nat.max (S a) k0) (skipn (S a - k0) rows).
Proof.
  intros Hp. revert k0. induction rows as [|r rows IH]; intros k0 Ht.
  - rewrite skipn_nil, firstn_nil. reflexivity.
  - cbn [length seq map] in Ht. injection Ht as Hr Ht.
    cbn [filter]. rewrite (IH (S k0) Ht). unfold in_window. rewrite Hr.
    destruct (Z.ltb_spec (t0 + Z.of_nat a * period) (t0 + Z.of_nat k0 * period));
      destruct (Z.leb_spec (t0 + Z.of_nat k0 * period) (t0 + Z.of_nat b * period));
      cbn [andb].
    + assert (a < k0 <= b)%nat by nia.
      replace (S a - k0)%nat with 0%nat by lia.
      replace (S a - S k0)%nat with 0%nat by lia.
      replace (S b - Nat.max (S a) k0)%nat with (S (b - k0)) by lia.
      replace (S b - Nat.max (S a) (S k0))%nat with (b - k0)%nat by lia.
      reflexivity.
    + assert (b < k0)%nat by nia.
      replace (S b - Nat.max (S a) k0)%nat with 0%nat by lia.
      replace (S b - Nat.max (S a) (S k0))%nat with 0%nat by lia.
      reflexivity.
    + assert (k0 <= a)%nat by nia.
      replace (S a - k0)%nat with (S (a - k0)) by lia.
      replace (S a - S k0)%nat with (a - k0)%nat by lia.
      replace (Nat.max (S a) (S k0)) with (Nat.max (S a) k0) by lia.
      reflexivity.
    + assert (k0 <= a)%nat by nia.
      replace (S a - k0)%nat with (S (a - k0)) by lia.
      replace (S a - S k0)%nat with (a - k0)%nat by lia.
      replace (Nat.max (S a) (S k0)) with (Nat.max (S a) k0) by lia.
      reflexivity.
Qed.

Lemma window_rows_positions (eeg_df : raw_df V) (t0 period : Z)
    (r0 : raw_row V) (j n : nat) :
  uniformly_sampled eeg_df t0 period -> 0 < period ->
  time r0 = t0 + Z.of_nat j * period ->
  window_rows eeg_df (Z.of_nat n * period) r0 =
  firstn n (skipn (S j) (raw_rows eeg_df)).
Proof.
  intros Hu Hp Hj. unfold window_rows. rewrite Hj.
  replace (t0 + Z.of_nat j * period + Z.of_nat n * period)
    with (t0 + Z.of_nat (j + n) * period) by lia.
  rewrite (filter_window_positions t0 period j (j + n) _ 0 Hp Hu).
  rewrite Nat.sub_0_r. f_equal. lia.
Qed.

(** In a uniformly sampled recording a row is found at the position its
    timestamp gives. *)
Lemma uniform_row_position (eeg_df : raw_df V) (t0 period : Z)
    (r0 : raw_row V) (j : nat) :
  uniformly_sampled eeg_df t0 period -> 0 < period ->
  In r0 (raw_rows eeg_df) -> time r0 = t0 + Z.of_nat j * period ->
  nth_error (raw_rows eeg_df) j = Some r0.
Proof.
  intros Hu Hp Hin Hj. apply In_nth_error in Hin. destruct Hin as [k Hk].
  assert (Hkt : time r0 = t0 + Z.of_nat k * period).
  { pose proof (map_nth_error time _ _ Hk) as Hm. rewrite Hu in Hm.
    rewrite nth_error_map in Hm.
    assert (Hlt : (k < length (raw_rows eeg_df))%nat)
      by (apply nth_error_Some; congruence).
    rewrite (nth_error_seq0 _ _ Hlt) in Hm. cbn [option_map] in Hm. congruence. }
  assert (k = j) by nia. subst k. exact Hk.
Qed.

Lemma epoch_by_position (all_chans : list string)
    (eeg_df : raw_df V) (event_df : events_df L) (t0 period : Z) (n i p : nat)
    (r0 : raw_row V) (ch : string) :
  valid_inputs all_chans eeg_df event_df ->
  uniformly_sampled eeg_df t0 period -> 0 < period ->
  nth_error (start_rows eeg_df) i = Some r0 ->
  (i < length (EventType event_df))%nat ->
  time r0 = t0 + Z.of_nat p * period ->
  In ch all_chans ->
  exists df,
    getEpochedDF all_chans eeg_df event_df (Z.of_nat n * period) = Ok df /\
    nth_error (raw_rows eeg_df) p = Some r0 /\
    df_at df ch i =
      Ok (CArr (map (fun r => chan r ch)
                    (firstn n (skipn (S p) (raw_rows eeg_df))))).
Proof.
  intros Hv Hu Hp Hi Hlt Ht Hch.
  destruct (getEpochedDF_cell all_chans eeg_df event_df (Z.of_nat n * period)
              i r0 ch Hv Hi Hlt Hch) as [df [Hdf [_ Hcell]]].
  exists df. split; [exact Hdf|]. split.
  - apply (uniform_row_position eeg_df t0 period r0 p Hu Hp); [|exact Ht].
    exact (start_row_in eeg_df i r0 Hi).
  - rewrite Hcell. unfold window_samples.
    rewrite (window_rows_positions eeg_df t0 period r0 p n Hu Hp Ht).
    reflexivity.
Qed.

End ExtractorMore.

Lemma firstn_min_length {X : Type} (k : nat) (l : list X) :
  firstn (Nat.min k (length l)) l = firstn k l.
Proof.
  revert k. induction l as [|x l IH]; intros [|k]; cbn [length Nat.min firstn];
    try reflexivity.
  f_equal. apply IH.
Qed.

Lemma skipn_nth_error {X : Type} (l : list X) (j : nat) (x : X) :
  nth_error l j = Some x -> skipn j l = x :: skipn (S j) l.
Proof.
  revert j. induction l as [|y l IH]; intros [|j] H; try discriminate.
  - injection H as ->. reflexivity.
  - cbn [nth_error] in H. cbn [skipn]. rewrite (IH j H). reflexivity.
Qed.

Lemma foldM_ext_in {S X : Type} (f g : S -> X -> result S) (l : list X) :
  (forall x s, In x l -> f s x = g s x) ->
  forall s, foldM f l s = foldM g l s.
Proof.
  induction l as [|x l IH]; intros H s; cbn [foldM]; [reflexivity|].
  rewrite (H x s (or_introl eq_refl)).
  destruct (g s x) as [s'|e]; cbn [bind]; [|reflexivity].
  apply IH. intros y s'' Hy. apply H. right; exact Hy.
Qed.

Lemma foldM_app_fail {S X : Type} (body : S -> X -> result S)
    (pre post : list X) (x : X) (s s' : S) (e : exn) :
  foldM body pre s = Ok s' -> body s' x = Raise e ->
  foldM body (pre ++ x :: post) s = Raise e.
Proof.
  intros Hpre Hx. rewrite foldM_app, Hpre. cbn [bind foldM]. rewrite Hx.
  reflexivity.
Qed.

Lemma keyed_pushes_keys {A : Type} (G : string -> interval -> A)
    (eeg_chans : list string) (intervals : list interval) :
  map fst (flat_map (fun ch => map (fun iv => (feature_key ch iv, G ch iv)) intervals)
                    eeg_chans) =
  all_keys eeg_chans intervals.
Proof.
  unfold all_keys. induction eeg_chans as [|ch chans IH]; [reflexivity|].
  cbn [flat_map]. rewrite map_app, IH, map_map. reflexivity.
Qed.

Section FeatureMore.

Context {V : Type} `{Float64 V}.
Variable bin_power : list V -> list pynum -> Z -> result (list V * list V).

(** A key whose channel is not configured, or whose interval the boundary
    list does not produce, is not a column of the power-bin table. *)
Lemma power_ratios_frame_no_column (eeg_chans : list string)
    (binning : list pynum) (df : DataFrame V Z) (ch : string) (iv : interval)
    (i : nat) :
  ~ In ch eeg_chans \/ ~ In iv (consecutive_pairs binning) ->
  df_at (power_ratios_frame bin_power eeg_chans binning df) (feature_key ch iv) i =
  Raise (KeyError (feature_key ch iv)).
Proof.
  intros Hno. unfold df_at, dict_item.
  assert (Hn : dict_get (feature_key ch iv)
                 (cols (power_ratios_frame bin_power eeg_chans binning df)) = None).
  { apply dict_get_none_keys. intros Hin.
    unfold power_ratios_frame, power_ratios_expected in Hin. cbn [cols] in Hin.
    apply dict_mem_keys in Hin. rewrite mem_push_all in Hin.
    apply orb_true_iff in Hin. destruct Hin as [Hin|Hin].
    - unfold dict_mem in Hin. cbn [dict_get] in Hin.
      destruct (String.eqb (feature_key ch iv) "y") eqn:E; [|discriminate].
      apply String.eqb_eq in E. exact (feature_key_not_y ch iv E).
    - apply existsb_exists in Hin. destruct Hin as [[k v] [Hin Hk]].
      apply String.eqb_eq in Hk. cbn [fst] in Hk. subst k.
      apply in_flat_map in Hin. destruct Hin as [r [_ Hin]].
      apply (in_map fst) in Hin. rewrite power_ratios_pushes_keys in Hin.
      cbn [fst] in Hin. apply in_app_or in Hin. destruct Hin as [Hin|[E|[]]].
      + apply in_all_keys in Hin. destruct Hin as [ch' [iv' [Hch' [Hiv' E]]]].
        apply feature_key_inj in E. destruct E as [-> ->]. tauto.
      + symmetry in E. exact (feature_key_not_y ch iv E). }
  rewrite Hn. reflexivity.
Qed.

(** The label column of the power-bin table repeats the labels of the epoch
    table. *)
Lemma power_ratios_frame_y (eeg_chans : list string) (binning : list pynum)
    (df : DataFrame V Z) (i : nat) (y : cell V Z) :
  NoDup eeg_chans -> strictly_increasing binning ->
  (i < nrows df)%nat ->
  df_at df "event_type" i = Ok y ->
  df_at (power_ratios_frame bin_power eeg_chans binning df) "y" i = Ok y.
Proof.
  intros Hnd Hs Hi Hy. apply df_at_col. unfold power_ratios_frame. cbn [cols].
  rewrite (power_ratios_col_y bin_power eeg_chans binning df
             (keys_nodup eeg_chans binning Hnd Hs)).
  rewrite nth_error_map, (nth_error_seq0 _ _ Hi). cbn [option_map].
  unfold cell_at. rewrite Hy. reflexivity.
Qed.

(** A feature cell of the power-bin table is the ratio pyeeg returned for
    that epoch, channel and interval. *)
Lemma power_ratios_frame_ratio (eeg_chans : list string) (binning : list pynum)
    (df : DataFrame V Z) (i : nat) (ch : string) (j : nat) (iv : interval)
    (x : list V) (pp : list V * list V) (r : V) :
  NoDup eeg_chans -> strictly_increasing binning ->
  (i < nrows df)%nat -> In ch eeg_chans ->
  nth_error (consecutive_pairs binning) j = Some iv ->
  df_at df ch i = Ok (CArr x) ->
  bin_power x binning 250 = Ok pp ->
  nth_error (snd pp) j = Some r ->
  df_at (power_ratios_frame bin_power eeg_chans binning df) (feature_key ch iv) i =
  Ok (CVal r).
Proof.
  intros Hnd Hs Hi Hch Hj Hx Hbp Hr.
  rewrite (power_ratios_frame_cell bin_power eeg_chans binning df Hnd Hs
             ch j iv i Hch Hj Hi).
  unfold ratio_at, ratios_at. rewrite Hx, Hbp.
  rewrite (nth_error_nth _ _ fnan Hr). reflexivity.
Qed.

(** One pass of the statistics cell over the intervals of a channel. *)
Lemma stats_intervals_ok (eeg_chans : list string) (intervals0 : list interval)
    (df : DataFrame V Z) (l : Z) (ch : string) (intervals : list interval)
    (s a : dict (list (cell V Z))) :
  stats_ready eeg_chans intervals0 df ->
  In ch eeg_chans -> incl intervals intervals0 -> same_keys s a ->
  foldM (stats_interval Z.eqb df l ch) intervals (s, a) =
  Ok (push_all (map (fun iv => (feature_key ch iv, sem_value Z.eqb df l (ch, iv)))
                    intervals) s,
      push_all (map (fun iv => (feature_key ch iv, avg_value Z.eqb df l (ch, iv)))
                    intervals) a).
Proof.
  intros Hr Hch Hincl Hs. rewrite <- !flat_map_singleton.
  apply (foldM_pushes2 _
           (fun iv => [(feature_key ch iv, sem_value Z.eqb df l (ch, iv))])
           (fun iv => [(feature_key ch iv, avg_value Z.eqb df l (ch, iv))])).
  - intros iv s' a' Hiv Hs'.
    apply (stats_interval_ok Z.eqb eeg_chans intervals0); auto.
  - reflexivity.
  - exact Hs.
Qed.

(** One pass of the statistics cell over the channels, for one event type. *)
Lemma stats_chans_ok (eeg_chans0 : list string) (intervals : list interval)
    (df : DataFrame V Z) (l : Z) (eeg_chans : list string)
    (s a : dict (list (cell V Z))) :
  stats_ready eeg_chans0 intervals df ->
  incl eeg_chans eeg_chans0 -> same_keys s a ->
  foldM (fun st ch => foldM (stats_interval Z.eqb df l ch) intervals st)
        eeg_chans (s, a) =
  Ok (push_all (flat_map (fun ch =>
                  map (fun iv => (feature_key ch iv, sem_value Z.eqb df l (ch, iv)))
                      intervals) eeg_chans) s,
      push_all (flat_map (fun ch =>
                  map (fun iv => (feature_key ch iv, avg_value Z.eqb df l (ch, iv)))
                      intervals) eeg_chans) a).
Proof.
  intros Hr Hincl Hs.
  apply (foldM_pushes2 _
           (fun ch => map (fun iv => (feature_key ch iv, sem_value Z.eqb df l (ch, iv)))
                          intervals)
           (fun ch => map (fun iv => (feature_key ch iv, avg_value Z.eqb df l (ch, iv)))
                          intervals)).
  - intros ch s' a' Hch Hs'.
    apply (stats_intervals_ok eeg_chans0 intervals); auto. apply incl_refl.
  - intros ch. rewrite !map_map. reflexivity.
  - exact Hs.
Qed.

(** An epoch table that is valid for a list of channels is valid for any
    part of it. *)
Lemma valid_epochs_incl (eeg_chans eeg_chans' : list string)
    (binning : list pynum) (df : DataFrame V Z) :
  incl eeg_chans' eeg_chans ->
  valid_epochs bin_power eeg_chans binning df ->
  valid_epochs bin_power eeg_chans' binning df.
Proof.
  intros Hincl [Hl Hs]. constructor; [exact Hl|].
  intros ch i Hch Hi. apply Hs; [apply Hincl; exact Hch|exact Hi].
Qed.

(** The power-bin table of a valid epoch table with at least one row has
    what the statistics cell reads. *)
Lemma power_ratios_frame_stats_ready (eeg_chans : list string)
    (binning : list pynum) (df : DataFrame V Z) :
  NoDup eeg_chans -> strictly_increasing binning -> (0 < nrows df)%nat ->
  stats_ready eeg_chans (consecutive_pairs binning)
    (power_ratios_frame bin_power eeg_chans binning df).
Proof.
  intros Hnd Hs Hn.
  pose proof (keys_nodup eeg_chans binning Hnd Hs) as Hk.
  assert (Hget : forall k,
            In k (map fst (cols (power_ratios_frame bin_power eeg_chans binning df))) ->
            dict_get k (cols (power_ratios_frame bin_power eeg_chans binning df)) =
            Some (col k (cols (power_ratios_frame bin_power eeg_chans binning df)))).
  { intros k Hin. apply dict_mem_keys in Hin. unfold dict_mem, col in *.
    destruct (dict_get k _); [reflexivity|discriminate]. }
  pose proof (power_ratios_keys bin_power eeg_chans binning df Hk Hn) as Hkeys.
  split.
  - eexists. apply Hget. unfold power_ratios_frame. cbn [cols].
    rewrite Hkeys. left. reflexivity.
  - intros ch iv Hch Hiv.
    destruct (In_nth_error _ _ Hiv) as [j Hj].
    exists (map (fun i => ratio_at bin_power df binning ch i j) (seq 0 (nrows df))).
    rewrite Hget.
    + unfold power_ratios_frame. cbn [cols].
      rewrite (power_ratios_col_feature bin_power eeg_chans binning df Hk
                 ch j iv Hch Hj), map_map. reflexivity.
    + unfold power_ratios_frame. cbn [cols]. rewrite Hkeys. right.
      apply in_all_keys. exists ch, iv. auto.
Qed.

(** The statistics cell on a table that has what it reads. *)
Lemma std_err_avg_df_ok (event_types : list (Z * string))
    (eeg_chans : list string) (intervals : list interval) (df : DataFrame V Z) :
  NoDup (all_keys eeg_chans intervals) ->
  stats_ready eeg_chans intervals df ->
  std_err_avg_df Z.eqb event_types eeg_chans intervals df =
  Ok ({| nrows := match pairs_of eeg_chans intervals with
                  | [] => 0%nat
                  | _ => length (map fst event_types)
                  end;
         cols := row_table (fun p => feature_key (fst p) (snd p))
                   (sem_value Z.eqb df) (pairs_of eeg_chans intervals)
                   (map fst event_types) |},
      {| nrows := match pairs_of eeg_chans intervals with
                  | [] => 0%nat
                  | _ => length (map fst event_types)
                  end;
         cols := row_table (fun p => feature_key (fst p) (snd p))
                   (avg_value Z.eqb df) (pairs_of eeg_chans intervals)
                   (map fst event_types) |}).
Proof.
  intros Hnd Hr. rewrite all_keys_pairs in Hnd.
  unfold std_err_avg_df. rewrite (stats_dicts_ok Z.eqb _ _ _ _ Hr).
  cbn [bind fst snd].
  rewrite (row_table_frame _ (sem_value Z.eqb df) _ _ Hnd). cbn [bind].
  rewrite (row_table_frame _ (avg_value Z.eqb df) _ _ Hnd). cbn [bind].
  reflexivity.
Qed.

End FeatureMore.

(** The keys of a table built row by row are the keys of one row, in
    order. *)
Lemma row_table_keys {A R X : Type} (keyf : X -> string) (valf : R -> X -> A)
    (items : list X) (rows : list R) :
  NoDup (map keyf items) -> rows <> [] ->
  map fst (row_table keyf valf items rows) = map keyf items.
Proof.
  intros Hnd Hrows. destruct rows as [|r rows]; [congruence|].
  unfold row_table. cbn [flat_map]. rewrite push_all_app.
  assert (Hfirst : map fst (push_all (map (fun x => (keyf x, valf r x)) items)
                              ([] : dict (list A))) = map keyf items).
  { rewrite keys_push_all_fresh.
    - cbn [map app]. rewrite map_map. reflexivity.
    - rewrite map_map. exact Hnd.
    - intros k _ []. }
  rewrite keys_push_all_present; [exact Hfirst|].
  intros k Hk. rewrite Hfirst.
  apply in_map_iff in Hk. destruct Hk as [[k' v] [<- Hin]].
  apply in_flat_map in Hin. destruct Hin as [r' [_ Hin]].
  apply in_map_iff in Hin. destruct Hin as [x [E Hx]]. inversion E; subst.
  cbn [fst]. apply in_map. exact Hx.
Qed.

(** ** Columns of unequal length *)

Lemma map_nth_seq_id {X : Type} (l : list X) (d : X) :
  map (fun c => nth c l d) (seq 0 (length l)) = l.
Proof.
  induction l as [|x l IH]; [reflexivity|].
  cbn [length seq map nth]. f_equal.
  rewrite <- seq_shift, map_map. exact IH.
Qed.

(** How often the key [k] is appended to by a list of appends. *)
Lemma key_count_keys {A : Type} (k : string) (ps : list (string * A)) :
  length (filter (fun p => String.eqb (fst p) k) ps) =
  length (filter (fun x => String.eqb x k) (map fst ps)).
Proof.
  induction ps as [|[k0 v] ps IH]; [reflexivity|].
  cbn [map filter fst]. destruct (String.eqb k0 k); cbn [length]; rewrite IH;
    reflexivity.
Qed.

Lemma key_count_absent (k : string) (l : list string) :
  ~ In k l -> filter (fun x => String.eqb x k) l = [].
Proof.
  intros Hk. apply filter_none. intros x Hx. apply String.eqb_neq.
  intros ->. exact (Hk Hx).
Qed.

Lemma key_count_present (k : string) (l : list string) :
  In k l -> (1 <= length (filter (fun x => String.eqb x k) l))%nat.
Proof.
  induction l as [|x l IH]; intros Hin; [destruct Hin|].
  cbn [filter]. destruct (String.eqb x k) eqn:E; [cbn [length]; lia|].
  destruct Hin as [->|Hin]; [rewrite String.eqb_refl in E; discriminate|].
  apply IH. exact Hin.
Qed.

(** A list of names that are not all distinct holds one of them twice. *)
Lemma repeated_key (l : list string) :
  ~ NoDup l ->
  exists k, (2 <= length (filter (fun x => String.eqb x k) l))%nat.
Proof.
  induction l as [|x l IH]; intros Hnd; [exfalso; apply Hnd; constructor|].
  destruct (in_dec string_dec x l) as [Hin|Hnin].
  - exists x. cbn [filter]. rewrite String.eqb_refl. cbn [length].
    pose proof (key_count_present x l Hin). lia.
  - destruct IH as [k Hk].
    + intros Hl. apply Hnd. constructor; assumption.
    + exists k. cbn [filter]. destruct (String.eqb x k); cbn [length]; lia.
Qed.

Lemma key_count_rows_eq {X A : Type} (pp : X -> list (string * A)) (k : string)
    (m : nat) (items : list X) :
  (forall it, In it items ->
     length (filter (fun p => String.eqb (fst p) k) (pp it)) = m) ->
  length (filter (fun p => String.eqb (fst p) k) (flat_map pp items)) =
  (length items * m)%nat.
Proof.
  induction items as [|it items IH]; intros Hm; [reflexivity|].
  cbn [flat_map length]. rewrite filter_app, length_app.
  rewrite (Hm it (or_introl eq_refl)), IH; [lia|].
  intros y Hy. apply Hm. right; exact Hy.
Qed.

Lemma key_count_rows_ge {X A : Type} (pp : X -> list (string * A)) (k : string)
    (m : nat) (items : list X) :
  (forall it, In it items ->
     (m <= length (filter (fun p => String.eqb (fst p) k) (pp it)))%nat) ->
  (length items * m <=
   length (filter (fun p => String.eqb (fst p) k) (flat_map pp items)))%nat.
Proof.
  induction items as [|it items IH]; intros Hm; [cbn; lia|].
  cbn [flat_map length]. rewrite filter_app, length_app.
  pose proof (Hm it (or_introl eq_refl)).
  assert ((length items * m <=
           length (filter (fun p => String.eqb (fst p) k) (flat_map pp items)))%nat).
  { apply IH. intros y Hy. apply Hm. right; exact Hy. }
  lia.
Qed.

Lemma col_in {A : Type} (k : string) (d : dict (list A)) :
  col k d <> [] -> In (k, col k d) d.
Proof.
  unfold col. destruct (dict_get k d) as [c|] eqn:E; [|congruence].
  intros _. apply dict_get_in. exact E.
Qed.

Section Ragged.

Context {V L : Type}.

(** [pd.DataFrame] rejects a dictionary that holds two lists of different
    length. *)
Lemma pd_DataFrame_ragged (d : dict (list (cell V L))) (k1 k2 : string)
    (c1 c2 : list (cell V L)) :
  In (k1, c1) d -> In (k2, c2) d -> length c1 <> length c2 ->
  pd_DataFrame d = Raise ValueError.
Proof.
  intros H1 H2 Hne. unfold pd_DataFrame. destruct d as [|[k0 c0] d']; [destruct H1|].
  destruct (forallb _ _) eqn:Hf; [exfalso|reflexivity].
  rewrite forallb_forall in Hf.
  pose proof (Hf _ H1) as E1. pose proof (Hf _ H2) as E2.
  apply Nat.eqb_eq in E1, E2. cbn [snd] in E1, E2. lia.
Qed.

(** A loop that appends once per row under one key and at least twice per
    row under another builds columns of different length. *)
Lemma ragged_pushes {X : Type} (pp : X -> list (string * cell V L))
    (items : list X) (d0 : dict (list (cell V L))) (k1 k2 : string) :
  items <> [] -> col k1 d0 = [] ->
  (forall it, In it items ->
     length (filter (fun p => String.eqb (fst p) k1) (pp it)) = 1%nat) ->
  (forall it, In it items ->
     (2 <= length (filter (fun p => String.eqb (fst p) k2) (pp it)))%nat) ->
  pd_DataFrame (push_all (flat_map pp items) d0) = Raise ValueError.
Proof.
  intros Hne H0 H1 H2.
  set (D := push_all (flat_map pp items) d0).
  assert (Hn : (1 <= length items)%nat).
  { destruct items; [congruence|cbn [length]; lia]. }
  assert (L1 : length (col k1 D) = length items).
  { unfold D. rewrite col_push_all, H0. cbn [app]. rewrite length_map.
    rewrite (key_count_rows_eq pp k1 1 items H1). lia. }
  assert (L2 : (2 * length items <= length (col k2 D))%nat).
  { unfold D. rewrite col_push_all, length_app, length_map.
    pose proof (key_count_rows_ge pp k2 2 items H2). lia. }
  apply (pd_DataFrame_ragged D k1 k2 (col k1 D) (col k2 D)).
  - apply col_in. intros E. rewrite E in L1. cbn [length] in L1. lia.
  - apply col_in. intros E. rewrite E in L2. cbn [length] in L2. lia.
  - lia.
Qed.

Lemma getDF_pushes_keys (epochs : list (list (list V))) (times : list (Z * Z))
    (chans : list string) (il : nat * L) :
  map fst (getDF_pushes epochs times chans il) =
  "start_time" :: "event_type" :: chans.
Proof.
  unfold getDF_pushes. cbn [map fst]. rewrite map_map. cbn [fst].
  rewrite map_nth_seq_id. reflexivity.
Qed.

(** The dictionary [getDF] builds, whether or not the channel names are
    distinct. *)
Lemma getDF_dict (epochs : list (list (list V))) (labels : list L)
    (times : list (Z * Z)) (chans : list string) :
  length times = length labels ->
  length epochs = length labels ->
  Forall (fun e => length e = length chans) epochs ->
  getDF epochs labels times chans =
  pd_DataFrame (push_all (flat_map (getDF_pushes epochs times chans)
                                   (enumerate labels)) []).
Proof.
  intros Ht He Hep. unfold getDF.
  rewrite (foldM_pushes _ (getDF_pushes epochs times chans)); [reflexivity|].
  intros [i label] d Hin. apply in_enumerate in Hin.
  assert (Hi : (i < length labels)%nat) by (apply nth_error_Some; congruence).
  apply getDF_row_pushes; try lia.
  rewrite Forall_forall in Hep. apply Hep. apply nth_In. lia.
Qed.

(** [getDF] with a channel name that occurs twice. *)
Lemma getDF_ragged (epochs : list (list (list V))) (labels : list L)
    (times : list (Z * Z)) (chans : list string) :
  length times = length labels ->
  length epochs = length labels ->
  Forall (fun e => length e = length chans) epochs ->
  labels <> [] -> ~ In "start_time" chans -> ~ NoDup chans ->
  getDF epochs labels times chans = Raise ValueError.
Proof.
  intros Ht He Hep Hne Hst Hdup.
  rewrite (getDF_dict epochs labels times chans Ht He Hep).
  destruct (repeated_key chans Hdup) as [k Hk].
  apply (ragged_pushes _ _ [] "start_time" k).
  - unfold enumerate. destruct labels; [congruence|discriminate].
  - reflexivity.
  - intros il _. rewrite <- (length_map snd).
    rewrite (getDF_pushes_filter_time epochs times chans il Hst). reflexivity.
  - intros il _. rewrite key_count_keys, getDF_pushes_keys. cbn [filter].
    destruct (String.eqb "start_time" k), (String.eqb "event_type" k);
      cbn [length]; lia.
Qed.

End Ragged.

(** ** The calls of [plotMultipleBarGraphs] *)

Lemma nth_error_combine_inv {A B : Type} (l1 : list A) (l2 : list B) (i : nat)
    (a : A) (b : B) :
  nth_error (combine l1 l2) i = Some (a, b) ->
  nth_error l1 i = Some a /\ nth_error l2 i = Some b.
Proof.
  revert l2 i. induction l1 as [|x l1 IH]; intros [|y l2] [|i] E;
    try discriminate.
  - injection E as -> ->. split; reflexivity.
  - exact (IH l2 i E).
Qed.

Lemma nth_error_seq0_inv (n i j : nat) :
  nth_error (seq 0 n) i = Some j -> j = i /\ (i < n)%nat.
Proof.
  intros E.
  assert (Hi : (i < n)%nat).
  { assert (Hs : nth_error (seq 0 n) i <> None) by congruence.
    apply nth_error_Some in Hs. rewrite length_seq in Hs. exact Hs. }
  rewrite (nth_error_seq0 n i Hi) in E. injection E as <-. split; [reflexivity|exact Hi].
Qed.

Lemma nth_error_enumerate_inv {X : Type} (l : list X) (i j : nat) (x : X) :
  nth_error (enumerate l) i = Some (j, x) -> j = i /\ nth_error l i = Some x.
Proof.
  intros E. apply nth_error_combine_inv in E. destruct E as [E1 E2].
  apply nth_error_seq0_inv in E1. split; [tauto|exact E2].
Qed.

(** A loop whose [i]-th iteration appends the [i]-th element of [cs]. *)
Lemma foldM_appends {X C : Type} (body : list C -> X -> result (list C))
    (items : list X) (cs : list C) :
  length items = length cs ->
  (forall i it c, nth_error items i = Some it -> nth_error cs i = Some c ->
     forall tr, body tr it = Ok (tr ++ [c])) ->
  forall tr, foldM body items tr = Ok (tr ++ cs).
Proof.
  revert cs. induction items as [|it items IH]; intros [|c cs] Hlen Hb tr;
    try discriminate.
  - cbn [foldM]. rewrite app_nil_r. reflexivity.
  - cbn [foldM]. rewrite (Hb 0%nat it c eq_refl eq_refl tr). cbn [bind].
    rewrite IH with (cs := cs).
    + rewrite <- app_assoc. reflexivity.
    + injection Hlen as Hlen. exact Hlen.
    + intros i it' c' Hi Hc. exact (Hb (S i) it' c' Hi Hc).
Qed.

Section PlottingFacts.

Context {V : Type} `{Float64 V} {N G : Type}.
Variable plt : plt_call V N G -> option exn.

Lemma bar_positions_next (w : V) (m i : nat) :
  map (fun x => fadd x w) (bar_positions w m i) = bar_positions w m (S i).
Proof. unfold bar_positions. rewrite map_map. reflexivity. Qed.

(** The positions loop, from sequence [S k] on. *)
Lemma positions_loop (w : V) (m : nat) (rest : list (list V)) :
  forall k,
  foldM (next_positions w) (combine (seq (S k) (length rest)) rest)
        (map (bar_positions w m) (seq 0 (S k))) =
  Ok (map (bar_positions w m) (seq 0 (S k + length rest))).
Proof.
  induction rest as [|b rest IH]; intros k.
  - cbn [length seq combine foldM]. rewrite Nat.add_0_r. reflexivity.
  - cbn [length combine foldM]. change (seq (S k) (S (length rest)))
      with (S k :: seq (S (S k)) (length rest)).
    cbn [combine foldM]. unfold next_positions at 1.
    change (0 <? S k)%nat with true. cbv iota.
    replace (S k - 1)%nat with k by lia.
    assert (E : index (map (bar_positions w m) (seq 0 (S k))) k =
                Ok (bar_positions w m k)).
    { apply index_nth_error. rewrite nth_error_map, nth_error_seq0 by lia.
      reflexivity. }
    rewrite E. cbn [bind]. rewrite bar_positions_next.
    replace (map (bar_positions w m) (seq 0 (S k)) ++ [bar_positions w m (S k)])
      with (map (bar_positions w m) (seq 0 (S (S k)))).
    + rewrite IH. f_equal. f_equal. f_equal. lia.
    + rewrite (seq_S (S k) 0), map_app. reflexivity.
Qed.

Lemma positions_all (w : V) (m : nat) (bars : list (list V)) (first : list V)
    (rest : list (list V)) :
  bars = first :: rest ->
  foldM (next_positions w) (enumerate bars) [bar_positions w m 0] =
  Ok (map (bar_positions w m) (seq 0 (length bars))).
Proof.
  intros ->. unfold enumerate. cbn [length seq combine foldM].
  unfold next_positions at 1. cbn [Nat.ltb Nat.leb bind].
  exact (positions_loop w m rest 0).
Qed.

(** A loop over the position lists that reads [as[i]] and [bs[i]] and makes
    one call from them. *)
Lemma calls_loop {A B : Type} (mk : list V -> A -> B -> plt_call V N G)
    (l1 : list A) (l2 : list B) (w : V) (m : nat) (tr : list (plt_call V N G)) :
  (length l1 <= length l2)%nat ->
  (forall c,
     In c (map (fun t => mk (bar_positions w m (fst t)) (fst (snd t)) (snd (snd t)))
               (combine (seq 0 (length l1)) (combine l1 l2))) ->
     plt c = None) ->
  foldM (fun trace ip =>
           a <- index l1 (fst ip) ;;
           b <- index l2 (fst ip) ;;
           call plt (mk (snd ip) a b) trace)
        (enumerate (map (bar_positions w m) (seq 0 (length l1)))) tr =
  Ok (tr ++ map (fun t => mk (bar_positions w m (fst t)) (fst (snd t)) (snd (snd t)))
                (combine (seq 0 (length l1)) (combine l1 l2))).
Proof.
  intros Hlen Hacc. apply foldM_appends.
  - unfold enumerate.
    repeat (rewrite ?length_map, ?length_combine, ?length_seq). lia.
  - intros i [j pos] c Hit Hc tr'.
    apply nth_error_enumerate_inv in Hit. destruct Hit as [-> Hpos].
    rewrite nth_error_map in Hpos.
    destruct (nth_error (seq 0 (length l1)) i) as [i'|] eqn:Ei; [|discriminate].
    apply nth_error_seq0_inv in Ei. destruct Ei as [-> Hi].
    cbn [option_map] in Hpos. injection Hpos as <-.
    pose proof (nth_error_In _ _ Hc) as Hin.
    rewrite nth_error_map in Hc.
    destruct (nth_error (combine (seq 0 (length l1)) (combine l1 l2)) i)
      as [[i' [a b]]|] eqn:Et; [|discriminate].
    cbn [option_map fst snd] in Hc. injection Hc as <-.
    apply nth_error_combine_inv in Et. destruct Et as [Ei Eab].
    apply nth_error_seq0_inv in Ei. destruct Ei as [-> _].
    apply nth_error_combine_inv in Eab. destruct Eab as [Ea Eb].
    cbn [fst snd]. rewrite (index_nth_error _ _ _ Ea). cbn [bind].
    rewrite (index_nth_error _ _ _ Eb). cbn [bind].
    unfold call. rewrite (Hacc _ Hin). reflexivity.
Qed.

Lemma call_if_ok (s : option string) (c : string -> plt_call V N G)
    (tr : list (plt_call V N G)) :
  (forall x, In x (expected_label s c) -> plt x = None) ->
  call_if plt s c tr = Ok (tr ++ expected_label s c).
Proof.
  unfold call_if, expected_label. destruct (truthy s) as [s'|]; intros Hacc.
  - unfold call. rewrite (Hacc (c s') (or_introl eq_refl)). reflexivity.
  - rewrite app_nil_r. reflexivity.
Qed.

End PlottingFacts.

(** ** The plot cell *)

Lemma ldict_get_app_new {A : Type} (l : Z) (v : A) (d : ldict A) :
  ldict_get l d = None -> ldict_get l (d ++ [(l, v)]) = Some v.
Proof.
  induction d as [|[k x] d IH]; cbn [ldict_get app].
  - intros _. rewrite Z.eqb_refl. reflexivity.
  - destruct (l =? k); [discriminate|exact IH].
Qed.

Lemma ldict_set_app_new {A : Type} (l : Z) (v v0 : A) (d : ldict A) :
  ldict_get l d = None -> ldict_set l v (d ++ [(l, v0)]) = d ++ [(l, v)].
Proof.
  induction d as [|[k x] d IH]; cbn [ldict_get ldict_set app].
  - intros _. rewrite Z.eqb_refl. reflexivity.
  - destruct (l =? k); [discriminate|]. intros Hn. rewrite (IH Hn). reflexivity.
Qed.

Lemma ldict_set_fresh {A : Type} (l : Z) (v : A) (d : ldict A) :
  ldict_get l d = None -> ldict_set l v d = d ++ [(l, v)].
Proof.
  induction d as [|[k x] d IH]; cbn [ldict_get ldict_set app]; [reflexivity|].
  destruct (l =? k); [discriminate|]. intros Hn. rewrite (IH Hn). reflexivity.
Qed.

Lemma ldict_get_map_none {A : Type} (f : Z -> A) (l : Z) (done : list Z) :
  ~ In l done -> ldict_get l (map (fun k => (k, f k)) done) = None.
Proof.
  induction done as [|k done IH]; intros Hn; [reflexivity|].
  cbn [map ldict_get]. destruct (Z.eqb_spec l k) as [->|_].
  - exfalso. apply Hn. left. reflexivity.
  - apply IH. intros Hin. apply Hn. right. exact Hin.
Qed.

Section PlotCellFacts.

Context {V : Type} `{Float64 V}.

Lemma mapM_as_float_vals {X : Type} (f : X -> V) (xs : list X) :
  mapM (as_float (L:=Z)) (map (fun x => CVal (f x)) xs) = Ok (map f xs).
Proof.
  induction xs as [|x xs IH]; [reflexivity|].
  cbn [map mapM as_float bind]. rewrite IH. reflexivity.
Qed.

Section OneChannel.

Variables (avg_df std_err_df : DataFrame V Z) (chan : string).

Lemma loc_float_val (df : DataFrame V Z) (key : string) (l : Z) (v : V) :
  series_loc df key l = Ok (CVal v) -> loc_float df key l = v.
Proof. intros E. unfold loc_float. rewrite E. reflexivity. Qed.

Lemma plot_values_intervals_ok (l : Z) (intervals : list interval) :
  (forall iv, In iv intervals -> has_rows avg_df std_err_df chan l iv) ->
  forall (pr sems : ldict (list (cell V Z))) (acc acc' : list (cell V Z)),
  ldict_get l pr = None -> ldict_get l sems = None ->
  foldM (plot_values_interval avg_df std_err_df chan l) intervals
        (pr ++ [(l, acc)], sems ++ [(l, acc')]) =
  Ok (pr ++ [(l, acc ++ snd (label_entry avg_df chan intervals l))],
      sems ++ [(l, acc' ++ snd (label_entry std_err_df chan intervals l))]).
Proof.
  unfold label_entry. cbn [snd].
  induction intervals as [|iv intervals IH]; intros Hrows pr sems acc acc' Hp Hs.
  - cbn [foldM map]. rewrite !app_nil_r. reflexivity.
  - cbn [foldM]. unfold plot_values_interval at 1.
    destruct (Hrows iv (or_introl eq_refl)) as [a [s [Ha Hs']]].
    rewrite Ha. cbn [bind]. unfold ldict_append.
    rewrite (ldict_get_app_new l acc pr Hp), (ldict_set_app_new l _ acc pr Hp).
    cbn [bind]. rewrite Hs'. cbn [bind].
    rewrite (ldict_get_app_new l acc' sems Hs), (ldict_set_app_new l _ acc' sems Hs).
    cbn [bind].
    rewrite IH; [|intros iv' Hiv'; apply Hrows; right; exact Hiv'|exact Hp|exact Hs].
    cbn [map]. rewrite (loc_float_val _ _ _ _ Ha), (loc_float_val _ _ _ _ Hs').
    rewrite <- !app_assoc. reflexivity.
Qed.

Lemma plot_values_event_ok (l : Z) (intervals : list interval)
    (pr sems : ldict (list (cell V Z))) :
  (forall iv, In iv intervals -> has_rows avg_df std_err_df chan l iv) ->
  ldict_get l pr = None -> ldict_get l sems = None ->
  plot_values_event intervals avg_df std_err_df chan (pr, sems) l =
  Ok (pr ++ [label_entry avg_df chan intervals l],
      sems ++ [label_entry std_err_df chan intervals l]).
Proof.
  intros Hrows Hp Hs. unfold plot_values_event. rewrite Hp.
  rewrite (ldict_set_fresh l [] pr Hp), (ldict_set_fresh l [] sems Hs).
  cbv beta iota zeta.
  exact (plot_values_intervals_ok l intervals Hrows pr sems [] [] Hp Hs).
Qed.

Lemma ldict_get_entries_none (df : DataFrame V Z) (intervals : list interval)
    (l : Z) (done : list Z) :
  ~ In l done -> ldict_get l (map (label_entry df chan intervals) done) = None.
Proof.
  intros Hn.
  exact (ldict_get_map_none (fun k => snd (label_entry df chan intervals k)) l done Hn).
Qed.

Lemma plot_values_ok (intervals : list interval) (labels : list Z) :
  forall done,
  NoDup (done ++ labels) ->
  (forall l iv, In l labels -> In iv intervals ->
     has_rows avg_df std_err_df chan l iv) ->
  foldM (plot_values_event intervals avg_df std_err_df chan) labels
        (map (label_entry avg_df chan intervals) done,
         map (label_entry std_err_df chan intervals) done) =
  Ok (map (label_entry avg_df chan intervals) (done ++ labels),
      map (label_entry std_err_df chan intervals) (done ++ labels)).
Proof.
  induction labels as [|l labels IH]; intros done Hnd Hrows.
  - cbn [foldM]. rewrite app_nil_r. reflexivity.
  - cbn [foldM].
    assert (Hl : ~ In l done).
    { intros Hin. apply NoDup_remove_2 in Hnd. apply Hnd.
      apply in_or_app. left. exact Hin. }
    rewrite plot_values_event_ok.
    + cbn [bind].
      assert (E : forall df,
                map (label_entry df chan intervals) done ++
                [label_entry df chan intervals l] =
                map (label_entry df chan intervals) (done ++ [l])).
      { intros df. rewrite map_app. reflexivity. }
      rewrite !E, IH.
      * rewrite <- app_assoc. reflexivity.
      * rewrite <- app_assoc. exact Hnd.
      * intros l' iv Hl' Hiv. apply Hrows; [right; exact Hl'|exact Hiv].
    + intros iv Hiv. apply Hrows; [left; reflexivity|exact Hiv].
    + apply ldict_get_entries_none. exact Hl.
    + apply ldict_get_entries_none. exact Hl.
Qed.

Lemma entries_frame (df : DataFrame V Z) (intervals : list interval)
    (labels : list Z) :
  ldict_frame (map (label_entry df chan intervals) labels) =
  Ok (map (label_entry df chan intervals) labels).
Proof.
  unfold ldict_frame. destruct labels as [|l labels]; [reflexivity|].
  cbn [map].
  set (d := label_entry df chan intervals l ::
            map (label_entry df chan intervals) labels).
  unfold label_entry at 1. 
  replace (forallb _ d) with true; [reflexivity|].
  symmetry. apply forallb_forall. intros [k c] Hin. cbn [snd].
  apply Nat.eqb_eq. rewrite length_map.
  destruct Hin as [E|Hin].
  - inversion E. apply length_map.
  - apply in_map_iff in Hin. destruct Hin as [l' [E _]]. inversion E.
    apply length_map.
Qed.

Lemma entries_array (df : DataFrame V Z) (intervals : list interval)
    (labels : list Z) :
  np_transpose_array (map (label_entry df chan intervals) labels) =
  Ok (rows_by_label df chan labels intervals).
Proof.
  unfold np_transpose_array, rows_by_label.
  induction labels as [|l labels IH]; [reflexivity|].
  cbn [map mapM]. unfold label_entry at 1. cbn [snd].
  rewrite mapM_as_float_vals. cbn [bind]. rewrite IH.
  reflexivity.
Qed.

End OneChannel.

End PlotCellFacts.

(* ================================================================== *)
(** * The claims *)

(** ** Epoch extractor *)

Section ExtractorClaims.

Context {V L : Type}.

(** C1: on valid inputs (a start marker for every event, every configured
    channel present, distinct channel names) [getEpochedDF] returns a frame
    with exactly one row per input event, and its [event_type] column is the
    list of the events' labels in event order: no event is skipped or
    merged. *)
Theorem getEpochedDF_one_epoch_per_event (all_chans : list string)
    (eeg_df : raw_df V) (event_df : events_df L) (trial_duration_ms : Z) :
  valid_inputs all_chans eeg_df event_df ->
  exists df,
    getEpochedDF all_chans eeg_df event_df trial_duration_ms = Ok df /\
    nrows df = length (EventType event_df) /\
    col "event_type" (cols df) = map (fun l => CLabel l) (EventType event_df) /\
    (forall i l, nth_error (EventType event_df) i = Some l ->
                 df_at df "event_type" i = Ok (CLabel l)).
Proof.
  intros Hv.
  destruct (getEpochedDF_spec all_chans eeg_df event_df trial_duration_ms Hv)
    as [df [Hdf [Hrows [Hlab _]]]].
  exists df. repeat split; try assumption.
  intros i l Hi. apply df_at_col. rewrite Hlab, nth_error_map, Hi. reflexivity.
Qed.

(** C2: for the [i]-th event, whose start marker row [r0] has time [s], the
    cell of every channel holds the samples of exactly those rows of the
    recording, in recording order, whose timestamp [t] satisfies [s < t] and
    [t <= s + trial_duration_ms]. *)
Theorem getEpochedDF_window (all_chans : list string) (eeg_df : raw_df V)
    (event_df : events_df L) (trial_duration_ms : Z) (i : nat)
    (r0 : raw_row V) (ch : string) :
  valid_inputs all_chans eeg_df event_df ->
  nth_error (start_rows eeg_df) i = Some r0 ->
  (i < length (EventType event_df))%nat ->
  In ch all_chans ->
  exists df keep,
    getEpochedDF all_chans eeg_df event_df trial_duration_ms = Ok df /\
    (forall r, keep r = true <->
               time r0 < time r /\ time r <= time r0 + trial_duration_ms) /\
    df_at df ch i =
      Ok (CArr (map (fun r => chan r ch) (filter keep (raw_rows eeg_df)))).
Proof.
  intros Hv Hi Hlt Hch.
  destruct (getEpochedDF_cell all_chans eeg_df event_df trial_duration_ms
              i r0 ch Hv Hi Hlt Hch) as [df [Hdf [_ Hcell]]].
  exists df, (in_window (time r0) (time r0 + trial_duration_ms)).
  split; [exact Hdf|split; [|exact Hcell]].
  intros r. unfold in_window. rewrite andb_true_iff, Z.ltb_lt, Z.leb_le. tauto.
Qed.

(** C3: in a recording sampled every [period] ms ([period * eeg_fs = 1000]),
    with [n = trial_duration_ms * eeg_fs / 1000] the nominal length, every
    epoch whose window ends no later than the last sample has exactly [n]
    samples in every channel.  In particular, at 250 Hz with
    [trial_duration_ms = 4000] and two events in range, exactly 2 epochs are
    produced and every channel sequence has exactly 1000 samples. *)
Theorem epoch_length_is_nominal :
  (forall (all_chans : list string) (eeg_df : raw_df V) (event_df : events_df L)
          (trial_duration_ms t0 period eeg_fs : Z) (n i : nat)
          (r0 : raw_row V) (ch : string),
     valid_inputs all_chans eeg_df event_df ->
     uniformly_sampled eeg_df t0 period -> 0 < period ->
     period * eeg_fs = 1000 ->
     1000 * Z.of_nat n = trial_duration_ms * eeg_fs ->
     nth_error (start_rows eeg_df) i = Some r0 ->
     (i < length (EventType event_df))%nat ->
     time r0 + trial_duration_ms <=
       t0 + (Z.of_nat (length (raw_rows eeg_df)) - 1) * period ->
     In ch all_chans ->
     exists df a,
       getEpochedDF all_chans eeg_df event_df trial_duration_ms = Ok df /\
       nrows df = length (EventType event_df) /\
       df_at df ch i = Ok (CArr a) /\
       length a = n) /\
  (forall (all_chans : list string) (eeg_df : raw_df V) (event_df : events_df L)
          (t0 : Z) (l1 l2 : L),
     valid_inputs all_chans eeg_df event_df ->
     uniformly_sampled eeg_df t0 4 ->
     EventType event_df = [l1; l2] ->
     (forall i r0, (i < 2)%nat -> nth_error (start_rows eeg_df) i = Some r0 ->
        time r0 + 4000 <= t0 + (Z.of_nat (length (raw_rows eeg_df)) - 1) * 4) ->
     exists df,
       getEpochedDF all_chans eeg_df event_df 4000 = Ok df /\
       nrows df = 2%nat /\
       forall ch i, In ch all_chans -> (i < 2)%nat ->
         exists a, df_at df ch i = Ok (CArr a) /\ length a = 1000%nat).
Proof.
  split.
  - intros. eapply epoch_length_in_range; eassumption.
  - intros all_chans eeg_df event_df t0 l1 l2 Hv Hu Hev Hin.
    destruct (getEpochedDF_spec all_chans eeg_df event_df 4000 Hv)
      as [df [Hdf [Hrows _]]].
    exists df. split; [exact Hdf|]. rewrite Hev in Hrows. split; [exact Hrows|].
    intros ch i Hch Hi.
    assert (Hlen : (i < length (start_rows eeg_df))%nat).
    { pose proof (enough_starts _ _ _ Hv) as Hn. rewrite Hev in Hn. simpl in Hn. lia. }
    destruct (nth_error (start_rows eeg_df) i) as [r0|] eqn:Hr0;
      [|apply nth_error_None in Hr0; lia].
    destruct (epoch_length_in_range all_chans eeg_df event_df 4000 t0 4 250
                1000 i r0 ch Hv Hu) as [df' [a [Hdf' [_ [Hcell Hlen']]]]];
      try assumption; try lia.
    + rewrite Hev. exact Hi.
    + exact (Hin i r0 Hi Hr0).
    + rewrite Hdf in Hdf'. injection Hdf' as <-. exists a. auto.
Qed.

(** C6: when the window of an event runs past the last sample of the
    recording, the extractor still returns normally with one row per event;
    the cell of every channel in that event's row holds just the samples left
    after the start row, fewer than the nominal length [n]: nothing is raised
    and nothing is padded. *)
Theorem epoch_truncated_not_padded (all_chans : list string) (eeg_df : raw_df V)
    (event_df : events_df L) (trial_duration_ms t0 period eeg_fs : Z)
    (n i : nat) (r0 : raw_row V) (ch : string) :
  valid_inputs all_chans eeg_df event_df ->
  uniformly_sampled eeg_df t0 period -> 0 < period ->
  period * eeg_fs = 1000 ->
  1000 * Z.of_nat n = trial_duration_ms * eeg_fs ->
  nth_error (start_rows eeg_df) i = Some r0 ->
  (i < length (EventType event_df))%nat ->
  t0 + (Z.of_nat (length (raw_rows eeg_df)) - 1) * period <
    time r0 + trial_duration_ms ->
  In ch all_chans ->
  exists df a,
    getEpochedDF all_chans eeg_df event_df trial_duration_ms = Ok df /\
    nrows df = length (EventType event_df) /\
    df_at df ch i = Ok (CArr a) /\
    a = map (fun r => chan r ch)
            (filter (fun r => time r0 <? time r) (raw_rows eeg_df)) /\
    (length a < n)%nat.
Proof. intros. eapply epoch_length_truncated; eassumption. Qed.

End ExtractorClaims.

(** ** Feature aggregator

    The class labels of notebook 01 are the integer codes 0 and 1, the keys
    of [event_types]; the rows of the power-bin table are therefore float64
    rows, on which [/] and [-] are numpy's operations. *)

Section FeatureClaims.

Context {V : Type} `{Float64 V}.
Variable bin_power : list V -> list pynum -> Z -> result (list V * list V).

(** C4: for every ordered boundary list [b0, ..., bn], [getIntervals]
    returns exactly the [n] consecutive pairs [(b0,b1), ..., (b(n-1),bn)];
    on a valid epoch table with at least one row the power-bin table then has,
    besides the label column [y], exactly one column per (channel, interval)
    pair, keyed [ch_(lo, hi)], all keys being distinct.  For the boundary list
    [0.5, 4, 7, 12, 30] these are the 4 intervals printed as [(0.5, 4)],
    [(4, 7)], [(7, 12)], [(12, 30)] for each channel. *)
Theorem one_column_per_channel_interval :
  (forall (binning : list pynum) (n : nat),
     strictly_increasing binning -> length binning = S n ->
     getIntervals binning = Ok (consecutive_pairs binning) /\
     length (consecutive_pairs binning) = n /\
     (forall i a b, nth_error binning i = Some a ->
                    nth_error binning (S i) = Some b ->
                    nth_error (consecutive_pairs binning) i = Some (a, b)) /\
     (forall (eeg_chans : list string) (df : DataFrame V Z),
        valid_epochs bin_power eeg_chans binning df -> NoDup eeg_chans ->
        (0 < nrows df)%nat ->
        exists prdf,
          power_ratios_df bin_power eeg_chans binning df = Ok prdf /\
          map fst (cols prdf) =
            "y" :: flat_map (fun ch => map (feature_key ch)
                                         (consecutive_pairs binning)) eeg_chans /\
          NoDup (map fst (cols prdf)) /\
          length (cols prdf) = (1 + length eeg_chans * n)%nat)) /\
  map str_interval (consecutive_pairs default_binning) =
    ["(0.5, 4)"; "(4, 7)"; "(7, 12)"; "(12, 30)"] /\
  all_keys default_eeg_chans (consecutive_pairs default_binning) =
    ["C3_(0.5, 4)"; "C3_(4, 7)"; "C3_(7, 12)"; "C3_(12, 30)";
     "Cz_(0.5, 4)"; "Cz_(4, 7)"; "Cz_(7, 12)"; "Cz_(12, 30)";
     "C4_(0.5, 4)"; "C4_(4, 7)"; "C4_(7, 12)"; "C4_(12, 30)"].
Proof.
  split; [|split; reflexivity].
  intros binning n Hs Hlen.
  split; [apply getIntervals_ok|].
  split; [rewrite consecutive_pairs_length, Hlen; lia|].
  split; [apply consecutive_pairs_nth|].
  intros eeg_chans df Hv Hnd Hn.
  exists (power_ratios_frame bin_power eeg_chans binning df).
  assert (Hk := power_ratios_frame_keys bin_power eeg_chans binning df Hnd Hs Hn).
  split; [apply power_ratios_df_frame; assumption|].
  split; [exact Hk|]. split.
  - unfold power_ratios_frame. cbn [cols]. apply power_ratios_D_nodup.
  - rewrite <- (length_map fst), Hk. cbn [length].
    rewrite all_keys_length, consecutive_pairs_length, Hlen. lia.
Qed.

(** C7: the band-ratio cell has no guard on the denominator.  On a table
    all of whose columns are numeric (so that its rows are float64 and the
    division is numpy's), whenever the theta and beta cells of every channel
    and row are floats, it returns normally and the value stored for channel
    [ch] in row [i] is the quotient [theta / beta] of the two cells, for every
    value of the beta cell; in particular, with a beta value of zero the
    stored value is the result of dividing by that zero.  (On a table with a
    column that is not numeric the division is Python's, which raises on a
    zero divisor; that is not covered here.) *)
Theorem theta_beta_division_unguarded (eeg_chans : list string)
    (df : DataFrame V Z) :
  NoDup eeg_chans ->
  numeric_frame df = true ->
  (forall ch i, In ch eeg_chans -> (i < nrows df)%nat ->
     has_float df (ch ++ "_(4, 7)")%string i /\
     has_float df (ch ++ "_(12, 30)")%string i) ->
  exists tb,
    theta_beta_ratios eeg_chans df = Ok tb /\
    (forall ch i t b, In ch eeg_chans -> (i < nrows df)%nat ->
       df_at df (ch ++ "_(4, 7)")%string i = Ok (CVal t) ->
       df_at df (ch ++ "_(12, 30)")%string i = Ok (CVal b) ->
       nth_error (col (ch ++ "_theta_beta")%string tb) i = Some (CVal (fdiv t b))) /\
    (forall ch i t, In ch eeg_chans -> (i < nrows df)%nat ->
       df_at df (ch ++ "_(4, 7)")%string i = Ok (CVal t) ->
       df_at df (ch ++ "_(12, 30)")%string i = Ok (CVal (of_Z 0)) ->
       nth_error (col (ch ++ "_theta_beta")%string tb) i =
       Some (CVal (fdiv t (of_Z 0)))).
Proof.
  intros Hnd _ Hf. eexists. split; [apply theta_beta_ratios_ok; exact Hf|].
  assert (G : forall ch i t b, In ch eeg_chans -> (i < nrows df)%nat ->
     df_at df (ch ++ "_(4, 7)")%string i = Ok (CVal t) ->
     df_at df (ch ++ "_(12, 30)")%string i = Ok (CVal b) ->
     nth_error (col (ch ++ "_theta_beta")%string
                  (row_table (fun ch => (ch ++ "_theta_beta")%string)
                     (theta_beta_value df) eeg_chans (seq 0 (nrows df)))) i =
     Some (CVal (fdiv t b))).
  { intros ch i t b Hch Hi Ht Hb.
    rewrite (row_table_col (fun ch => (ch ++ "_theta_beta")%string)
               (theta_beta_value df) eeg_chans (theta_beta_keys_nodup _ Hnd)
               (seq 0 (nrows df)) ch Hch).
    rewrite nth_error_map, (nth_error_seq0 _ _ Hi). cbn [option_map].
    unfold theta_beta_value.
    rewrite (float_at_val _ _ _ _ Ht), (float_at_val _ _ _ _ Hb). reflexivity. }
  split; [exact G|]. intros ch i t. apply G.
Qed.

(** C9: on the power-bin table of a valid epoch table (with channels C3 and
    C4 configured) the channel-difference cell returns normally; for every row
    and every configured interval its value is the C3 power-bin cell minus the
    C4 power-bin cell of that interval.  It only reads the power-bin table:
    in [feature_df] the columns of the power-bin table and of the band-ratio
    table are all still there, unchanged and in order, followed by the
    difference columns. *)
Theorem C3_C4_differences_alongside (eeg_chans : list string)
    (binning : list pynum) (df : DataFrame V Z) :
  valid_epochs bin_power eeg_chans binning df ->
  NoDup eeg_chans -> strictly_increasing binning ->
  In "C3" eeg_chans -> In "C4" eeg_chans ->
  exists prdf cd diff_df,
    power_ratios_df bin_power eeg_chans binning df = Ok prdf /\
    C3_C4_differences (consecutive_pairs binning) prdf = Ok cd /\
    pd_DataFrame cd = Ok diff_df /\
    (forall iv i, In iv (consecutive_pairs binning) -> (i < nrows prdf)%nat ->
       exists a b,
         df_at prdf ("C3_" ++ str_interval iv)%string i = Ok (CVal a) /\
         df_at prdf ("C4_" ++ str_interval iv)%string i = Ok (CVal b) /\
         df_at diff_df ("C3_C4_diff_" ++ str_interval iv)%string i =
           Ok (CVal (fsub a b))) /\
    (forall tb band,
       theta_beta_ratios eeg_chans prdf = Ok tb -> pd_DataFrame tb = Ok band ->
       feature_pipeline bin_power eeg_chans binning df =
         Ok {| ft_power_ratios_df := prdf;
               ft_band_ratios_df := band;
               ft_C3_C4_differences_df := diff_df;
               ft_feature_df := pd_concat [prdf; band; diff_df] |} /\
       cols (pd_concat [prdf; band; diff_df]) =
         cols prdf ++ cols band ++ cols diff_df).
Proof.
  intros Hv Hnd Hs HC3 HC4.
  set (prdf := power_ratios_frame bin_power eeg_chans binning df).
  set (ivs := consecutive_pairs binning).
  set (keyd := fun iv : interval => ("C3_C4_diff_" ++ str_interval iv)%string).
  set (cd := row_table keyd (C3_C4_value prdf) ivs (seq 0 (nrows prdf))).
  set (diff_df := {| nrows := match ivs with [] => 0%nat
                              | _ => length (seq 0 (nrows prdf)) end;
                     cols := cd |}).
  assert (Hivs : NoDup ivs) by (apply (intervals_nodup binning Hs)).
  assert (Hprdf : power_ratios_df bin_power eeg_chans binning df = Ok prdf)
    by (apply power_ratios_df_frame; assumption).
  assert (Hfl : forall iv i, In iv ivs -> (i < nrows prdf)%nat ->
            has_float prdf ("C3_" ++ str_interval iv)%string i /\
            has_float prdf ("C4_" ++ str_interval iv)%string i).
  { intros iv i Hiv Hi. split.
    - exact (power_ratios_frame_has_float bin_power eeg_chans binning df
               Hnd Hs "C3" iv i HC3 Hiv Hi).
    - exact (power_ratios_frame_has_float bin_power eeg_chans binning df
               Hnd Hs "C4" iv i HC4 Hiv Hi). }
  assert (Hcd : C3_C4_differences ivs prdf = Ok cd)
    by (apply C3_C4_differences_ok; exact Hfl).
  assert (Hdiff : pd_DataFrame cd = Ok diff_df)
    by (apply row_table_frame, C3_C4_keys_nodup, Hivs).
  exists prdf, cd, diff_df.
  split; [exact Hprdf|split; [exact Hcd|split; [exact Hdiff|split]]].
  - intros iv i Hiv Hi. destruct (Hfl iv i Hiv Hi) as [[a Ha] [b Hb]].
    exists a, b. split; [exact Ha|split; [exact Hb|]].
    apply df_at_col. cbn [cols diff_df]. unfold cd.
    rewrite (row_table_col keyd (C3_C4_value prdf) ivs
               (C3_C4_keys_nodup ivs Hivs) (seq 0 (nrows prdf)) iv Hiv).
    rewrite nth_error_map, (nth_error_seq0 _ _ Hi). cbn [option_map].
    unfold C3_C4_value.
    rewrite (float_at_val _ _ _ _ Ha), (float_at_val _ _ _ _ Hb). reflexivity.
  - intros tb band Htb Hband. split.
    + unfold feature_pipeline. rewrite getIntervals_ok. cbn [bind].
      rewrite Hprdf. cbn [bind]. rewrite Htb. cbn [bind]. rewrite Hband.
      cbn [bind]. fold ivs. rewrite Hcd. cbn [bind]. rewrite Hdiff. reflexivity.
    + pose proof (theta_beta_ratios_inv eeg_chans prdf tb Htb) as Etb.
      pose proof (row_table_frame (V:=V) (L:=Z)
                    (fun ch => (ch ++ "_theta_beta")%string)
                    (theta_beta_value prdf) eeg_chans (seq 0 (nrows prdf))
                    (theta_beta_keys_nodup _ Hnd)) as Hb'.
      rewrite <- Etb, Hband in Hb'. injection Hb' as ->.
      rewrite pd_concat_cols.
      * cbn [flat_map]. rewrite app_nil_r. reflexivity.
      * intros f k c Hf Hin.
        match goal with |- _ = ?m => assert (Hmax : m = nrows prdf) end.
        { cbn [map fold_right nrows diff_df prdf power_ratios_frame].
          rewrite !length_seq. destruct eeg_chans, ivs; lia. }
        rewrite Hmax. destruct Hf as [<-|[<-|[<-|[]]]].
        -- exact (power_ratios_frame_wf bin_power eeg_chans binning df
                    Hnd Hs k c Hin).
        -- cbn [cols] in Hin. rewrite Etb in Hin.
           rewrite (row_table_lengths _ _ _ (theta_beta_keys_nodup _ Hnd) _ k c Hin).
           apply length_seq.
        -- cbn [cols diff_df] in Hin. unfold cd in Hin.
           rewrite (row_table_lengths _ _ _ (C3_C4_keys_nodup ivs Hivs) _ k c Hin).
           apply length_seq.
Qed.

(** C10: the band-ratio cell looks up the fixed keys [ch_(4, 7)] and
    [ch_(12, 30)].  On the power-bin table of a valid epoch table with at
    least one row and at least one channel, it raises [KeyError] for the first
    channel's theta key when the intervals do not contain [(4, 7)], and for
    its beta key when they contain [(4, 7)] but not [(12, 30)]; it returns
    normally exactly when the boundary list produces both intervals, as the
    default [0.5, 4, 7, 12, 30] does. *)
Theorem theta_beta_needs_both_intervals (ch0 : string) (chans : list string)
    (binning : list pynum) (df : DataFrame V Z) :
  valid_epochs bin_power (ch0 :: chans) binning df ->
  NoDup (ch0 :: chans) -> strictly_increasing binning ->
  (0 < nrows df)%nat ->
  exists prdf,
    power_ratios_df bin_power (ch0 :: chans) binning df = Ok prdf /\
    (~ In (PyInt 4, PyInt 7) (consecutive_pairs binning) ->
       theta_beta_ratios (ch0 :: chans) prdf =
       Raise (KeyError (ch0 ++ "_(4, 7)")%string)) /\
    (In (PyInt 4, PyInt 7) (consecutive_pairs binning) ->
     ~ In (PyInt 12, PyInt 30) (consecutive_pairs binning) ->
       theta_beta_ratios (ch0 :: chans) prdf =
       Raise (KeyError (ch0 ++ "_(12, 30)")%string)) /\
    ((exists tb, theta_beta_ratios (ch0 :: chans) prdf = Ok tb) <->
     In (PyInt 4, PyInt 7) (consecutive_pairs binning) /\
     In (PyInt 12, PyInt 30) (consecutive_pairs binning)) /\
    In (PyInt 4, PyInt 7) (consecutive_pairs default_binning) /\
    In (PyInt 12, PyInt 30) (consecutive_pairs default_binning).
Proof.
  intros Hv Hnd Hs Hn.
  set (prdf := power_ratios_frame bin_power (ch0 :: chans) binning df).
  assert (Hrows : nrows prdf = S (pred (nrows df))) by (cbn [prdf nrows power_ratios_frame]; lia).
  assert (Hno7 : ~ In (PyInt 4, PyInt 7) (consecutive_pairs binning) ->
            theta_beta_ratios (ch0 :: chans) prdf =
            Raise (KeyError (ch0 ++ "_(4, 7)")%string)).
  { intros Hno. unfold theta_beta_ratios. rewrite Hrows. cbn [seq foldM].
    unfold theta_beta_chan at 1.
    change (ch0 ++ "_(4, 7)")%string with (feature_key ch0 (PyInt 4, PyInt 7)).
    unfold prdf at 1.
    rewrite (power_ratios_frame_missing bin_power (ch0 :: chans) binning df
               ch0 (PyInt 4, PyInt 7) 0 Hno).
    reflexivity. }
  assert (Hno30 : In (PyInt 4, PyInt 7) (consecutive_pairs binning) ->
            ~ In (PyInt 12, PyInt 30) (consecutive_pairs binning) ->
            theta_beta_ratios (ch0 :: chans) prdf =
            Raise (KeyError (ch0 ++ "_(12, 30)")%string)).
  { intros Hin Hno. unfold theta_beta_ratios. rewrite Hrows. cbn [seq foldM].
    unfold theta_beta_chan at 1.
    destruct (power_ratios_frame_has_float bin_power (ch0 :: chans) binning df
                Hnd Hs ch0 (PyInt 4, PyInt 7) 0 (or_introl eq_refl) Hin Hn)
      as [t Ht].
    change (ch0 ++ "_(4, 7)")%string with (feature_key ch0 (PyInt 4, PyInt 7)).
    change (ch0 ++ "_(12, 30)")%string with (feature_key ch0 (PyInt 12, PyInt 30)).
    fold prdf in Ht. rewrite Ht. cbn [bind]. unfold prdf at 1.
    rewrite (power_ratios_frame_missing bin_power (ch0 :: chans) binning df
               ch0 (PyInt 12, PyInt 30) 0 Hno).
    reflexivity. }
  assert (Hyes : In (PyInt 4, PyInt 7) (consecutive_pairs binning) ->
            In (PyInt 12, PyInt 30) (consecutive_pairs binning) ->
            exists tb, theta_beta_ratios (ch0 :: chans) prdf = Ok tb).
  { intros H7 H30. eexists. apply theta_beta_ratios_ok. intros ch i Hch Hi.
    split.
    - exact (power_ratios_frame_has_float bin_power (ch0 :: chans) binning df
               Hnd Hs ch (PyInt 4, PyInt 7) i Hch H7 Hi).
    - exact (power_ratios_frame_has_float bin_power (ch0 :: chans) binning df
               Hnd Hs ch (PyInt 12, PyInt 30) i Hch H30 Hi). }
  exists prdf.
  split; [apply power_ratios_df_frame; assumption|].
  split; [exact Hno7|]. split; [exact Hno30|]. split; [|split; simpl; auto 10].
  split.
  - intros [tb Htb].
    destruct (in_dec interval_eq_dec (PyInt 4, PyInt 7) (consecutive_pairs binning))
      as [H7|H7]; [|rewrite (Hno7 H7) in Htb; discriminate].
    destruct (in_dec interval_eq_dec (PyInt 12, PyInt 30) (consecutive_pairs binning))
      as [H30|H30]; [|rewrite (Hno30 H7 H30) in Htb; discriminate].
    auto.
  - intros [H7 H30]. auto.
Qed.

End FeatureClaims.

Section StatsClaims.

Context {V : Type} `{Float64 V}.
Variable bin_power : list V -> list pynum -> Z -> result (list V * list V).

(** C5: on a table with label column [y] and a float column for every
    (channel, interval) key, the statistics cell returns normally.  For every
    key and every class label [l] (the [e]-th key of [event_types]), let
    [data] be the column's values in the rows labelled [l] and [n] the number
    of those rows.  When no value of [data] is missing, the entry of
    [std_err_df] is the population standard deviation of [data] (squared
    deviations from the arithmetic mean, summed and divided by the count,
    square root taken) divided by the square root of [n], and the entry of
    [avg_df] is the arithmetic mean of [data].  When values are missing, the
    standard deviation and the mean are those of the values that are not
    missing, while the divisor stays the square root of the number [n] of
    rows of that label; when all are missing both entries are computed from
    NaN.  Dividing by the count minus one (the sample standard deviation) is
    not what is computed. *)
Theorem sem_is_population_std (event_types : list (Z * string))
    (eeg_chans : list string) (intervals : list interval)
    (df : DataFrame V Z) (ys : list Z) :
  NoDup (all_keys eeg_chans intervals) ->
  dict_get "y" (cols df) = Some (map (fun y => CLabel y) ys) ->
  (forall ch iv, In ch eeg_chans -> In iv intervals ->
     exists vs, dict_get (feature_key ch iv) (cols df) =
                  Some (map (fun v => CVal v) vs) /\
                length vs = length ys) ->
  exists std_err_df avg_df,
    std_err_avg_df Z.eqb event_types eeg_chans intervals df =
      Ok (std_err_df, avg_df) /\
    forall ch iv e l name vs,
      In ch eeg_chans -> In iv intervals ->
      nth_error event_types e = Some (l, name) ->
      dict_get (feature_key ch iv) (cols df) = Some (map (fun v => CVal v) vs) ->
      let data := class_values Z.eqb l ys vs in
      let n := length (filter (fun y => Z.eqb y l) ys) in
      length data = n /\
      (Forall (fun x => fis_nan x = false) data -> data <> [] ->
         df_at std_err_df (feature_key ch iv) e =
           Ok (CVal (fdiv (population_std data) (fsqrt (of_Z (Z.of_nat n))))) /\
         df_at avg_df (feature_key ch iv) e = Ok (CVal (arithmetic_mean data))) /\
      (dropna data <> [] ->
         df_at std_err_df (feature_key ch iv) e =
           Ok (CVal (fdiv (population_std (dropna data))
                          (fsqrt (of_Z (Z.of_nat n))))) /\
         df_at avg_df (feature_key ch iv) e =
           Ok (CVal (arithmetic_mean (dropna data)))) /\
      (dropna data = [] ->
         df_at std_err_df (feature_key ch iv) e =
           Ok (CVal (fdiv (fsqrt fnan) (fsqrt (of_Z (Z.of_nat n))))) /\
         df_at avg_df (feature_key ch iv) e = Ok (CVal fnan)).
Proof.
  intros Hnd Hy Hcols.
  assert (Hr : stats_ready eeg_chans intervals df).
  { split; [eauto|]. intros ch iv Hch Hiv.
    destruct (Hcols ch iv Hch Hiv) as [vs [Hvs _]]. eauto. }
  rewrite all_keys_pairs in Hnd.
  set (keyf := fun p : string * interval => feature_key (fst p) (snd p)) in *.
  eexists. eexists. split.
  - unfold std_err_avg_df. rewrite (stats_dicts_ok Z.eqb _ _ _ _ Hr).
    cbn [bind fst snd]. fold keyf.
    rewrite (row_table_frame keyf (sem_value Z.eqb df) _ _ Hnd). cbn [bind].
    rewrite (row_table_frame keyf (avg_value Z.eqb df) _ _ Hnd). cbn [bind].
    reflexivity.
  - intros ch iv e l name vs Hch Hiv He Hvs data n.
    assert (Hp : In (ch, iv) (pairs_of eeg_chans intervals))
      by (apply in_pairs_of; assumption).
    assert (Hl : nth_error (map fst event_types) e = Some l)
      by (rewrite nth_error_map, He; reflexivity).
    destruct (Hcols ch iv Hch Hiv) as [vs' [Hvs' Hlen]].
    assert (vs' = vs).
    { rewrite Hvs in Hvs'. injection Hvs' as E.
      clear -E. revert vs' E. induction vs as [|v vs IH]; intros [|v' vs'] E;
        try discriminate; [reflexivity|].
      injection E as -> E. f_equal. apply IH. exact E. }
    subst vs'.
    pose proof (this_data_class Z.eqb df l (feature_key ch iv) ys vs Hy Hvs) as Hd.
    fold data in Hd.
    assert (Hn : length data = n) by (apply class_values_length; exact Hlen).
    assert (Hsem : df_at
              {| nrows := match pairs_of eeg_chans intervals with
                          | [] => 0%nat
                          | _ => length (map fst event_types)
                          end;
                 cols := row_table keyf (sem_value Z.eqb df)
                           (pairs_of eeg_chans intervals) (map fst event_types) |}
              (feature_key ch iv) e =
            Ok (CVal (fdiv (np_std data) (fsqrt (of_Z (Z.of_nat n)))))).
    { apply df_at_col. cbn [cols].
      change (feature_key ch iv) with (keyf (ch, iv)).
      rewrite (row_table_col keyf (sem_value Z.eqb df) _ Hnd _ (ch, iv) Hp).
      rewrite nth_error_map, Hl. cbn [option_map].
      unfold sem_value. cbn [fst snd]. rewrite Hd, Hn. reflexivity. }
    assert (Havg : df_at
              {| nrows := match pairs_of eeg_chans intervals with
                          | [] => 0%nat
                          | _ => length (map fst event_types)
                          end;
                 cols := row_table keyf (avg_value Z.eqb df)
                           (pairs_of eeg_chans intervals) (map fst event_types) |}
              (feature_key ch iv) e =
            Ok (CVal (np_mean data))).
    { apply df_at_col. cbn [cols].
      change (feature_key ch iv) with (keyf (ch, iv)).
      rewrite (row_table_col keyf (avg_value Z.eqb df) _ Hnd _ (ch, iv) Hp).
      rewrite nth_error_map, Hl. cbn [option_map].
      unfold avg_value. cbn [fst snd]. rewrite Hd. reflexivity. }
    assert (Hpresent : dropna data <> [] ->
              np_std data = population_std (dropna data) /\
              np_mean data = arithmetic_mean (dropna data)).
    { intros Hne. split; [apply np_std_present|apply np_mean_present]; exact Hne. }
    split; [exact Hn|]. split; [|split].
    + intros Hall Hne. rewrite Hsem, Havg.
      pose proof (dropna_all data Hall) as Ed.
      destruct Hpresent as [E1 E2]; [rewrite Ed; exact Hne|].
      rewrite E1, E2, Ed. split; reflexivity.
    + intros Hne. rewrite Hsem, Havg.
      destruct (Hpresent Hne) as [E1 E2]. rewrite E1, E2. split; reflexivity.
    + intros Hnone. rewrite Hsem, Havg.
      rewrite (np_std_missing data Hnone), (np_mean_missing data Hnone).
      split; reflexivity.
Qed.

(** C8, as the code has it: an empty boundary list is not checked.
    [getIntervals] returns the empty interval list for it without raising and
    the power-bin loop proceeds: on an epoch table without rows it returns the
    interval-free table holding only the label column [y]; on a table with
    rows it returns such a table whenever pyeeg's routine returns, and if that
    routine raises on the first signal, its exception is what the cell
    raises. *)
Theorem empty_binning_is_not_rejected :
  getIntervals [] = Ok [] /\
  (forall (eeg_chans : list string) (df : DataFrame V Z),
     nrows df = 0%nat ->
     power_ratios_df bin_power eeg_chans [] df =
     Ok {| nrows := 0; cols := [("y", [])] |}) /\
  (forall (eeg_chans : list string) (df : DataFrame V Z),
     valid_epochs bin_power eeg_chans [] df ->
     exists prdf,
       power_ratios_df bin_power eeg_chans [] df = Ok prdf /\
       nrows prdf = nrows df /\
       map fst (cols prdf) = ["y"]) /\
  (forall (ch0 : string) (chans : list string) (df : DataFrame V Z)
          (y : cell V Z) (x : list V) (e : exn),
     (0 < nrows df)%nat ->
     df_at df "event_type" 0 = Ok y ->
     df_at df ch0 0 = Ok (CArr x) ->
     bin_power x [] 250 = Raise e ->
     power_ratios_df bin_power (ch0 :: chans) [] df = Raise e).
Proof.
  split; [reflexivity|]. split; [|split].
  - intros eeg_chans df Hn. unfold power_ratios_df, power_ratios_dict.
    rewrite Hn. reflexivity.
  - intros eeg_chans df Hv.
    assert (Hk : all_keys eeg_chans (consecutive_pairs []) = []).
    { unfold all_keys. clear Hv.
      induction eeg_chans as [|c cs IH]; [reflexivity | simpl; exact IH]. }
    assert (Hnd : NoDup (all_keys eeg_chans (consecutive_pairs []))).
    { rewrite Hk. constructor. }
    exists (power_ratios_frame bin_power eeg_chans [] df).
    split; [apply power_ratios_df_ok; assumption|]. split; [reflexivity|].
    destruct (nrows df) as [|n] eqn:Hn.
    + unfold power_ratios_frame, power_ratios_expected. rewrite Hn. reflexivity.
    + cbn [cols power_ratios_frame].
      rewrite (power_ratios_keys bin_power eeg_chans [] df Hnd) by lia.
      rewrite Hk. reflexivity.
  - intros ch0 chans df y x e Hn Hy Hx Hbp.
    unfold power_ratios_df, power_ratios_dict.
    destruct (nrows df) as [|n]; [lia|].
    cbn [getIntervals removelast enumerate length seq combine foldM bind].
    unfold power_ratios_row at 1. rewrite Hy. cbn [bind foldM].
    unfold power_ratios_chan at 1. rewrite Hx. cbn [bind as_array].
    unfold getPowerRatio. rewrite Hbp. reflexivity.
Qed.

End StatsClaims.

(* ================================================================== *)
(** * The claims at concrete inputs *)

Lemma synth_valid : valid_inputs synth_chans synth_eeg_df synth_event_df.
Proof.
  constructor.
  - vm_compute. apply le_n.
  - intros ch Hch. exact Hch.
  - repeat constructor; simpl; intuition discriminate.
  - simpl; intuition discriminate.
  - simpl; intuition discriminate.
Defined.

Lemma synth_uniform : uniformly_sampled synth_eeg_df 0 4.
Proof. vm_compute. reflexivity. Defined.

Lemma late_valid : valid_inputs synth_chans late_eeg_df late_event_df.
Proof.
  constructor.
  - vm_compute. apply le_n.
  - intros ch Hch. exact Hch.
  - repeat constructor; simpl; intuition discriminate.
  - simpl; intuition discriminate.
  - simpl; intuition discriminate.
Defined.

Lemma late_uniform : uniformly_sampled late_eeg_df 0 4.
Proof. vm_compute. reflexivity. Defined.

Lemma getEpochedDF_one_epoch_per_event_witness :
  valid_inputs synth_chans synth_eeg_df synth_event_df /\
  exists df,
    getEpochedDF synth_chans synth_eeg_df synth_event_df 4000 = Ok df /\
    nrows df = 2%nat /\
    col "event_type" (cols df) = [CLabel "left"; CLabel "right"] /\
    (forall i l, nth_error ["left"; "right"] i = Some l ->
                 df_at df "event_type" i = Ok (CLabel l)).
Proof.
  split; [exact synth_valid|].
  exact (getEpochedDF_one_epoch_per_event synth_chans synth_eeg_df
           synth_event_df 4000 synth_valid).
Defined.

Lemma getEpochedDF_window_witness :
  nth_error (start_rows synth_eeg_df) 1 = Some (synth_row 1000) /\
  exists df keep,
    getEpochedDF synth_chans synth_eeg_df synth_event_df 4000 = Ok df /\
    (forall r, keep r = true <-> 4000 < time r /\ time r <= 8000) /\
    df_at df "C4" 1 =
      Ok (CArr (map (fun r => chan r "C4") (filter keep (raw_rows synth_eeg_df)))).
Proof.
  assert (H1 : nth_error (start_rows synth_eeg_df) 1 = Some (synth_row 1000))
    by (vm_compute; reflexivity).
  split; [exact H1|].
  refine (getEpochedDF_window synth_chans synth_eeg_df synth_event_df 4000 1
            (synth_row 1000) "C4" synth_valid H1 _ _).
  - simpl. lia.
  - simpl. auto.
Defined.

Lemma synth_in_range (i : nat) (r0 : raw_row Z) :
  (i < 2)%nat -> nth_error (start_rows synth_eeg_df) i = Some r0 ->
  time r0 + 4000 <= 0 + (Z.of_nat (length (raw_rows synth_eeg_df)) - 1) * 4.
Proof.
  intros Hi H. destruct i as [|[|i]]; [| |lia];
    vm_compute in H; injection H as <-; vm_compute; discriminate.
Defined.

Lemma epoch_length_is_nominal_witness :
  (exists df a,
     getEpochedDF synth_chans synth_eeg_df synth_event_df 4000 = Ok df /\
     nrows df = 2%nat /\
     df_at df "C3" 0 = Ok (CArr a) /\
     length a = 1000%nat) /\
  (exists df,
     getEpochedDF synth_chans synth_eeg_df synth_event_df 4000 = Ok df /\
     nrows df = 2%nat /\
     forall ch i, In ch synth_chans -> (i < 2)%nat ->
       exists a, df_at df ch i = Ok (CArr a) /\ length a = 1000%nat).
Proof.
  split.
  - refine (proj1 (@epoch_length_is_nominal Z string) synth_chans synth_eeg_df
              synth_event_df 4000 0 4 250 1000%nat 0%nat (synth_row 0) "C3"
              synth_valid synth_uniform _ _ _ _ _ _ _).
    + lia.
    + reflexivity.
    + reflexivity.
    + vm_compute; reflexivity.
    + simpl; lia.
    + vm_compute; discriminate.
    + simpl; auto.
  - refine (proj2 (@epoch_length_is_nominal Z string) synth_chans synth_eeg_df
              synth_event_df 0 "left" "right" synth_valid synth_uniform _ _).
    + reflexivity.
    + exact synth_in_range.
Defined.

Lemma epoch_truncated_not_padded_witness :
  0 + (Z.of_nat (length (raw_rows late_eeg_df)) - 1) * 4 < time (late_row 2000) + 4000 /\
  exists df a,
    getEpochedDF synth_chans late_eeg_df late_event_df 4000 = Ok df /\
    nrows df = 3%nat /\
    df_at df "C3" 2 = Ok (CArr a) /\
    a = map (fun r => chan r "C3")
            (filter (fun r => 8000 <? time r) (raw_rows late_eeg_df)) /\
    (length a < 1000)%nat.
Proof.
  split; [vm_compute; reflexivity|].
  refine (@epoch_truncated_not_padded Z string synth_chans late_eeg_df
            late_event_df 4000 0 4 250 1000%nat 2%nat (late_row 2000) "C3"
            late_valid late_uniform _ _ _ _ _ _ _).
  - lia.
  - reflexivity.
  - reflexivity.
  - vm_compute; reflexivity.
  - simpl; lia.
  - vm_compute; reflexivity.
  - simpl; auto.
Defined.

(** ** Feature aggregator *)

Lemma default_binning_increasing : strictly_increasing default_binning.
Proof. repeat constructor. Defined.

Lemma default_eeg_chans_nodup : NoDup default_eeg_chans.
Proof. repeat constructor; simpl; intuition discriminate. Defined.

Lemma demo_epochs_valid :
  valid_epochs flat_bin_power default_eeg_chans default_binning demo_epochs.
Proof.
  constructor.
  - intros i Hi. destruct i as [|[|i]]; [eexists; reflexivity ..|simpl in Hi; lia].
  - intros ch i Hch Hi.
    destruct i as [|[|i]]; [| |simpl in Hi; lia];
      destruct Hch as [<-|[<-|[<-|[]]]];
      eexists; eexists; repeat split; reflexivity.
Defined.

Lemma one_column_per_channel_interval_witness :
  strictly_increasing default_binning /\
  valid_epochs flat_bin_power default_eeg_chans default_binning demo_epochs /\
  exists prdf,
    power_ratios_df flat_bin_power default_eeg_chans default_binning demo_epochs
      = Ok prdf /\
    map fst (cols prdf) =
      "y" :: flat_map (fun ch => map (feature_key ch)
                                   (consecutive_pairs default_binning))
                      default_eeg_chans /\
    NoDup (map fst (cols prdf)) /\
    length (cols prdf) = (1 + length default_eeg_chans * 4)%nat.
Proof.
  split; [exact default_binning_increasing|].
  split; [exact demo_epochs_valid|].
  destruct (proj1 (@one_column_per_channel_interval sym _ flat_bin_power)
              default_binning 4%nat default_binning_increasing eq_refl)
    as [_ [_ [_ Hcols]]].
  apply (Hcols default_eeg_chans demo_epochs demo_epochs_valid
           default_eeg_chans_nodup).
  simpl. lia.
Defined.

Lemma zero_beta_floats (ch : string) (i : nat) :
  In ch ["C3"] -> (i < nrows zero_beta_df)%nat ->
  has_float zero_beta_df (ch ++ "_(4, 7)")%string i /\
  has_float zero_beta_df (ch ++ "_(12, 30)")%string i.
Proof.
  intros [<-|[]] Hi. destruct i as [|i]; [|simpl in Hi; lia].
  split; eexists; reflexivity.
Defined.

Lemma theta_beta_division_unguarded_witness :
  df_at zero_beta_df "C3_(12, 30)" 0 = Ok (CVal (SLit 0)) /\
  exists tb,
    theta_beta_ratios ["C3"] zero_beta_df = Ok tb /\
    nth_error (col "C3_theta_beta" tb) 0 = Some (CVal (SDiv (SLit 3) (SLit 0))).
Proof.
  split; [reflexivity|].
  destruct (@theta_beta_division_unguarded sym _ ["C3"] zero_beta_df)
    as [tb [Htb [_ Hzero]]].
  - repeat constructor; simpl; intuition discriminate.
  - reflexivity.
  - exact zero_beta_floats.
  - exists tb. split; [exact Htb|].
    apply (Hzero "C3" 0%nat (SLit 3)).
    + simpl; auto.
    + simpl; lia.
    + reflexivity.
    + reflexivity.
Defined.

Lemma stats_df_columns (ch : string) (iv : interval) :
  In ch ["C3"] -> In iv [(PyInt 4, PyInt 7)] ->
  exists vs,
    dict_get (feature_key ch iv) (cols stats_df) = Some (map (fun v => CVal v) vs) /\
    length vs = length [0; 1; 0].
Proof.
  intros [<-|[]] [<-|[]]. exists [SLit 2; SLit 5; SLit 4]. split; reflexivity.
Defined.

Lemma nan_stats_df_columns (ch : string) (iv : interval) :
  In ch ["C3"] -> In iv [(PyInt 4, PyInt 7)] ->
  exists vs,
    dict_get (feature_key ch iv) (cols nan_stats_df) =
      Some (map (fun v => CVal v) vs) /\
    length vs = length [0; 0; 0; 0].
Proof.
  intros [<-|[]] [<-|[]]. exists [SLit 1; SLit 3; SNaN; SNaN]. split; reflexivity.
Defined.

Lemma sem_is_population_std_witness :
  (exists std_err_df avg_df,
     std_err_avg_df Z.eqb demo_event_types ["C3"] [(PyInt 4, PyInt 7)] stats_df =
       Ok (std_err_df, avg_df) /\
     df_at std_err_df "C3_(4, 7)" 0 =
       Ok (CVal (SDiv (population_std [SLit 2; SLit 4]) (SSqrt (SLit 2)))) /\
     df_at avg_df "C3_(4, 7)" 0 = Ok (CVal (arithmetic_mean [SLit 2; SLit 4])) /\
     df_at std_err_df "C3_(4, 7)" 1 =
       Ok (CVal (SDiv (population_std [SLit 5]) (SSqrt (SLit 1))))) /\
  (exists std_err_df avg_df,
     std_err_avg_df Z.eqb [(0, "left")] ["C3"] [(PyInt 4, PyInt 7)] nan_stats_df =
       Ok (std_err_df, avg_df) /\
     df_at std_err_df "C3_(4, 7)" 0 =
       Ok (CVal (SDiv (population_std [SLit 1; SLit 3]) (SSqrt (SLit 4)))) /\
     df_at avg_df "C3_(4, 7)" 0 = Ok (CVal (arithmetic_mean [SLit 1; SLit 3]))).
Proof.
  split.
  - destruct (@sem_is_population_std sym _ demo_event_types ["C3"]
                [(PyInt 4, PyInt 7)] stats_df [0; 1; 0])
      as [se [av [Hok Hall]]].
    + repeat constructor; simpl; intuition discriminate.
    + reflexivity.
    + exact stats_df_columns.
    + exists se, av. split; [exact Hok|].
      destruct (Hall "C3" (PyInt 4, PyInt 7) 0%nat 0 "left"
                  [SLit 2; SLit 5; SLit 4]) as [_ [H0 _]];
        [simpl; auto | simpl; auto | reflexivity | reflexivity |].
      destruct (Hall "C3" (PyInt 4, PyInt 7) 1%nat 1 "right"
                  [SLit 2; SLit 5; SLit 4]) as [_ [H1 _]];
        [simpl; auto | simpl; auto | reflexivity | reflexivity |].
      destruct H0 as [H0s H0a]; [repeat constructor | discriminate |].
      destruct H1 as [H1s _]; [repeat constructor | discriminate |].
      split; [exact H0s|]. split; [exact H0a|exact H1s].
  - destruct (@sem_is_population_std sym _ [(0, "left")] ["C3"]
                [(PyInt 4, PyInt 7)] nan_stats_df [0; 0; 0; 0])
      as [se [av [Hok Hall]]].
    + repeat constructor; simpl; intuition discriminate.
    + reflexivity.
    + exact nan_stats_df_columns.
    + exists se, av. split; [exact Hok|].
      destruct (Hall "C3" (PyInt 4, PyInt 7) 0%nat 0 "left"
                  [SLit 1; SLit 3; SNaN; SNaN]) as [_ [_ [H0 _]]];
        [simpl; auto | simpl; auto | reflexivity | reflexivity |].
      apply H0. discriminate.
Defined.

Lemma C3_C4_differences_alongside_witness :
  exists prdf cd diff_df,
    power_ratios_df flat_bin_power default_eeg_chans default_binning demo_epochs
      = Ok prdf /\
    C3_C4_differences (consecutive_pairs default_binning) prdf = Ok cd /\
    pd_DataFrame cd = Ok diff_df /\
    (forall iv i, In iv (consecutive_pairs default_binning) -> (i < nrows prdf)%nat ->
       exists a b,
         df_at prdf ("C3_" ++ str_interval iv)%string i = Ok (CVal a) /\
         df_at prdf ("C4_" ++ str_interval iv)%string i = Ok (CVal b) /\
         df_at diff_df ("C3_C4_diff_" ++ str_interval iv)%string i =
           Ok (CVal (fsub a b))) /\
    (forall tb band,
       theta_beta_ratios default_eeg_chans prdf = Ok tb ->
       pd_DataFrame tb = Ok band ->
       feature_pipeline flat_bin_power default_eeg_chans default_binning demo_epochs =
         Ok {| ft_power_ratios_df := prdf;
               ft_band_ratios_df := band;
               ft_C3_C4_differences_df := diff_df;
               ft_feature_df := pd_concat [prdf; band; diff_df] |} /\
       cols (pd_concat [prdf; band; diff_df]) =
         cols prdf ++ cols band ++ cols diff_df).
Proof.
  exact (@C3_C4_differences_alongside sym _ flat_bin_power default_eeg_chans
           default_binning demo_epochs demo_epochs_valid default_eeg_chans_nodup
           default_binning_increasing (or_introl eq_refl)
           (or_intror (or_intror (or_introl eq_refl)))).
Defined.

Lemma theta_beta_needs_both_intervals_witness :
  exists prdf,
    power_ratios_df flat_bin_power ("C3" :: ["Cz"; "C4"]) default_binning
      demo_epochs = Ok prdf /\
    (~ In (PyInt 4, PyInt 7) (consecutive_pairs default_binning) ->
       theta_beta_ratios ("C3" :: ["Cz"; "C4"]) prdf =
       Raise (KeyError "C3_(4, 7)")) /\
    (In (PyInt 4, PyInt 7) (consecutive_pairs default_binning) ->
     ~ In (PyInt 12, PyInt 30) (consecutive_pairs default_binning) ->
       theta_beta_ratios ("C3" :: ["Cz"; "C4"]) prdf =
       Raise (KeyError "C3_(12, 30)")) /\
    ((exists tb, theta_beta_ratios ("C3" :: ["Cz"; "C4"]) prdf = Ok tb) <->
     In (PyInt 4, PyInt 7) (consecutive_pairs default_binning) /\
     In (PyInt 12, PyInt 30) (consecutive_pairs default_binning)) /\
    In (PyInt 4, PyInt 7) (consecutive_pairs default_binning) /\
    In (PyInt 12, PyInt 30) (consecutive_pairs default_binning).
Proof.
  apply (@theta_beta_needs_both_intervals sym _ flat_bin_power "C3"
           ["Cz"; "C4"] default_binning demo_epochs demo_epochs_valid
           default_eeg_chans_nodup default_binning_increasing).
  simpl. lia.
Defined.

Lemma demo_epochs_valid_empty :
  valid_epochs flat_bin_power default_eeg_chans [] demo_epochs.
Proof.
  constructor.
  - intros i Hi. destruct i as [|[|i]]; [eexists; reflexivity ..|simpl in Hi; lia].
  - intros ch i Hch Hi.
    destruct i as [|[|i]]; [| |simpl in Hi; lia];
      destruct Hch as [<-|[<-|[<-|[]]]];
      eexists; eexists; repeat split; reflexivity.
Defined.

Lemma empty_binning_is_not_rejected_witness :
  (nrows no_epochs = 0%nat /\
   power_ratios_df strict_bin_power default_eeg_chans [] no_epochs =
   Ok {| nrows := 0; cols := [("y", [])] |}) /\
  (valid_epochs flat_bin_power default_eeg_chans [] demo_epochs /\
   exists prdf,
     power_ratios_df flat_bin_power default_eeg_chans [] demo_epochs = Ok prdf /\
     nrows prdf = nrows demo_epochs /\
     map fst (cols prdf) = ["y"]) /\
  (strict_bin_power [SLit 1; SLit 2] [] 250 = Raise ValueError /\
   power_ratios_df strict_bin_power ("C3" :: ["Cz"; "C4"]) [] demo_epochs =
   Raise ValueError).
Proof.
  split; [|split].
  - split; [reflexivity|].
    exact (proj1 (proj2 (@empty_binning_is_not_rejected sym _ strict_bin_power))
             default_eeg_chans no_epochs eq_refl).
  - split; [exact demo_epochs_valid_empty|].
    exact (proj1 (proj2 (proj2
             (@empty_binning_is_not_rejected sym _ flat_bin_power)))
             default_eeg_chans demo_epochs demo_epochs_valid_empty).
  - split; [reflexivity|].
    refine (proj2 (proj2 (proj2
              (@empty_binning_is_not_rejected sym _ strict_bin_power)))
              "C3" ["Cz"; "C4"] demo_epochs (CLabel 0) [SLit 1; SLit 2]
              ValueError _ _ _ _).
    + simpl; lia.
    + reflexivity.
    + reflexivity.
    + reflexivity.
Defined.

(** An empty boundary list on an epoch table without rows: nothing is
    raised, and the result is the interval-free table. *)
Lemma empty_binning_fails_fast_counterexample :
  ~ (exists e, getIntervals [] = Raise e) /\
  ~ (exists e, power_ratios_df strict_bin_power default_eeg_chans [] no_epochs
               = Raise e) /\
  power_ratios_df strict_bin_power default_eeg_chans [] no_epochs =
  Ok {| nrows := 0; cols := [("y", [])] |}.
Proof.
  split; [intros [e He]; discriminate|].
  split; [intros [e He]; discriminate|reflexivity].
Qed.

(** ** Concrete runs *)

(** The end-to-end scenario of the specification, evaluated. *)
Example synth_epochs_run :
  match getEpochedDF synth_chans synth_eeg_df synth_event_df 4000 with
  | Ok df =>
      nrows df = 2%nat /\
      col "event_type" (cols df) = [CLabel "left"; CLabel "right"] /\
      col "start_time" (cols df) = [CNum 0; CNum 4000] /\
      map (fun c => match c with CArr a => length a | _ => 0%nat end)
          (col "C3" (cols df) ++ col "C4" (cols df)) =
        [1000; 1000; 1000; 1000]%nat
  | Raise _ => False
  end.
Proof. vm_compute. repeat split. Qed.

(** More events than start markers: the extractor raises. *)
Example too_many_events_run :
  getEpochedDF synth_chans synth_eeg_df
    {| EventType := ["left"; "right"; "left"] |} 4000 = Raise IndexError.
Proof. vm_compute. reflexivity. Qed.

(** A binning without the (4, 7) interval: the band-ratio cell raises on the
    first channel's theta key. *)
Example non_default_binning_run :
  match power_ratios_df flat_bin_power default_eeg_chans
          [PyInt 1; PyInt 8; PyInt 30] demo_epochs with
  | Ok prdf => theta_beta_ratios default_eeg_chans prdf
  | Raise e => Raise e
  end = Raise (KeyError "C3_(4, 7)").
Proof. vm_compute. reflexivity. Qed.

(** The default boundaries written as floats print as [(4.0, 7.0)], so the
    fixed key [C3_(4, 7)] is missing as well. *)
Example float_binning_run :
  match power_ratios_df flat_bin_power default_eeg_chans
          [PyFloat false 0 (Decimal.D5 Decimal.Nil);
           PyFloat false 4 (Decimal.D0 Decimal.Nil);
           PyFloat false 7 (Decimal.D0 Decimal.Nil);
           PyFloat false 12 (Decimal.D0 Decimal.Nil);
           PyFloat false 30 (Decimal.D0 Decimal.Nil)] demo_epochs with
  | Ok prdf =>
      (map fst (cols prdf), theta_beta_ratios default_eeg_chans prdf)
  | Raise e => ([], Raise e)
  end =
  (["y";
    "C3_(0.5, 4.0)"; "C3_(4.0, 7.0)"; "C3_(7.0, 12.0)"; "C3_(12.0, 30.0)";
    "Cz_(0.5, 4.0)"; "Cz_(4.0, 7.0)"; "Cz_(7.0, 12.0)"; "Cz_(12.0, 30.0)";
    "C4_(0.5, 4.0)"; "C4_(4.0, 7.0)"; "C4_(7.0, 12.0)"; "C4_(12.0, 30.0)"],
   Raise (KeyError "C3_(4, 7)")).
Proof. vm_compute. reflexivity. Qed.

(** The whole feature pipeline on the demonstration table. *)
Example feature_pipeline_run :
  match feature_pipeline flat_bin_power default_eeg_chans default_binning
          demo_epochs with
  | Ok ft =>
      nrows (ft_feature_df ft) = 2%nat /\
      map fst (cols (ft_feature_df ft)) =
        ["y";
         "C3_(0.5, 4)"; "C3_(4, 7)"; "C3_(7, 12)"; "C3_(12, 30)";
         "Cz_(0.5, 4)"; "Cz_(4, 7)"; "Cz_(7, 12)"; "Cz_(12, 30)";
         "C4_(0.5, 4)"; "C4_(4, 7)"; "C4_(7, 12)"; "C4_(12, 30)";
         "C3_theta_beta"; "Cz_theta_beta"; "C4_theta_beta";
         "C3_C4_diff_(0.5, 4)"; "C3_C4_diff_(4, 7)"; "C3_C4_diff_(7, 12)";
         "C3_C4_diff_(12, 30)"]
  | Raise _ => False
  end.
Proof. vm_compute. split; reflexivity. Qed.

(** Population and sample standard deviation are different computations:
    they divide by 2 and by 1 on a two-element column. *)
Example population_is_not_sample_std :
  population_std [SLit 2; SLit 4] <> sample_std [SLit 2; SLit 4].
Proof. vm_compute. discriminate. Qed.

(* ================================================================== *)
(** * Further properties of the notebooks' code *)

(** ** Notebook 00 *)

Section ExtractorExtras.

Context {V L : Type}.

(** X1: [getDF], given as many time pairs and epochs as labels, every epoch
    holding one array per channel, and distinct channel names other than the
    two bookkeeping columns, returns a frame with one row per label; row [i]
    holds the first component of [times[i]] as start time (the end time is
    not stored), the [i]-th label, and under every channel name the array
    [epochs[i][c]] of that channel's position [c]. *)
Theorem getDF_builds_one_row_per_label (epochs : list (list (list V)))
    (labels : list L) (times : list (Z * Z)) (chans : list string) :
  length times = length labels ->
  length epochs = length labels ->
  Forall (fun e => length e = length chans) epochs ->
  NoDup chans -> ~ In "start_time" chans -> ~ In "event_type" chans ->
  exists df,
    getDF epochs labels times chans = Ok df /\
    nrows df = length labels /\
    forall i l t e, nth_error labels i = Some l -> nth_error times i = Some t ->
      nth_error epochs i = Some e ->
      df_at df "event_type" i = Ok (CLabel l) /\
      df_at df "start_time" i = Ok (CNum (fst t)) /\
      forall c ch a, nth_error chans c = Some ch -> nth_error e c = Some a ->
        df_at df ch i = Ok (CArr a).
Proof.
  intros Ht He Hep Hnd Hst Het.
  destruct (getDF_spec epochs labels times chans Ht He Hep Hnd Hst Het)
    as [df [Hdf [Hrows [Hlab [Htime Hchan]]]]].
  exists df. split; [exact Hdf|split; [exact Hrows|]].
  intros i l t e Hl Hti Hei. split; [|split].
  - apply df_at_col. rewrite Hlab, nth_error_map, Hl. reflexivity.
  - apply df_at_col. rewrite Htime, nth_error_map, Hti. reflexivity.
  - intros c ch a Hc Ha. apply df_at_col.
    rewrite (Hchan c ch Hc), nth_error_map, Hei. cbn [option_map].
    rewrite (nth_error_nth _ _ [] Ha). reflexivity.
Qed.

(** X2: events and start markers are paired by position: on valid inputs
    the row of the [i]-th event holds the [i]-th label of the event table
    together with the timestamp of the [i]-th row flagged [EventStart == 1],
    whatever the labels and timestamps are. *)
Theorem getEpochedDF_pairs_by_position (all_chans : list string)
    (eeg_df : raw_df V) (event_df : events_df L) (trial_duration_ms : Z)
    (i : nat) (l : L) (r0 : raw_row V) :
  valid_inputs all_chans eeg_df event_df ->
  nth_error (EventType event_df) i = Some l ->
  nth_error (start_rows eeg_df) i = Some r0 ->
  exists df,
    getEpochedDF all_chans eeg_df event_df trial_duration_ms = Ok df /\
    df_at df "event_type" i = Ok (CLabel l) /\
    df_at df "start_time" i = Ok (CNum (time r0)).
Proof.
  intros Hv Hl Hr.
  destruct (getEpochedDF_spec all_chans eeg_df event_df trial_duration_ms Hv)
    as [df [Hdf [_ [Hlab [Htime _]]]]].
  exists df. split; [exact Hdf|]. split.
  - apply df_at_col. rewrite Hlab, nth_error_map, Hl. reflexivity.
  - apply df_at_col. rewrite Htime, nth_error_map, nth_error_firstn.
    assert (Hi : (i < length (EventType event_df))%nat)
      by (apply nth_error_Some; congruence).
    destruct (Nat.ltb_spec i (length (EventType event_df))); [|lia].
    rewrite Hr. reflexivity.
Qed.

(** X3: with more events than rows flagged as trial starts the extractor
    raises [IndexError] (from [start_df.iloc[i]]) and returns no frame at all,
    not even for the events that do have a start marker. *)
Theorem getEpochedDF_too_few_start_markers (all_chans : list string)
    (eeg_df : raw_df V) (event_df : events_df L) (trial_duration_ms : Z) :
  (forall ch, In ch all_chans -> In ch (raw_columns eeg_df)) ->
  (length (start_rows eeg_df) < length (EventType event_df))%nat ->
  getEpochedDF all_chans eeg_df event_df trial_duration_ms = Raise IndexError.
Proof.
  intros Hch Hlt. unfold getEpochedDF, enumerate.
  set (m := length (start_rows eeg_df)) in *.
  set (evs := EventType event_df) in *.
  rewrite <- (firstn_skipn m evs).
  assert (Hm : length (firstn m evs) = m) by (rewrite length_firstn; lia).
  destruct (skipn m evs) as [|ev rest] eqn:Hs.
  { exfalso. apply (f_equal (@length L)) in Hs. rewrite length_skipn in Hs.
    simpl in Hs. lia. }
  rewrite combine_seq_app, foldM_app.
  rewrite (getEpochedDF_loop all_chans eeg_df trial_duration_ms (firstn m evs)
             Hch (start_rows eeg_df) 0 [] [] []).
  - cbn [bind app length seq combine foldM].
    unfold getEpochedDF_step at 1. unfold iloc. cbn [mask raw_rows].
    fold (start_rows eeg_df). unfold index.
    assert (Hn : nth_error (start_rows eeg_df) (0 + length (firstn m evs)) = None).
    { apply nth_error_None. rewrite Hm. unfold m. cbn [Nat.add]. lia. }
    rewrite Hn. reflexivity.
  - rewrite Hm. reflexivity.
  - intros j r Hj. exact Hj.
Qed.

(** X4: if a configured channel is not a column of the recording, the
    extractor raises [KeyError] naming the first such channel of [all_chans]
    (provided there is at least one event and one start marker). *)
Theorem getEpochedDF_missing_channel (pre post : list string) (ch : string)
    (eeg_df : raw_df V) (event_df : events_df L) (trial_duration_ms : Z) :
  (forall c, In c pre -> In c (raw_columns eeg_df)) ->
  ~ In ch (raw_columns eeg_df) ->
  EventType event_df <> [] -> start_rows eeg_df <> [] ->
  getEpochedDF (pre ++ ch :: post) eeg_df event_df trial_duration_ms =
  Raise (KeyError ch).
Proof.
  intros Hpre Hch Hev Hst. unfold getEpochedDF, enumerate.
  destruct (EventType event_df) as [|ev evs]; [contradiction|].
  destruct (start_rows eeg_df) as [|r0 rs] eqn:Hrs; [contradiction|].
  cbn [length seq combine foldM].
  unfold getEpochedDF_step at 1. unfold iloc. cbn [mask raw_rows].
  fold (start_rows eeg_df). rewrite Hrs. cbn [index nth_error bind].
  rewrite (mapM_app_fail _ pre post ch _ (KeyError ch)
             (mapM_raw_getitem _ eeg_df pre Hpre)).
  - reflexivity.
  - unfold raw_getitem. cbn [mask raw_columns].
    assert (E : existsb (String.eqb ch) (raw_columns eeg_df) = false).
    { destruct (existsb (String.eqb ch) (raw_columns eeg_df)) eqn:E; [|reflexivity].
      apply existsb_exists in E. destruct E as [c [Hc E]].
      apply String.eqb_eq in E. subst c. contradiction. }
    rewrite E. reflexivity.
Qed.

(** X5: the extractor does not check that trials are far enough apart.
    The rows that the epochs of two events [i] and [j] both contain are
    exactly the rows with a timestamp after both start times and no later
    than [trial_duration_ms] after the earlier of them; there are none when
    the second trial starts at least [trial_duration_ms] after the first. *)
Theorem getEpochedDF_shared_rows (all_chans : list string) (eeg_df : raw_df V)
    (event_df : events_df L) (trial_duration_ms : Z) (i j : nat)
    (ri rj : raw_row V) (ch : string) :
  valid_inputs all_chans eeg_df event_df ->
  nth_error (start_rows eeg_df) i = Some ri ->
  nth_error (start_rows eeg_df) j = Some rj ->
  (i < length (EventType event_df))%nat ->
  (j < length (EventType event_df))%nat ->
  In ch all_chans ->
  exists df keep_i keep_j,
    getEpochedDF all_chans eeg_df event_df trial_duration_ms = Ok df /\
    df_at df ch i =
      Ok (CArr (map (fun r => chan r ch) (filter keep_i (raw_rows eeg_df)))) /\
    df_at df ch j =
      Ok (CArr (map (fun r => chan r ch) (filter keep_j (raw_rows eeg_df)))) /\
    (forall r, keep_i r = true /\ keep_j r = true <->
       Z.max (time ri) (time rj) < time r /\
       time r <= Z.min (time ri) (time rj) + trial_duration_ms) /\
    (time ri + trial_duration_ms <= time rj ->
       forall r, ~ (keep_i r = true /\ keep_j r = true)).
Proof.
  intros Hv Hi Hj Hli Hlj Hch.
  destruct (getEpochedDF_cell all_chans eeg_df event_df trial_duration_ms
              i ri ch Hv Hi Hli Hch) as [df [Hdf [_ Hci]]].
  destruct (getEpochedDF_cell all_chans eeg_df event_df trial_duration_ms
              j rj ch Hv Hj Hlj Hch) as [df' [Hdf' [_ Hcj]]].
  rewrite Hdf in Hdf'. injection Hdf' as <-.
  exists df, (in_window (time ri) (time ri + trial_duration_ms)),
         (in_window (time rj) (time rj + trial_duration_ms)).
  split; [exact Hdf|split; [exact Hci|split; [exact Hcj|]]].
  assert (G : forall r : raw_row V,
            in_window (time ri) (time ri + trial_duration_ms) r = true /\
            in_window (time rj) (time rj + trial_duration_ms) r = true <->
            Z.max (time ri) (time rj) < time r /\
            time r <= Z.min (time ri) (time rj) + trial_duration_ms).
  { intros r. unfold in_window.
    rewrite !andb_true_iff, !Z.ltb_lt, !Z.leb_le. lia. }
  split; [exact G|].
  intros Hfar r Hboth. apply G in Hboth. lia.
Qed.

(** X6: in a recording sampled every [period] ms, an epoch of
    [n * period] ms is a slice by position: for a start marker at row
    position [p] the cell of every channel holds the samples of the rows at
    positions [p+1, ..., p+n], as far as the recording goes.  The sample at the
    start marker itself is not part of its epoch. *)
Theorem getEpochedDF_epoch_by_position (all_chans : list string)
    (eeg_df : raw_df V) (event_df : events_df L) (t0 period : Z) (n i p : nat)
    (r0 : raw_row V) (ch : string) :
  valid_inputs all_chans eeg_df event_df ->
  uniformly_sampled eeg_df t0 period -> 0 < period ->
  nth_error (start_rows eeg_df) i = Some r0 ->
  (i < length (EventType event_df))%nat ->
  time r0 = t0 + Z.of_nat p * period ->
  In ch all_chans ->
  exists df,
    getEpochedDF all_chans eeg_df event_df (Z.of_nat n * period) = Ok df /\
    nth_error (raw_rows eeg_df) p = Some r0 /\
    df_at df ch i =
      Ok (CArr (map (fun r => chan r ch)
                    (firstn n (skipn (S p) (raw_rows eeg_df))))).
Proof. intros. eapply epoch_by_position; eassumption. Qed.

(** X7: the cell "View continuous EEG + EOG data by timepoint" slices the
    channel column at positions [start_time_ms // 4] to
    [start_time_ms // 4 + 1000].  In a 250 Hz recording starting at time 0,
    called with the start time of a trial it shows the sample at the start
    marker followed by the first 999 samples of that trial's 4000 ms epoch:
    the view is the epoch moved one sample earlier. *)
Theorem view_timepoints_is_epoch_shifted (all_chans : list string)
    (eeg_df : raw_df V) (event_df : events_df L) (i : nat)
    (r0 : raw_row V) (ch : string) :
  valid_inputs all_chans eeg_df event_df ->
  uniformly_sampled eeg_df 0 4 ->
  nth_error (start_rows eeg_df) i = Some r0 ->
  (i < length (EventType event_df))%nat ->
  In ch all_chans ->
  exists df a,
    getEpochedDF all_chans eeg_df event_df 4000 = Ok df /\
    df_at df ch i = Ok (CArr a) /\
    view_timepoints eeg_df ch (time r0) = Ok (chan r0 ch :: firstn 999 a).
Proof.
  intros Hv Hu Hi Hlt Hch.
  assert (Hin : In r0 (raw_rows eeg_df)) by exact (start_row_in eeg_df i r0 Hi).
  destruct (uniform_time_in eeg_df 0 4 r0 Hu Hin) as [p [Hp Ht]].
  destruct (epoch_by_position all_chans eeg_df event_df 0 4
              1000 i p r0 ch Hv Hu) as [df [Hdf [Hnth Hcell]]];
    try assumption; try lia.
  change (Z.of_nat 1000 * 4) with 4000 in Hdf.
  exists df, (map (fun r => chan r ch) (firstn 1000 (skipn (S p) (raw_rows eeg_df)))).
  split; [exact Hdf|split; [exact Hcell|]].
  unfold view_timepoints, raw_getitem.
  assert (E : existsb (String.eqb ch) (raw_columns eeg_df) = true).
  { apply existsb_exists. exists ch.
    split; [exact (chans_present _ _ _ Hv ch Hch) | apply String.eqb_refl]. }
  rewrite E. cbn [bind]. f_equal.
  set (vals := map (fun r => chan r ch) (raw_rows eeg_df)).
  assert (Hdiv : time r0 / 4 = Z.of_nat p).
  { rewrite Ht. cbn [Z.add]. apply Z.div_mul. lia. }
  rewrite Hdiv. unfold py_slice, slice_bound.
  assert (Hlen : length vals = length (raw_rows eeg_df)) by apply length_map.
  destruct (Z.ltb_spec (Z.of_nat p) 0); [lia|].
  destruct (Z.ltb_spec (Z.of_nat p + 1000) 0); [lia|].
  rewrite Nat2Z.id, Hlen.
  replace (Nat.min p (length (raw_rows eeg_df))) with p by lia.
  assert (Hsk : skipn p vals = chan r0 ch :: skipn (S p) vals).
  { apply skipn_nth_error. unfold vals. rewrite nth_error_map, Hnth. reflexivity. }
  rewrite Hsk.
  replace (Nat.min (Z.to_nat (Z.of_nat p + 1000)) (length (raw_rows eeg_df)) - p)%nat
    with (S (Nat.min 999 (length (skipn (S p) vals)))).
  2:{ rewrite length_skipn, Hlen. lia. }
  rewrite firstn_cons. f_equal.
  rewrite firstn_min_length, <- firstn_map, firstn_firstn.
  unfold vals. rewrite skipn_map. reflexivity.
Qed.

End ExtractorExtras.

Lemma getDF_builds_one_row_per_label_witness :
  exists df,
    getDF [[[1; 2]; [3; 4]]] ["left"] [(0, 4000)] ["C3"; "C4"] = Ok df /\
    nrows df = 1%nat /\
    forall i l t e, nth_error ["left"] i = Some l ->
      nth_error [(0, 4000)] i = Some t ->
      nth_error [[[1; 2]; [3; 4]]] i = Some e ->
      df_at df "event_type" i = Ok (CLabel l) /\
      df_at df "start_time" i = Ok (CNum (fst t)) /\
      forall c ch a, nth_error ["C3"; "C4"] c = Some ch -> nth_error e c = Some a ->
        df_at df ch i = Ok (CArr a).
Proof.
  apply (@getDF_builds_one_row_per_label Z string).
  - reflexivity.
  - reflexivity.
  - repeat constructor.
  - repeat constructor; simpl; intuition discriminate.
  - simpl; intuition discriminate.
  - simpl; intuition discriminate.
Defined.

Lemma synth_start_1 :
  nth_error (start_rows synth_eeg_df) 1 = Some (synth_row 1000).
Proof. vm_compute. reflexivity. Defined.

Lemma synth_start_0 :
  nth_error (start_rows synth_eeg_df) 0 = Some (synth_row 0).
Proof. vm_compute. reflexivity. Defined.

Lemma getEpochedDF_pairs_by_position_witness :
  exists df,
    getEpochedDF synth_chans synth_eeg_df synth_event_df 4000 = Ok df /\
    df_at df "event_type" 1 = Ok (CLabel "right") /\
    df_at df "start_time" 1 = Ok (CNum 4000).
Proof.
  exact (getEpochedDF_pairs_by_position synth_chans synth_eeg_df synth_event_df
           4000 1 "right" (synth_row 1000) synth_valid eq_refl synth_start_1).
Defined.

Lemma getEpochedDF_too_few_start_markers_witness :
  (length (start_rows synth_eeg_df) < length (EventType synth_event_df_3))%nat /\
  getEpochedDF synth_chans synth_eeg_df synth_event_df_3 4000 = Raise IndexError.
Proof.
  assert (H : (length (start_rows synth_eeg_df) <
               length (EventType synth_event_df_3))%nat)
    by (vm_compute; apply le_n).
  split; [exact H|].
  apply getEpochedDF_too_few_start_markers; [|exact H].
  intros ch Hch. exact Hch.
Defined.

Lemma getEpochedDF_missing_channel_witness :
  ~ In "Cz" (raw_columns synth_eeg_df) /\
  getEpochedDF (["C3"] ++ "Cz" :: ["C4"]) synth_eeg_df synth_event_df 4000 =
  Raise (KeyError "Cz").
Proof.
  assert (H : ~ In "Cz" (raw_columns synth_eeg_df))
    by (simpl; intuition discriminate).
  split; [exact H|].
  apply getEpochedDF_missing_channel.
  - intros c [<-|[]]. simpl. auto.
  - exact H.
  - discriminate.
  - vm_compute. discriminate.
Defined.

Lemma getEpochedDF_shared_rows_witness :
  exists df keep_i keep_j,
    getEpochedDF synth_chans synth_eeg_df synth_event_df 4000 = Ok df /\
    df_at df "C3" 0 =
      Ok (CArr (map (fun r => chan r "C3") (filter keep_i (raw_rows synth_eeg_df)))) /\
    df_at df "C3" 1 =
      Ok (CArr (map (fun r => chan r "C3") (filter keep_j (raw_rows synth_eeg_df)))) /\
    (forall r, keep_i r = true /\ keep_j r = true <->
       Z.max 0 4000 < time r /\ time r <= Z.min 0 4000 + 4000) /\
    (0 + 4000 <= 4000 -> forall r, ~ (keep_i r = true /\ keep_j r = true)).
Proof.
  refine (getEpochedDF_shared_rows synth_chans synth_eeg_df synth_event_df 4000
            0 1 (synth_row 0) (synth_row 1000) "C3" synth_valid synth_start_0
            synth_start_1 _ _ _).
  - simpl; lia.
  - simpl; lia.
  - simpl; auto.
Defined.

Lemma getEpochedDF_epoch_by_position_witness :
  exists df,
    getEpochedDF synth_chans synth_eeg_df synth_event_df (Z.of_nat 1000 * 4)
      = Ok df /\
    nth_error (raw_rows synth_eeg_df) 1000 = Some (synth_row 1000) /\
    df_at df "C4" 1 =
      Ok (CArr (map (fun r => chan r "C4")
                    (firstn 1000 (skipn 1001 (raw_rows synth_eeg_df))))).
Proof.
  refine (getEpochedDF_epoch_by_position synth_chans synth_eeg_df synth_event_df
            0 4 1000 1 1000 (synth_row 1000) "C4" synth_valid synth_uniform
            _ synth_start_1 _ _ _).
  - lia.
  - simpl; lia.
  - reflexivity.
  - simpl; auto.
Defined.

Lemma view_timepoints_is_epoch_shifted_witness :
  exists df a,
    getEpochedDF synth_chans synth_eeg_df synth_event_df 4000 = Ok df /\
    df_at df "C3" 1 = Ok (CArr a) /\
    view_timepoints synth_eeg_df "C3" 4000 = Ok (1000 :: firstn 999 a).
Proof.
  refine (view_timepoints_is_epoch_shifted synth_chans synth_eeg_df
            synth_event_df 1 (synth_row 1000) "C3" synth_valid synth_uniform
            synth_start_1 _ _).
  - simpl; lia.
  - simpl; auto.
Defined.

(** ** Notebook 01 *)

Section FeatureExtras.

Context {V : Type} `{Float64 V}.
Variable bin_power : list V -> list pynum -> Z -> result (list V * list V).

(** X8: the rows of the power-bin table follow the epochs: on a valid epoch
    table the table has as many rows as there are epochs, its [y] cell in row
    [i] is the label of epoch [i], and its cell for channel [ch] and the
    [j]-th interval in row [i] is the [j]-th power ratio pyeeg returns for
    the signal of channel [ch] in epoch [i]. *)
Theorem power_ratios_rows_follow_epochs (eeg_chans : list string)
    (binning : list pynum) (df : DataFrame V Z) :
  valid_epochs bin_power eeg_chans binning df ->
  NoDup eeg_chans -> strictly_increasing binning ->
  exists prdf,
    power_ratios_df bin_power eeg_chans binning df = Ok prdf /\
    nrows prdf = nrows df /\
    (forall i y, (i < nrows df)%nat ->
       df_at df "event_type" i = Ok y -> df_at prdf "y" i = Ok y) /\
    (forall i ch j iv x pp r, (i < nrows df)%nat -> In ch eeg_chans ->
       nth_error (consecutive_pairs binning) j = Some iv ->
       df_at df ch i = Ok (CArr x) ->
       bin_power x binning 250 = Ok pp ->
       nth_error (snd pp) j = Some r ->
       df_at prdf (feature_key ch iv) i = Ok (CVal r)).
Proof.
  intros Hv Hnd Hs.
  exists (power_ratios_frame bin_power eeg_chans binning df).
  split; [apply power_ratios_df_frame; assumption|]. split; [reflexivity|].
  split.
  - intros i y Hi Hy. apply power_ratios_frame_y; assumption.
  - intros i ch j iv x pp r Hi Hch Hj Hx Hbp Hr.
    eapply power_ratios_frame_ratio; eassumption.
Qed.

(** X9: a column the power-bin cell needs and the epoch table lacks shows
    as a [KeyError] naming it: ["event_type"] when the label column is
    missing, and otherwise the first configured channel that is not a column
    (for a table with at least one row). *)
Theorem power_ratios_missing_column :
  (forall (eeg_chans : list string) (binning : list pynum) (df : DataFrame V Z),
     (0 < nrows df)%nat ->
     dict_get "event_type" (cols df) = None ->
     power_ratios_df bin_power eeg_chans binning df =
     Raise (KeyError "event_type")) /\
  (forall (pre post : list string) (ch : string) (binning : list pynum)
          (df : DataFrame V Z),
     (0 < nrows df)%nat ->
     valid_epochs bin_power pre binning df ->
     dict_get ch (cols df) = None ->
     power_ratios_df bin_power (pre ++ ch :: post) binning df =
     Raise (KeyError ch)).
Proof.
  split.
  - intros eeg_chans binning df Hn Hy.
    unfold power_ratios_df, power_ratios_dict. rewrite getIntervals_ok.
    cbn [bind]. destruct (nrows df) as [|n]; [lia|]. cbn [seq foldM].
    unfold power_ratios_row at 1. unfold df_at at 1, dict_item. rewrite Hy.
    reflexivity.
  - intros pre post ch binning df Hn Hv Hch.
    unfold power_ratios_df, power_ratios_dict. rewrite getIntervals_ok.
    cbn [bind]. destruct (nrows df) as [|n] eqn:En; [lia|]. cbn [seq foldM].
    unfold power_ratios_row at 1.
    destruct (ve_label _ _ _ _ Hv 0%nat) as [y Hy]; [lia|].
    rewrite Hy. cbn [bind].
    erewrite foldM_app_fail.
    + reflexivity.
    + apply (foldM_pushes _
               (fun c => map (fun ji => (feature_key c (snd ji),
                                CVal (ratio_at bin_power df binning c 0 (fst ji))))
                             (enumerate (consecutive_pairs binning)))).
      intros c d Hc. apply (power_ratios_chan_pushes bin_power pre); [assumption..|lia].
    + unfold power_ratios_chan, df_at, dict_item. rewrite Hch. reflexivity.
Qed.

(** X11: the channel-difference cell names the channels C3 and C4 itself.
    On the power-bin table of a valid epoch table with at least one row and
    one interval it raises [KeyError] for the C3 key of the first interval when
    C3 is not among the configured channels, and for the C4 key when C3 is
    configured and C4 is not. *)
Theorem C3_C4_differences_needs_C3_and_C4 (eeg_chans : list string)
    (binning : list pynum) (df : DataFrame V Z) (iv0 : interval)
    (ivs : list interval) :
  valid_epochs bin_power eeg_chans binning df ->
  NoDup eeg_chans -> strictly_increasing binning ->
  (0 < nrows df)%nat ->
  consecutive_pairs binning = iv0 :: ivs ->
  exists prdf,
    power_ratios_df bin_power eeg_chans binning df = Ok prdf /\
    (~ In "C3" eeg_chans ->
       C3_C4_differences (consecutive_pairs binning) prdf =
       Raise (KeyError ("C3_" ++ str_interval iv0)%string)) /\
    (In "C3" eeg_chans -> ~ In "C4" eeg_chans ->
       C3_C4_differences (consecutive_pairs binning) prdf =
       Raise (KeyError ("C4_" ++ str_interval iv0)%string)).
Proof.
  intros Hv Hnd Hs Hn Hivs.
  set (prdf := power_ratios_frame bin_power eeg_chans binning df).
  assert (Hrows : nrows prdf = S (pred (nrows df)))
    by (cbn [prdf nrows power_ratios_frame]; lia).
  exists prdf. split; [apply power_ratios_df_frame; assumption|]. split.
  - intros HC3. unfold C3_C4_differences. rewrite Hrows, Hivs. cbn [seq foldM].
    unfold C3_C4_interval at 1.
    change ("C3_" ++ str_interval iv0)%string with (feature_key "C3" iv0).
    unfold prdf at 1.
    rewrite (power_ratios_frame_no_column bin_power eeg_chans binning df
               "C3" iv0 0 (or_introl HC3)).
    reflexivity.
  - intros HC3 HC4. unfold C3_C4_differences. rewrite Hrows, Hivs. cbn [seq foldM].
    unfold C3_C4_interval at 1.
    assert (Hiv0 : In iv0 (consecutive_pairs binning))
      by (rewrite Hivs; left; reflexivity).
    destruct (power_ratios_frame_has_float bin_power eeg_chans binning df
                Hnd Hs "C3" iv0 0 HC3 Hiv0 Hn) as [a Ha].
    change ("C3_" ++ str_interval iv0)%string with (feature_key "C3" iv0).
    change ("C4_" ++ str_interval iv0)%string with (feature_key "C4" iv0).
    fold prdf in Ha. rewrite Ha. cbn [bind]. unfold prdf at 1.
    rewrite (power_ratios_frame_no_column bin_power eeg_chans binning df
               "C4" iv0 0 (or_introl HC4)).
    reflexivity.
Qed.

(** X12: the extractor's table is what the power-bin cell expects.  On valid
    recording inputs, with the EEG channels among the extracted channels and
    pyeeg returning one ratio per interval on every extracted window, the
    power-bin cell runs on the table [getEpochedDF] returns; its table has one
    row per event, row [i] carries the [i]-th event label under [y], and its
    cell for a channel and the [j]-th interval is the [j]-th ratio of the
    samples of that channel in the window after the [i]-th start marker. *)
Theorem epochs_feed_power_ratios (all_chans eeg_chans : list string)
    (binning : list pynum) (eeg_df : raw_df V) (event_df : events_df Z)
    (trial_duration_ms : Z) :
  valid_inputs all_chans eeg_df event_df ->
  incl eeg_chans all_chans -> NoDup eeg_chans -> strictly_increasing binning ->
  (forall i r0 ch, nth_error (start_rows eeg_df) i = Some r0 ->
     (i < length (EventType event_df))%nat -> In ch eeg_chans ->
     exists pp,
       bin_power (window_samples eeg_df trial_duration_ms r0 ch) binning 250 =
         Ok pp /\
       length (snd pp) = (length binning - 1)%nat) ->
  exists epochs prdf,
    getEpochedDF all_chans eeg_df event_df trial_duration_ms = Ok epochs /\
    power_ratios_df bin_power eeg_chans binning epochs = Ok prdf /\
    nrows prdf = length (EventType event_df) /\
    (forall i l, nth_error (EventType event_df) i = Some l ->
       df_at prdf "y" i = Ok (CLabel l)) /\
    (forall i r0 ch j iv pp r,
       nth_error (start_rows eeg_df) i = Some r0 ->
       (i < length (EventType event_df))%nat -> In ch eeg_chans ->
       nth_error (consecutive_pairs binning) j = Some iv ->
       bin_power (window_samples eeg_df trial_duration_ms r0 ch) binning 250 =
         Ok pp ->
       nth_error (snd pp) j = Some r ->
       df_at prdf (feature_key ch iv) i = Ok (CVal r)).
Proof.
  intros Hv Hincl Hnd Hs Hbp.
  destruct (getEpochedDF_spec all_chans eeg_df event_df trial_duration_ms Hv)
    as [df [Hdf [Hrows [Hlab [_ Hchan]]]]].
  assert (Hlabel : forall i l, nth_error (EventType event_df) i = Some l ->
            df_at df "event_type" i = Ok (CLabel l)).
  { intros i l Hl. apply df_at_col. rewrite Hlab, nth_error_map, Hl. reflexivity. }
  assert (Hcell : forall i r0 ch, nth_error (start_rows eeg_df) i = Some r0 ->
            (i < length (EventType event_df))%nat -> In ch eeg_chans ->
            df_at df ch i =
            Ok (CArr (window_samples eeg_df trial_duration_ms r0 ch))).
  { intros i r0 ch Hr0 Hi Hch. apply df_at_col.
    rewrite (Hchan ch (Hincl ch Hch)), nth_error_map, nth_error_firstn.
    destruct (Nat.ltb_spec i (length (EventType event_df))); [|lia].
    rewrite Hr0. reflexivity. }
  assert (Hstart : forall i, (i < length (EventType event_df))%nat ->
            exists r0, nth_error (start_rows eeg_df) i = Some r0).
  { intros i Hi. pose proof (enough_starts _ _ _ Hv) as Hn.
    destruct (nth_error (start_rows eeg_df) i) as [r0|] eqn:E; [eauto|].
    apply nth_error_None in E. lia. }
  assert (Hve : valid_epochs bin_power eeg_chans binning df).
  { constructor.
    - intros i Hi. rewrite Hrows in Hi.
      destruct (nth_error (EventType event_df) i) as [l|] eqn:E.
      + exists (CLabel l). apply Hlabel. exact E.
      + apply nth_error_None in E. lia.
    - intros ch i Hch Hi. rewrite Hrows in Hi.
      destruct (Hstart i Hi) as [r0 Hr0].
      destruct (Hbp i r0 ch Hr0 Hi Hch) as [pp [Hpp Hlen]].
      exists (window_samples eeg_df trial_duration_ms r0 ch), pp.
      split; [apply Hcell; assumption|]. split; assumption. }
  exists df, (power_ratios_frame bin_power eeg_chans binning df).
  split; [exact Hdf|]. split; [apply power_ratios_df_frame; assumption|].
  split; [exact Hrows|]. split.
  - intros i l Hl. apply power_ratios_frame_y; try assumption.
    + rewrite Hrows. apply nth_error_Some. congruence.
    + apply Hlabel. exact Hl.
  - intros i r0 ch j iv pp r Hr0 Hi Hch Hj Hpp Hr.
    eapply power_ratios_frame_ratio; try eassumption.
    + rewrite Hrows. exact Hi.
    + apply Hcell; assumption.
Qed.

(** X13: the two statistics tables have the same shape.  On a table with a
    label column and a float column for every configured key, [std_err_df]
    and [avg_df] have the same columns; with at least one event type these are
    the configured keys, channel by channel and interval by interval, and the
    tables have one row per event type; with no event type both tables are
    empty, without any column. *)
Theorem stats_tables_shape (event_types : list (Z * string))
    (eeg_chans : list string) (intervals : list interval) (df : DataFrame V Z) :
  NoDup (all_keys eeg_chans intervals) ->
  stats_ready eeg_chans intervals df ->
  exists std_err_df avg_df,
    std_err_avg_df Z.eqb event_types eeg_chans intervals df =
      Ok (std_err_df, avg_df) /\
    map fst (cols std_err_df) = map fst (cols avg_df) /\
    nrows std_err_df = nrows avg_df /\
    (event_types <> [] ->
       map fst (cols avg_df) = all_keys eeg_chans intervals /\
       (all_keys eeg_chans intervals <> [] ->
        nrows avg_df = length event_types)) /\
    (event_types = [] ->
       cols std_err_df = [] /\ cols avg_df = [] /\ nrows avg_df = 0%nat).
Proof.
  intros Hnd Hr. rewrite all_keys_pairs in *.
  set (keyf := fun p : string * interval => feature_key (fst p) (snd p)) in *.
  eexists. eexists. split.
  { unfold std_err_avg_df. rewrite (stats_dicts_ok Z.eqb _ _ _ _ Hr).
    cbn [bind fst snd]. fold keyf.
    rewrite (row_table_frame keyf (sem_value Z.eqb df) _ _ Hnd). cbn [bind].
    rewrite (row_table_frame keyf (avg_value Z.eqb df) _ _ Hnd). cbn [bind].
    reflexivity. }
  cbn [cols nrows].
  destruct event_types as [|et event_types].
  - cbn [map]. unfold row_table. cbn [flat_map push_all fold_left].
    split; [reflexivity|]. split; [reflexivity|]. split; [congruence|].
    intros _. split; [reflexivity|]. split; [reflexivity|].
    destruct (pairs_of eeg_chans intervals); reflexivity.
  - assert (Hne : map fst (et :: event_types) <> []) by discriminate.
    rewrite !(row_table_keys keyf _ _ _ Hnd Hne).
    split; [reflexivity|]. split; [reflexivity|]. split; [|discriminate].
    intros _. split; [reflexivity|]. intros Hk.
    destruct (pairs_of eeg_chans intervals); [exfalso; apply Hk; reflexivity|].
    apply length_map.
Qed.

(** X14: a column the statistics cell needs and the table lacks shows as a
    [KeyError] naming it: ["y"] when the label column is missing, and
    otherwise the first configured key, in channel-then-interval order, that
    is not a column (the keys before it being float columns). *)
Theorem stats_missing_column (l : Z) (name : string)
    (event_types : list (Z * string)) (df : DataFrame V Z) :
  (forall (ch : string) (eeg_chans : list string) (iv : interval)
          (intervals : list interval),
     dict_get "y" (cols df) = None ->
     std_err_avg_df Z.eqb ((l, name) :: event_types) (ch :: eeg_chans)
       (iv :: intervals) df = Raise (KeyError "y")) /\
  (forall (pre post : list string) (ch : string) (ipre ipost : list interval)
          (iv : interval),
     stats_ready pre (ipre ++ iv :: ipost) df ->
     stats_ready [ch] ipre df ->
     dict_get (feature_key ch iv) (cols df) = None ->
     std_err_avg_df Z.eqb ((l, name) :: event_types) (pre ++ ch :: post)
       (ipre ++ iv :: ipost) df = Raise (KeyError (feature_key ch iv))).
Proof.
  split.
  - intros ch eeg_chans iv intervals Hy.
    unfold std_err_avg_df, stats_dicts. cbn [map fst foldM].
    unfold stats_interval at 1. cbn [dict_mem dict_get].
    unfold label_mask, dict_item. rewrite Hy. reflexivity.
  - intros pre post ch ipre ipost iv Hpre Hch Hk.
    unfold std_err_avg_df, stats_dicts. cbn [map fst foldM].
    erewrite foldM_app_fail; [reflexivity| |].
    + apply (stats_chans_ok pre (ipre ++ iv :: ipost)); [exact Hpre|apply incl_refl|].
      intros k. reflexivity.
    + erewrite foldM_app_fail; [reflexivity| |].
      * apply (stats_intervals_ok [ch] ipre); [exact Hch|left; reflexivity|apply incl_refl|].
        apply same_keys_push_all; [|intros k; reflexivity].
        rewrite (keyed_pushes_keys (fun c i => sem_value Z.eqb df l (c, i))),
                (keyed_pushes_keys (fun c i => avg_value Z.eqb df l (c, i))).
        reflexivity.
      * destruct Hch as [[ycol Hy] _].
        unfold stats_interval.
        match goal with
        | |- context [if ?b then ?x else ?y] => destruct (if b then x else y) as [s' a']
        end.
        unfold label_mask, masked_column, dict_item. rewrite Hy. cbn [bind].
        rewrite Hk. reflexivity.
Qed.

(** X16: the column keys of the power-bin table have to be distinct.  When
    two pairs of a channel and an interval give the same key (a channel listed
    twice, or a pair of boundaries that occurs twice), the power-bin cell on a
    valid epoch table with at least one row raises [ValueError]: the repeated
    key receives two values per row, the label column one. *)
Theorem power_ratios_duplicate_key (eeg_chans : list string)
    (binning : list pynum) (df : DataFrame V Z) :
  valid_epochs bin_power eeg_chans binning df ->
  (0 < nrows df)%nat ->
  ~ NoDup (all_keys eeg_chans (consecutive_pairs binning)) ->
  power_ratios_df bin_power eeg_chans binning df = Raise ValueError.
Proof.
  intros Hv Hn Hdup. unfold power_ratios_df.
  rewrite (power_ratios_dict_ok bin_power eeg_chans binning df Hv). cbn [bind].
  unfold power_ratios_expected.
  destruct (repeated_key _ Hdup) as [k Hk].
  apply (ragged_pushes _ _ [("y", [])] "y" k).
  - destruct (nrows df); [lia|discriminate].
  - reflexivity.
  - intros i _. rewrite key_count_keys, power_ratios_pushes_keys, filter_app.
    rewrite (key_count_absent "y" _ (@y_not_in_all_keys _ _)). reflexivity.
  - intros i _. rewrite key_count_keys, power_ratios_pushes_keys, filter_app,
      length_app. lia.
Qed.

End FeatureExtras.

(** ** Repeated names *)

Section DuplicateExtras.

Context {V L : Type}.

(** X15: a channel listed twice makes the extractor fail at the end.  With
    every listed channel in the recording, a start marker for every event and
    at least one event, [getEpochedDF] raises [ValueError]: the loop appends
    twice per event under the repeated name, and [pd.DataFrame] rejects
    columns of different length. *)
Theorem getEpochedDF_duplicate_channel (all_chans : list string)
    (eeg_df : raw_df V) (event_df : events_df L) (trial_duration_ms : Z) :
  (forall ch, In ch all_chans -> In ch (raw_columns eeg_df)) ->
  (length (EventType event_df) <= length (start_rows eeg_df))%nat ->
  EventType event_df <> [] ->
  ~ In "start_time" all_chans ->
  ~ NoDup all_chans ->
  getEpochedDF all_chans eeg_df event_df trial_duration_ms = Raise ValueError.
Proof.
  intros Hpres Hn Hne Hst Hdup.
  set (evs := EventType event_df) in *.
  set (rs := firstn (length evs) (start_rows eeg_df)).
  assert (Hlen : length rs = length evs).
  { unfold rs. rewrite length_firstn. lia. }
  assert (Hloop := getEpochedDF_loop all_chans eeg_df trial_duration_ms evs
                     Hpres rs 0%nat [] [] [] Hlen).
  cbn [app] in Hloop.
  assert (Hrs : forall j r, nth_error rs j = Some r ->
                 nth_error (start_rows eeg_df) (0 + j) = Some r).
  { intros j r Hj. unfold rs in Hj. cbn [Nat.add].
    assert (Hjl : (j < length evs)%nat).
    { rewrite <- Hlen. apply nth_error_Some. unfold rs. congruence. }
    rewrite nth_error_firstn in Hj.
    destruct (Nat.ltb_spec j (length evs)); [exact Hj | lia]. }
  specialize (Hloop Hrs).
  unfold getEpochedDF. fold evs. unfold enumerate. rewrite Hloop. cbn [bind].
  apply getDF_ragged; try assumption.
  - rewrite length_map. exact Hlen.
  - rewrite length_map. exact Hlen.
  - apply Forall_forall. intros e He. apply in_map_iff in He.
    destruct He as [r0 [<- _]]. apply length_map.
Qed.

End DuplicateExtras.

(** ** Plotting *)

Section PlottingExtras.

Context {V : Type} `{Float64 V} {N G : Type}.
Variable plt : plt_call V N G -> option exn.

(** X17: what [plotMultipleBarGraphs] does, in full.  With as many names
    as bar sequences, at least one sequence, error values (when given) for
    every sequence, and matplotlib accepting the calls, it returns after
    making exactly these calls, in order: one [plt.bar] per sequence, drawn at
    the group numbers 0, 1, ... with the bar width added once per preceding
    sequence; then one [plt.errorbar] per sequence at the same positions when
    error values are given; then the axis labels and title that are given and
    not empty; then [plt.xticks] at the positions of the second sequence
    (group number plus one bar width), [plt.legend] and [plt.show].  When the
    number of names differs from the number of sequences it only prints a
    message and returns.  With no sequence and no name it raises
    [IndexError]. *)
Theorem plotMultipleBarGraphs_calls (bar_width : V) (group_names : list G)
    (error_values : option (list (list V))) (title xlabel ylabel : option string) :
  (forall (bars : list (list V)) (bar_names : list N) (first : list V)
          (rest : list (list V)),
     bars = first :: rest ->
     length bar_names = length bars ->
     (forall ev, error_values = Some ev -> (length bars <= length ev)%nat) ->
     (forall c, In c (expected_calls bars bar_width bar_names group_names
                        error_values title xlabel ylabel (length first)) ->
        plt c = None) ->
     plotMultipleBarGraphs plt bars bar_width bar_names group_names error_values
       title xlabel ylabel =
     Ok (expected_calls bars bar_width bar_names group_names error_values
           title xlabel ylabel (length first))) /\
  (forall (bars : list (list V)) (bar_names : list N),
     length bar_names <> length bars ->
     plotMultipleBarGraphs plt bars bar_width bar_names group_names error_values
       title xlabel ylabel =
     Ok [py_print "group names must be same length as bars"]) /\
  plotMultipleBarGraphs plt [] bar_width [] group_names error_values
    title xlabel ylabel = Raise IndexError.
Proof.
  split; [|split].
  - intros bars bar_names first rest Hbars Hnames Hev Hacc.
    set (m := length first) in *.
    unfold plotMultipleBarGraphs.
    rewrite Hnames, Nat.eqb_refl. cbn [negb].
    assert (E0 : index bars 0 = Ok first) by (rewrite Hbars; reflexivity).
    rewrite E0. cbn [bind]. fold m.
    change (map (fun k : nat => of_Z (Z.of_nat k)) (seq 0 m))
      with (bar_positions bar_width m 0).
    rewrite (positions_all bar_width m bars first rest Hbars).
    cbn [bind].
    unfold expected_calls in *.
    rewrite (calls_loop plt (fun pos b name => plt_bar pos b bar_width name)
               bars bar_names bar_width m []).
    2:{ lia. }
    2:{ intros c Hc. apply Hacc. apply in_or_app. left. exact Hc. }
    cbn [bind app]. fold (expected_bars (G:=G) bars bar_width bar_names m).
    assert (Herr :
      match error_values with
      | None => Ok (expected_bars (G:=G) bars bar_width bar_names m)
      | Some ev =>
          foldM (fun trace ip =>
                   bar <- index bars (fst ip) ;;
                   yerr <- index ev (fst ip) ;;
                   call plt (plt_errorbar (snd ip) bar yerr ".k") trace)
                (enumerate (map (bar_positions bar_width m) (seq 0 (length bars))))
                (expected_bars (G:=G) bars bar_width bar_names m)
      end =
      Ok (expected_bars (G:=G) bars bar_width bar_names m ++
          expected_errorbars (N:=N) (G:=G) bars bar_width error_values m)).
    { destruct error_values as [ev|].
      - apply (calls_loop plt (fun pos b yerr => plt_errorbar pos b yerr ".k")
                 bars ev bar_width m).
        + apply Hev. reflexivity.
        + intros c Hc. apply Hacc. apply in_or_app. right.
          apply in_or_app. left. exact Hc.
      - cbn [expected_errorbars]. rewrite app_nil_r. reflexivity. }
    rewrite Herr. cbn [bind].
    rewrite call_if_ok.
    2:{ intros c Hc. apply Hacc. do 2 (apply in_or_app; right).
        apply in_or_app. left. exact Hc. }
    cbn [bind]. rewrite call_if_ok.
    2:{ intros c Hc. apply Hacc. do 3 (apply in_or_app; right).
        apply in_or_app. left. exact Hc. }
    cbn [bind]. rewrite call_if_ok.
    2:{ intros c Hc. apply Hacc. do 4 (apply in_or_app; right).
        apply in_or_app. left. exact Hc. }
    cbn [bind]. fold m.
    change (map (fun r : nat => fadd (of_Z (Z.of_nat r)) bar_width) (seq 0 m))
      with (bar_positions bar_width m 1).
    assert (Htail : forall c,
              In c [plt_xticks (bar_positions bar_width m 1) group_names;
                    plt_legend; plt_show] -> plt c = None).
    { intros c Hc. apply Hacc. do 5 (apply in_or_app; right). exact Hc. }
    unfold call.
    rewrite (Htail _ (or_introl eq_refl)). cbn [bind].
    rewrite (Htail _ (or_intror (or_introl eq_refl))). cbn [bind].
    rewrite (Htail _ (or_intror (or_intror (or_introl eq_refl)))).
    rewrite <- !app_assoc. reflexivity.
  - intros bars bar_names Hne. unfold plotMultipleBarGraphs.
    destruct (Nat.eqb_spec (length bar_names) (length bars)) as [E|_];
      [contradiction|reflexivity].
  - reflexivity.
Qed.

End PlottingExtras.

(** ** Bounds and empty inputs *)

Section BoundsExtras.

Context {V L : Type}.

(** X18: [getDF] reads one time pair and one epoch per label and nothing
    beyond: time pairs and epochs past the number of labels are ignored, and
    with no label at all the result is the empty frame, without any column,
    whatever the other arguments are. *)
Theorem getDF_ignores_surplus (epochs : list (list (list V)))
    (labels : list L) (times : list (Z * Z)) (chans : list string) :
  getDF epochs labels times chans =
  getDF (firstn (length labels) epochs) labels
        (firstn (length labels) times) chans /\
  getDF (L:=L) epochs [] times chans = Ok {| nrows := 0; cols := [] |}.
Proof.
  split; [|reflexivity].
  unfold getDF. f_equal.
  apply foldM_ext_in. intros [i l] d Hin. apply in_enumerate in Hin.
  assert (Hi : (i < length labels)%nat) by (apply nth_error_Some; congruence).
  assert (Ht : index (firstn (length labels) times) i = index times i).
  { unfold index. rewrite nth_error_firstn.
    destruct (Nat.ltb_spec i (length labels)); [reflexivity|lia]. }
  assert (He : index (firstn (length labels) epochs) i = index epochs i).
  { unfold index. rewrite nth_error_firstn.
    destruct (Nat.ltb_spec i (length labels)); [reflexivity|lia]. }
  unfold getDF_row. rewrite Ht.
  destruct (index times i) as [t|e]; [|reflexivity]. cbn [bind].
  destruct (list_append_at "start_time" _ _) as [d1|e]; [|reflexivity]. cbn [bind].
  destruct (list_append_at "event_type" _ _) as [d2|e]; [|reflexivity]. cbn [bind].
  apply foldM_ext_in. intros c d' _. unfold getDF_chan. rewrite He. reflexivity.
Qed.

(** X19: with fewer time pairs than labels [getDF] raises [IndexError] (from
    [times[i]]), provided the epochs before that point are there and hold
    one array per channel. *)
Theorem getDF_too_few_times (epochs : list (list (list V)))
    (labels : list L) (times : list (Z * Z)) (chans : list string) :
  (length times < length labels)%nat ->
  (length times <= length epochs)%nat ->
  Forall (fun e => length e = length chans) (firstn (length times) epochs) ->
  getDF epochs labels times chans = Raise IndexError.
Proof.
  intros Hlt Hle Hshape. unfold getDF, enumerate.
  set (m := length times) in *.
  rewrite <- (firstn_skipn m labels).
  assert (Hm : length (firstn m labels) = m) by (rewrite length_firstn; lia).
  destruct (skipn m labels) as [|l rest] eqn:Hs.
  { exfalso. apply (f_equal (@length L)) in Hs. rewrite length_skipn in Hs.
    simpl in Hs. lia. }
  rewrite combine_seq_app, foldM_app.
  rewrite (foldM_pushes _ (getDF_pushes epochs times chans)).
  - cbn [bind length seq combine foldM]. unfold getDF_row at 1. unfold index at 1.
    assert (Hn : nth_error times (0 + length (firstn m labels)) = None).
    { apply nth_error_None. rewrite Hm. cbn [Nat.add]. unfold m. lia. }
    rewrite Hn. reflexivity.
  - intros [i lab] d Hin. apply in_combine_l in Hin. apply in_seq in Hin.
    rewrite Hm in Hin.
    apply getDF_row_pushes; [unfold m in Hin; lia | lia |].
    rewrite Forall_forall in Hshape. apply Hshape.
    assert (Hi : (i < length epochs)%nat) by lia.
    apply (nth_error_In _ i). rewrite nth_error_firstn.
    destruct (Nat.ltb_spec i m); [|lia].
    apply nth_error_nth'. exact Hi.
Qed.

End BoundsExtras.

Section EmptyExtras.

Context {V : Type} `{Float64 V}.
Variable bin_power : list V -> list pynum -> Z -> result (list V * list V).

(** X20: an empty event table flows through without any check.  The
    extractor then returns the empty frame, without rows and without columns,
    even when configured channels are not in the recording; the power-bin
    cell on that frame returns a table with the single column [y] and no row,
    although the frame has no [event_type] column; and on that table the
    statistics cell raises [KeyError] for the first configured key as soon as
    there is an event type, a channel and an interval. *)
Theorem empty_event_table_flows_through (all_chans eeg_chans : list string)
    (binning : list pynum) (eeg_df : raw_df V) (event_df : events_df Z)
    (trial_duration_ms : Z) :
  EventType event_df = [] ->
  exists epochs prdf,
    getEpochedDF all_chans eeg_df event_df trial_duration_ms = Ok epochs /\
    epochs = {| nrows := 0; cols := [] |} /\
    power_ratios_df bin_power eeg_chans binning epochs = Ok prdf /\
    prdf = {| nrows := 0; cols := [("y", [])] |} /\
    forall l name event_types ch chans iv intervals,
      std_err_avg_df Z.eqb ((l, name) :: event_types) (ch :: chans)
        (iv :: intervals) prdf = Raise (KeyError (feature_key ch iv)).
Proof.
  intros Hev. eexists. eexists.
  split; [unfold getEpochedDF; rewrite Hev; reflexivity|].
  split; [reflexivity|].
  split.
  { unfold power_ratios_df, power_ratios_dict. rewrite getIntervals_ok.
    reflexivity. }
  split; [reflexivity|].
  intros l name event_types ch chans iv intervals.
  unfold std_err_avg_df, stats_dicts. cbn [map fst foldM].
  unfold stats_interval at 1. cbn [dict_mem dict_get].
  unfold label_mask, masked_column, dict_item. cbn [cols dict_get].
  change (String.eqb "y" "y") with true. cbn [bind map].
  assert (E : String.eqb (feature_key ch iv) "y" = false).
  { apply String.eqb_neq. exact (feature_key_not_y ch iv). }
  rewrite E. reflexivity.
Qed.

(** X21: the statistics cell runs on the table of the power-bin cell.  On
    a valid epoch table with at least one row, the statistics cell with the
    same channels and the intervals of the same boundaries returns normally,
    and its two tables have the column keys of the power-bin table except
    [y], whenever there is an event type. *)
Theorem stats_run_on_power_ratios (event_types : list (Z * string))
    (eeg_chans : list string) (binning : list pynum) (df : DataFrame V Z) :
  valid_epochs bin_power eeg_chans binning df ->
  NoDup eeg_chans -> strictly_increasing binning ->
  (0 < nrows df)%nat ->
  exists prdf std_err_df avg_df,
    power_ratios_df bin_power eeg_chans binning df = Ok prdf /\
    std_err_avg_df Z.eqb event_types eeg_chans (consecutive_pairs binning) prdf =
      Ok (std_err_df, avg_df) /\
    (event_types <> [] ->
     "y" :: map fst (cols std_err_df) = map fst (cols prdf) /\
     "y" :: map fst (cols avg_df) = map fst (cols prdf)).
Proof.
  intros Hv Hnd Hs Hn.
  pose proof (keys_nodup eeg_chans binning Hnd Hs) as Hk.
  eexists. eexists. eexists.
  split; [apply power_ratios_df_frame; assumption|].
  split.
  { apply std_err_avg_df_ok; [exact Hk|].
    apply power_ratios_frame_stats_ready; assumption. }
  intros Hne. cbn [cols].
  assert (Hrows : map fst event_types <> []).
  { destruct event_types; [congruence|discriminate]. }
  rewrite all_keys_pairs in Hk.
  rewrite !(row_table_keys _ _ _ _ Hk Hrows), <- all_keys_pairs.
  unfold power_ratios_frame. cbn [cols].
  rewrite (power_ratios_keys bin_power eeg_chans binning df
             (keys_nodup eeg_chans binning Hnd Hs) Hn).
  split; reflexivity.
Qed.

End EmptyExtras.

(** ** The plot cell *)

Section PlotCellExtras.

Context {V : Type} `{Float64 V}.
Variable plt : plt_call V Z interval -> option exn.

(** X22: the plot cell looks the statistics up by event label, not by the
    position of the event type.  For a channel, with distinct event labels,
    a float in both statistics tables in the row labelled by every event
    label, and matplotlib accepting the three preparatory calls, the cell
    sets title, y-limits and y-label and then calls [plotMultipleBarGraphs]
    with one bar sequence per event type, in the order of [event_types]; the
    sequence of an event type with label [l] holds, for every interval, the
    cell of [avg_df] in the row whose index is [l] (row number [l] for
    [0 <= l < nrows]), with the cells of [std_err_df] of the same row as error
    values, and with the fixed bar names [0, 1].  When the first event label is
    not an index of [avg_df] the cell raises [KeyError] for that label. *)
Theorem plot_channel_reads_rows_by_label (bar_width : V)
    (avg_df std_err_df : DataFrame V Z) (chan : string) :
  (forall (event_types : list (Z * string)) (intervals : list interval),
     NoDup (map fst event_types) ->
     (forall l iv, In l (map fst event_types) -> In iv intervals ->
        has_rows avg_df std_err_df chan l iv) ->
     plt (plt_title chan) = None ->
     plt (plt_ylim (PyInt 0) ylim_top) = None ->
     plt (plt_ylabel "Power Ratio") = None ->
     plot_channel plt bar_width event_types intervals avg_df std_err_df chan =
     (drawn <- plotMultipleBarGraphs plt
                 (rows_by_label avg_df chan (map fst event_types) intervals)
                 bar_width [0; 1] intervals
                 (Some (rows_by_label std_err_df chan (map fst event_types)
                          intervals))
                 None None None ;;
      Ok ([plt_title chan; plt_ylim (PyInt 0) ylim_top; plt_ylabel "Power Ratio"]
          ++ drawn))) /\
  (forall (df : DataFrame V Z) (key : string) (l : Z),
     0 <= l < Z.of_nat (nrows df) ->
     series_loc df key l = df_at df key (Z.to_nat l) /\
     loc_float df key l = float_at df key (Z.to_nat l)) /\
  (forall (l : Z) (name : string) (event_types : list (Z * string))
          (iv : interval) (intervals : list interval) (c : list (cell V Z)),
     l < 0 \/ Z.of_nat (nrows avg_df) <= l ->
     dict_get (feature_key chan iv) (cols avg_df) = Some c ->
     plot_channel plt bar_width ((l, name) :: event_types) (iv :: intervals)
       avg_df std_err_df chan = Raise (KeyError (repr (PyInt l)))).
Proof.
  split; [|split].
  - intros event_types intervals Hnd Hrows Ht Hy Hl.
    unfold plot_channel.
    rewrite (plot_values_ok avg_df std_err_df chan intervals
               (map fst event_types) [] Hnd Hrows).
    cbn [bind app]. rewrite !entries_frame. cbn [bind].
    unfold call. rewrite Ht. cbn [bind app]. rewrite Hy. cbn [bind app].
    rewrite Hl. cbn [bind app]. rewrite !entries_array. cbn [bind].
    reflexivity.
  - intros df key l Hl.
    assert (E : series_loc df key l = df_at df key (Z.to_nat l)).
    { unfold series_loc, df_at.
      destruct (dict_item key (cols df)) as [c|e]; [|reflexivity]. cbn [bind].
      destruct (Z.leb_spec 0 l); [|lia].
      destruct (Z.ltb_spec l (Z.of_nat (nrows df))); [|lia]. reflexivity. }
    split; [exact E|].
    unfold loc_float, float_at, cell_at. rewrite E.
    destruct (df_at df key (Z.to_nat l)) as [x|e]; [destruct x|]; reflexivity.
  - intros l name event_types iv intervals c Hl Hc.
    unfold plot_channel. cbn [map fst foldM].
    unfold plot_values_event at 1. cbn [ldict_get ldict_set foldM].
    unfold plot_values_interval at 1. unfold series_loc at 1, dict_item.
    rewrite Hc. cbn [bind].
    assert (E : (0 <=? l) && (l <? Z.of_nat (nrows avg_df)) = false).
    { destruct (Z.leb_spec 0 l); destruct (Z.ltb_spec l (Z.of_nat (nrows avg_df)));
        try reflexivity. lia. }
    rewrite E. reflexivity.
Qed.

End PlotCellExtras.

(** ** The properties above on concrete inputs *)

Lemma power_ratios_rows_follow_epochs_witness :
  exists prdf,
    power_ratios_df flat_bin_power default_eeg_chans default_binning demo_epochs
      = Ok prdf /\
    nrows prdf = 2%nat /\
    df_at prdf "y" 1 = Ok (CLabel 1) /\
    df_at prdf "Cz_(4, 7)" 0 = Ok (CVal (SDiv (SLit 1) (SLit 4))).
Proof.
  destruct (@power_ratios_rows_follow_epochs sym _ flat_bin_power
              default_eeg_chans default_binning demo_epochs demo_epochs_valid
              default_eeg_chans_nodup default_binning_increasing)
    as [prdf [H1 [H2 [H3 H4]]]].
  exists prdf. split; [exact H1|]. split; [exact H2|]. split.
  - apply H3; [simpl; lia | reflexivity].
  - apply (H4 0%nat "Cz" 1%nat (PyInt 4, PyInt 7) [SLit 5; SLit 6]
              (repeat (SLit 1) 4, repeat (SDiv (SLit 1) (SLit 4)) 4)).
    + simpl; lia.
    + simpl; auto.
    + reflexivity.
    + reflexivity.
    + reflexivity.
    + reflexivity.
Defined.

Lemma demo_epochs_valid_C3 :
  valid_epochs flat_bin_power ["C3"] default_binning demo_epochs.
Proof.
  apply (valid_epochs_incl flat_bin_power default_eeg_chans).
  - intros c [<-|[]]. simpl. auto.
  - exact demo_epochs_valid.
Defined.

Lemma power_ratios_missing_column_witness :
  power_ratios_df flat_bin_power default_eeg_chans default_binning zero_beta_df =
    Raise (KeyError "event_type") /\
  power_ratios_df flat_bin_power (["C3"] ++ "Fz" :: ["C4"]) default_binning
    demo_epochs = Raise (KeyError "Fz").
Proof.
  split.
  - apply (proj1 (@power_ratios_missing_column sym _ flat_bin_power));
      [simpl; lia | reflexivity].
  - apply (proj2 (@power_ratios_missing_column sym _ flat_bin_power));
      [simpl; lia | exact demo_epochs_valid_C3 | reflexivity].
Defined.

Lemma demo_epochs_valid_no_C3 :
  valid_epochs flat_bin_power ["Cz"; "C4"] default_binning demo_epochs.
Proof.
  apply (valid_epochs_incl flat_bin_power default_eeg_chans).
  - intros c [<-|[<-|[]]]; simpl; auto.
  - exact demo_epochs_valid.
Defined.

Lemma demo_epochs_valid_no_C4 :
  valid_epochs flat_bin_power ["C3"; "Cz"] default_binning demo_epochs.
Proof.
  apply (valid_epochs_incl flat_bin_power default_eeg_chans).
  - intros c [<-|[<-|[]]]; simpl; auto.
  - exact demo_epochs_valid.
Defined.

Lemma C3_C4_differences_needs_C3_and_C4_witness :
  (exists prdf,
     power_ratios_df flat_bin_power ["Cz"; "C4"] default_binning demo_epochs
       = Ok prdf /\
     C3_C4_differences (consecutive_pairs default_binning) prdf =
       Raise (KeyError "C3_(0.5, 4)")) /\
  (exists prdf,
     power_ratios_df flat_bin_power ["C3"; "Cz"] default_binning demo_epochs
       = Ok prdf /\
     C3_C4_differences (consecutive_pairs default_binning) prdf =
       Raise (KeyError "C4_(0.5, 4)")).
Proof.
  split.
  - destruct (@C3_C4_differences_needs_C3_and_C4 sym _ flat_bin_power
                ["Cz"; "C4"] default_binning demo_epochs
                (PyFloat false 0 (Decimal.D5 Decimal.Nil), PyInt 4)
                [(PyInt 4, PyInt 7); (PyInt 7, PyInt 12); (PyInt 12, PyInt 30)]
                demo_epochs_valid_no_C3) as [prdf [H1 [H2 _]]].
    + repeat constructor; simpl; intuition discriminate.
    + exact default_binning_increasing.
    + simpl; lia.
    + reflexivity.
    + exists prdf. split; [exact H1|]. apply H2. simpl; intuition discriminate.
  - destruct (@C3_C4_differences_needs_C3_and_C4 sym _ flat_bin_power
                ["C3"; "Cz"] default_binning demo_epochs
                (PyFloat false 0 (Decimal.D5 Decimal.Nil), PyInt 4)
                [(PyInt 4, PyInt 7); (PyInt 7, PyInt 12); (PyInt 12, PyInt 30)]
                demo_epochs_valid_no_C4) as [prdf [H1 [_ H2]]].
    + repeat constructor; simpl; intuition discriminate.
    + exact default_binning_increasing.
    + simpl; lia.
    + reflexivity.
    + exists prdf. split; [exact H1|]. apply H2.
      * simpl; auto.
      * simpl; intuition discriminate.
Defined.

Lemma tiny_valid : valid_inputs synth_chans tiny_eeg_df tiny_event_df.
Proof.
  constructor.
  - vm_compute. apply le_n.
  - intros ch Hch. exact Hch.
  - repeat constructor; simpl; intuition discriminate.
  - simpl; intuition discriminate.
  - simpl; intuition discriminate.
Defined.

Lemma epochs_feed_power_ratios_witness :
  exists epochs prdf,
    getEpochedDF synth_chans tiny_eeg_df tiny_event_df 8 = Ok epochs /\
    power_ratios_df flat_bin_power ["C3"] default_binning epochs = Ok prdf /\
    nrows prdf = 2%nat /\
    df_at prdf "y" 1 = Ok (CLabel 1) /\
    df_at prdf "C3_(4, 7)" 1 = Ok (CVal (SDiv (SLit 1) (SLit 4))).
Proof.
  destruct (@epochs_feed_power_ratios sym _ flat_bin_power synth_chans ["C3"]
              default_binning tiny_eeg_df tiny_event_df 8 tiny_valid)
    as [epochs [prdf [H1 [H2 [H3 [H4 H5]]]]]].
  - intros c [<-|[]]. simpl. auto.
  - repeat constructor; simpl; intuition discriminate.
  - exact default_binning_increasing.
  - intros i r0 ch _ _ _. eexists. split; reflexivity.
  - exists epochs, prdf. split; [exact H1|]. split; [exact H2|].
    split; [exact H3|]. split.
    + apply H4. reflexivity.
    + apply (H5 1%nat (tiny_row 3) "C3" 1%nat (PyInt 4, PyInt 7)
                (repeat (SLit 1) 4, repeat (SDiv (SLit 1) (SLit 4)) 4)).
      * vm_compute. reflexivity.
      * simpl; lia.
      * simpl; auto.
      * reflexivity.
      * reflexivity.
      * reflexivity.
Defined.

Lemma stats_df_ready : stats_ready ["C3"] [(PyInt 4, PyInt 7)] stats_df.
Proof.
  split.
  - eexists. reflexivity.
  - intros ch iv [<-|[]] [<-|[]]. exists [SLit 2; SLit 5; SLit 4]. reflexivity.
Defined.

Lemma stats_tables_shape_witness :
  exists std_err_df avg_df,
    std_err_avg_df Z.eqb demo_event_types ["C3"] [(PyInt 4, PyInt 7)] stats_df =
      Ok (std_err_df, avg_df) /\
    map fst (cols std_err_df) = ["C3_(4, 7)"] /\
    map fst (cols avg_df) = ["C3_(4, 7)"] /\
    nrows std_err_df = 2%nat /\ nrows avg_df = 2%nat.
Proof.
  destruct (@stats_tables_shape sym _ demo_event_types ["C3"]
              [(PyInt 4, PyInt 7)] stats_df)
    as [se [av [H1 [H2 [H3 [H4 _]]]]]].
  - repeat constructor; simpl; intuition discriminate.
  - exact stats_df_ready.
  - destruct H4 as [H5 H6]; [discriminate|].
    exists se, av. split; [exact H1|].
    split; [rewrite H2; exact H5|]. split; [exact H5|].
    split; [rewrite H3|]; apply H6; discriminate.
Defined.

Lemma stats_missing_column_witness :
  std_err_avg_df Z.eqb ((0, "left") :: [(1, "right")]) ("C3" :: [])
    ((PyInt 4, PyInt 7) :: []) demo_epochs = Raise (KeyError "y") /\
  std_err_avg_df Z.eqb ((0, "left") :: [(1, "right")]) ([] ++ "C3" :: [])
    ([(PyInt 4, PyInt 7)] ++ (PyInt 7, PyInt 12) :: []) stats_df =
  Raise (KeyError "C3_(7, 12)").
Proof.
  split.
  - apply (proj1 (@stats_missing_column sym _ 0 "left" [(1, "right")] demo_epochs)).
    reflexivity.
  - apply (proj2 (@stats_missing_column sym _ 0 "left" [(1, "right")] stats_df)
             [] [] "C3" [(PyInt 4, PyInt 7)] [] (PyInt 7, PyInt 12)).
    + split; [eexists; reflexivity|]. intros ch iv [].
    + exact stats_df_ready.
    + reflexivity.
Defined.

Lemma C3_twice : ~ NoDup ["C3"; "C3"].
Proof.
  intros Hn. apply NoDup_cons_iff in Hn. apply (proj1 Hn). left. reflexivity.
Defined.

Lemma getEpochedDF_duplicate_channel_witness :
  getEpochedDF ["C3"; "C3"] synth_eeg_df synth_event_df 4000 = Raise ValueError.
Proof.
  apply getEpochedDF_duplicate_channel.
  - intros ch [<-|[<-|[]]]; simpl; auto.
  - vm_compute. apply le_n.
  - discriminate.
  - simpl; intuition discriminate.
  - exact C3_twice.
Defined.

Lemma power_ratios_duplicate_key_witness :
  power_ratios_df flat_bin_power ["C3"; "C3"] default_binning demo_epochs =
  Raise ValueError.
Proof.
  apply power_ratios_duplicate_key.
  - apply (valid_epochs_incl flat_bin_power default_eeg_chans).
    + intros c [<-|[<-|[]]]; simpl; auto.
    + exact demo_epochs_valid.
  - simpl; lia.
  - intros Hn. apply NoDup_cons_iff in Hn. apply (proj1 Hn).
    vm_compute. do 3 right. left. reflexivity.
Defined.

Lemma plotMultipleBarGraphs_calls_witness :
  plotMultipleBarGraphs plt_accepts_all demo_bars (SLit 15) [0; 1] demo_groups
    (Some demo_errors) None (Some "") (Some "Power Ratio") =
  Ok [plt_bar [SLit 0; SLit 1] [SLit 1; SLit 2] (SLit 15) 0;
      plt_bar [SAdd (SLit 0) (SLit 15); SAdd (SLit 1) (SLit 15)]
              [SLit 3; SLit 4] (SLit 15) 1;
      plt_errorbar [SLit 0; SLit 1] [SLit 1; SLit 2] [SLit 5; SLit 6] ".k";
      plt_errorbar [SAdd (SLit 0) (SLit 15); SAdd (SLit 1) (SLit 15)]
                   [SLit 3; SLit 4] [SLit 7; SLit 8] ".k";
      plt_ylabel "Power Ratio";
      plt_xticks [SAdd (SLit 0) (SLit 15); SAdd (SLit 1) (SLit 15)] demo_groups;
      plt_legend; plt_show].
Proof.
  refine (proj1 (@plotMultipleBarGraphs_calls sym _ Z interval plt_accepts_all
                   (SLit 15) demo_groups (Some demo_errors) None (Some "")
                   (Some "Power Ratio"))
            demo_bars [0; 1] [SLit 1; SLit 2] [[SLit 3; SLit 4]]
            eq_refl eq_refl _ _).
  - intros ev E. injection E as <-. simpl. lia.
  - intros c _. reflexivity.
Defined.

Lemma getDF_too_few_times_witness :
  getDF [[[1; 2]]; [[3; 4]]] ["left"; "right"] [(0, 4000)] ["C3"] =
  Raise IndexError.
Proof.
  apply (@getDF_too_few_times Z string).
  - simpl; lia.
  - simpl; lia.
  - repeat constructor.
Defined.

Lemma empty_event_table_flows_through_witness :
  exists epochs prdf,
    getEpochedDF ["Fz"] tiny_eeg_df no_event_df 8 = Ok epochs /\
    epochs = {| nrows := 0; cols := [] |} /\
    power_ratios_df flat_bin_power default_eeg_chans default_binning epochs =
      Ok prdf /\
    prdf = {| nrows := 0; cols := [("y", [])] |} /\
    std_err_avg_df Z.eqb ((0, "left") :: [(1, "right")]) ("C3" :: ["Cz"; "C4"])
      ((PyInt 4, PyInt 7) :: []) prdf = Raise (KeyError "C3_(4, 7)").
Proof.
  destruct (@empty_event_table_flows_through sym _ flat_bin_power ["Fz"]
              default_eeg_chans default_binning tiny_eeg_df no_event_df 8 eq_refl)
    as [epochs [prdf [H1 [H2 [H3 [H4 H5]]]]]].
  exists epochs, prdf. split; [exact H1|]. split; [exact H2|].
  split; [exact H3|]. split; [exact H4|]. apply H5.
Defined.

Lemma stats_run_on_power_ratios_witness :
  exists prdf std_err_df avg_df,
    power_ratios_df flat_bin_power default_eeg_chans default_binning demo_epochs
      = Ok prdf /\
    std_err_avg_df Z.eqb demo_event_types default_eeg_chans
      (consecutive_pairs default_binning) prdf = Ok (std_err_df, avg_df) /\
    "y" :: map fst (cols std_err_df) = map fst (cols prdf) /\
    "y" :: map fst (cols avg_df) = map fst (cols prdf).
Proof.
  destruct (@stats_run_on_power_ratios sym _ flat_bin_power demo_event_types
              default_eeg_chans default_binning demo_epochs demo_epochs_valid
              default_eeg_chans_nodup default_binning_increasing)
    as [prdf [se [av [H1 [H2 H3]]]]].
  - simpl; lia.
  - exists prdf, se, av. split; [exact H1|]. split; [exact H2|].
    apply H3. discriminate.
Defined.

Lemma demo_rows (l : Z) (iv : interval) :
  In l (map fst swapped_event_types) -> In iv [(PyInt 4, PyInt 7)] ->
  has_rows demo_avg_df demo_sem_df "C3" l iv.
Proof.
  intros [<-|[<-|[]]] [<-|[]]; eexists; eexists; split; reflexivity.
Defined.

Lemma plot_channel_reads_rows_by_label_witness :
  plot_channel plt_accepts_all (SLit 15) swapped_event_types [(PyInt 4, PyInt 7)]
    demo_avg_df demo_sem_df "C3" =
  Ok [plt_title "C3"; plt_ylim (PyInt 0) ylim_top; plt_ylabel "Power Ratio";
      plt_bar [SLit 0] [SLit 20] (SLit 15) 0;
      plt_bar [SAdd (SLit 0) (SLit 15)] [SLit 10] (SLit 15) 1;
      plt_errorbar [SLit 0] [SLit 20] [SLit 2] ".k";
      plt_errorbar [SAdd (SLit 0) (SLit 15)] [SLit 10] [SLit 1] ".k";
      plt_xticks [SAdd (SLit 0) (SLit 15)] [(PyInt 4, PyInt 7)];
      plt_legend; plt_show] /\
  plot_channel plt_accepts_all (SLit 15) ((2, "right") :: [(1, "left")])
    ((PyInt 4, PyInt 7) :: []) demo_avg_df demo_sem_df "C3" =
  Raise (KeyError "2").
Proof.
  split.
  - rewrite (proj1 (@plot_channel_reads_rows_by_label sym _ plt_accepts_all
                      (SLit 15) demo_avg_df demo_sem_df "C3")
               swapped_event_types [(PyInt 4, PyInt 7)]).
    + reflexivity.
    + repeat constructor; simpl; intuition discriminate.
    + exact demo_rows.
    + reflexivity.
    + reflexivity.
    + reflexivity.
  - apply (proj2 (proj2 (@plot_channel_reads_rows_by_label sym _ plt_accepts_all
                           (SLit 15) demo_avg_df demo_sem_df "C3"))
             2 "right" [(1, "left")] (PyInt 4, PyInt 7) []
             [CVal (SLit 10); CVal (SLit 20)]).
    + right. simpl. lia.
    + reflexivity.
Defined.
